(** * GoPlaces: the coordinate formatter, the generation relay and the
      client-side photo cache

    A shallow embedding of
    - [src/server/src/index.ts]: [convertToDMS] and the handler of
      [POST /api/generate];
    - [src/client/src/App.tsx]: [handleImageUpload], [loadSavedImage] and the
      file reconstruction of [handleGenerate].

    JavaScript numbers are IEEE-754 binary64 values.  They are modelled by the
    Standard Library's executable specification of binary floating point
    ([spec_float], precision 53, maximal exponent 1024), so every arithmetic
    step of [convertToDMS] rounds the way the program's does.  Strings are byte
    strings holding the UTF-8 encoding of the JavaScript text. *)

From Stdlib Require Import ZArith Lia String Ascii List Bool DecimalString.
From Stdlib Require Import Floats.SpecFloat Strings.Byte.
From stdpp Require Import base option gmap strings list.

Open Scope Z_scope.

(** ** JavaScript numbers *)

Module Num.

Definition prec : Z := 53.
Definition emax : Z := 1024.

(** A JavaScript [number]. *)
Definition number : Type := spec_float.

(** The values that are binary64 numbers: a finite one has its mantissa
    and exponent in canonical form. *)
Definition is_double (x : number) : Prop := valid_binary prec emax x = true.

(** Finite numbers: neither [NaN] nor an infinity ([Number.isFinite]). *)
Definition isFinite (x : number) : bool :=
  match x with
  | S754_zero _ | S754_finite _ _ _ => true
  | _ => false
  end.

Definition NaN : number := S754_nan.
Definition zero : number := S754_zero false.

(** The number an integer literal denotes. *)
Definition ofZ (n : Z) : number := binary_normalize prec emax n 0 false.

(** [x * y] and [x - y]. *)
Definition mul (x y : number) : number := SFmul prec emax x y.
Definition sub (x y : number) : number := SFsub prec emax x y.

(** [x >= y] and [x < y]; both are false when an operand is [NaN]. *)
Definition ge (x y : number) : bool := SFleb y x.
Definition lt (x y : number) : bool := SFltb x y.

(** Structural equality; on canonical values it is "the same number",
    telling [+0] from [-0]. *)
Definition same (x y : number) : bool :=
  match x, y with
  | S754_zero a, S754_zero b => Bool.eqb a b
  | S754_infinity a, S754_infinity b => Bool.eqb a b
  | S754_nan, S754_nan => true
  | S754_finite a m e, S754_finite b m' e' =>
      Bool.eqb a b && Pos.eqb m m' && Z.eqb e e'
  | _, _ => false
  end.

(** [Math.abs]. *)
Definition Math_abs (x : number) : number := SFabs x.

(** [Math.floor]: [NaN], the infinities and the zeros are returned as they
    are; a finite number with a non-negative exponent is an integer
    already; otherwise the signed mantissa is divided by the power of two
    ([Z.div] rounds towards minus infinity). *)
Definition Math_floor (x : number) : number :=
  match x with
  | S754_finite s m e =>
      if 0 <=? e then x
      else
        let q := cond_Zopp s (Z.pos m) / 2 ^ (- e) in
        if q =? 0 then S754_zero s else ofZ q
  | _ => x
  end.

(** [Math.round]: the integer nearest to [x], a tie going towards plus
    infinity, that is [floor (x + 1/2)] computed exactly; a result of zero
    keeps the sign of [x]. *)
Definition Math_round (x : number) : number :=
  match x with
  | S754_finite s m e =>
      if 0 <=? e then x
      else
        let q := (2 * cond_Zopp s (Z.pos m) + 2 ^ (- e)) / 2 ^ (- e + 1) in
        if q =? 0 then S754_zero s else ofZ q
  | _ => x
  end.

(** The number nearest to [s * 10 ^ p], for [0 <= s]: the value of a
    decimal literal. *)
Definition ofDecimal (s p : Z) : number :=
  match s with
  | Z.pos m =>
      if 0 <=? p then ofZ (s * 10 ^ p)
      else SFdiv prec emax (S754_finite false m 0)
                          (S754_finite false (Z.to_pos (10 ^ (- p))) 0)
  | _ => zero
  end.

(** *** Vocabulary of the rounding lemmas *)

(** What [n] right shifts of the record of [M] hold: the quotient, and the
    position of the remainder with respect to half of [2 ^ n]. *)
Definition shr_inv (M n : Z) (r : shr_record) : Prop :=
  shr_m r = M / 2 ^ n /\
  exists u, 0 <= u < 2 ^ n /\
    2 * (M mod 2 ^ n) = (if shr_r r then 2 ^ n else 0) + u /\
    shr_s r = negb (u =? 0).

(** [below B x]: [x] is [+0], or a positive binary64 number less than the
    integer [B] (which makes its exponent negative). *)
Definition below (B : Z) (x : number) : Prop :=
  x = S754_zero false \/
  exists mf ef, x = S754_finite false mf ef /\ bounded prec emax mf ef = true /\
                ef < 0 /\ Z.pos mf < B * 2 ^ (- ef).

(** The number of a non-negative integer, as [Math.floor] and [Math.round]
    return it. *)
Definition nat_number (d : Z) : number :=
  if d =? 0 then S754_zero false else ofZ d.

(** *** [Number::toString] (radix 10) *)

(** Decimal numeral of a non-negative integer. *)
Definition decimal (n : Z) : string :=
  NilZero.string_of_uint (N.to_uint (Z.to_N n)).

(** [pow10_le n m e]: [10 ^ n <= m * 2 ^ e], decided on integers. *)
Definition pow10_le (n : Z) (m : positive) (e : Z) : bool :=
  10 ^ Z.max n 0 * 2 ^ Z.max (- e) 0 <=? Z.pos m * 2 ^ Z.max e 0 * 10 ^ Z.max (- n) 0.

(** The [n] with [10 ^ (n - 1) <= m * 2 ^ e < 10 ^ n]: an estimate from the
    binary logarithm, moved by at most a few steps. *)
Fixpoint adjust_exp10 (fuel : nat) (n : Z) (m : positive) (e : Z) : Z :=
  match fuel with
  | O => n
  | S fuel' =>
      if negb (pow10_le (n - 1) m e) then adjust_exp10 fuel' (n - 1) m e
      else if pow10_le n m e then adjust_exp10 fuel' (n + 1) m e
      else n
  end.

Definition exp10 (m : positive) (e : Z) : Z :=
  adjust_exp10 4 ((Z.log2 (Z.pos m) + e) * 30103 / 100000 + 1) m e.

(** The digits [s] (with [k] of them) and the exponent [n] of the shortest
    decimal [s * 10 ^ (n - k)] whose number value is [x = m * 2 ^ e]; of
    the two candidates with [k] digits the one nearer to [x] is taken, the
    even one on a tie. *)
Fixpoint shortest (fuel : nat) (k : Z) (n : Z) (m : positive) (e : Z) : Z * Z :=
  let x := S754_finite false m e in
  let num := Z.pos m * 2 ^ Z.max e 0 * 10 ^ Z.max (k - n) 0 in
  let den := 2 ^ Z.max (- e) 0 * 10 ^ Z.max (n - k) 0 in
  let lo := num / den in
  let hi := lo + 1 in
  let ok_lo := same (ofDecimal lo (n - k)) x in
  let ok_hi := (hi <? 10 ^ k) && same (ofDecimal hi (n - k)) x in
  let nearer :=
    match (num - lo * den) ?= (hi * den - num) with
    | Lt => lo
    | Gt => hi
    | Eq => if Z.even lo then lo else hi
    end in
  match fuel with
  | O => (lo, k)
  | S fuel' =>
      if ok_lo && ok_hi then (nearer, k)
      else if ok_lo then (lo, k)
      else if ok_hi then (hi, k)
      else shortest fuel' (k + 1) n m e
  end.

Definition zeros (n : Z) : string := String.concat "" (List.repeat "0"%string (Z.to_nat n)).

(** Steps 5 to 10 of [Number::toString] for a positive finite number. *)
Definition toString_pos (m : positive) (e : Z) : string :=
  let n0 := exp10 m e in
  let '(s, k, n) :=
    if same (ofDecimal 1 n0) (S754_finite false m e) then (1, 1, n0 + 1)
    else let '(s, k) := shortest 17 1 n0 m e in (s, k, n0) in
  let ds := decimal s in
  let sign : string := if 0 <=? n - 1 then "+" else "-" in
  let expo := "e" +:+ sign +:+ decimal (Z.abs (n - 1)) in
  if (k <=? n) && (n <=? 21) then ds +:+ zeros (n - k)
  else if (0 <? n) && (n <=? 21) then
    String.substring 0 (Z.to_nat n) ds +:+ "." +:+
    String.substring (Z.to_nat n) (Z.to_nat (k - n)) ds
  else if (-6 <? n) && (n <=? 0) then "0." +:+ zeros (- n) +:+ ds
  else if k =? 1 then ds +:+ expo
  else String.substring 0 1 ds +:+ "." +:+
       String.substring 1 (Z.to_nat (k - 1)) ds +:+ expo.

(** [Number::toString]: what a template literal substitutes for a
    number. *)
Definition toString (x : number) : string :=
  match x with
  | S754_nan => "NaN"
  | S754_zero _ => "0"
  | S754_infinity false => "Infinity"
  | S754_infinity true => "-Infinity"
  | S754_finite false m e => toString_pos m e
  | S754_finite true m e => "-" +:+ toString_pos m e
  end.

(** *** [parseFloat] *)

Definition code (c : ascii) : Z := Z.of_N (N_of_ascii c).

Definition digit_of (c : ascii) : option Z :=
  if (48 <=? code c) && (code c <=? 57) then Some (code c - 48) else None.

(** The UTF-8 encodings of the white space and line terminator code
    points that [parseFloat] skips ([StrWhiteSpaceChar]). *)
Definition white_space : list (list Z) :=
  [ [9]; [10]; [11]; [12]; [13]; [32]; [194; 160]; [225; 154; 128];
    [226; 128; 128]; [226; 128; 129]; [226; 128; 130]; [226; 128; 131];
    [226; 128; 132]; [226; 128; 133]; [226; 128; 134]; [226; 128; 135];
    [226; 128; 136]; [226; 128; 137]; [226; 128; 138]; [226; 128; 168];
    [226; 128; 169]; [226; 128; 175]; [226; 129; 159]; [227; 128; 128];
    [239; 187; 191] ].

Fixpoint drop_bytes (p : list Z) (s : string) : option string :=
  match p, s with
  | [], _ => Some s
  | b :: p', String c r => if code c =? b then drop_bytes p' r else None
  | _ :: _, EmptyString => None
  end.

Fixpoint drop_first (ps : list (list Z)) (s : string) : option string :=
  match ps with
  | [] => None
  | p :: ps' =>
      match drop_bytes p s with
      | Some r => Some r
      | None => drop_first ps' s
      end
  end.

Fixpoint skip_ws (fuel : nat) (s : string) : string :=
  match fuel with
  | O => s
  | S fuel' =>
      match drop_first white_space s with
      | Some r => skip_ws fuel' r
      | None => s
      end
  end.

(** A maximal run of decimal digits: its value, its length, the rest. *)
Fixpoint read_digits (s : string) (acc cnt : Z) : Z * Z * string :=
  match s with
  | String c r =>
      match digit_of c with
      | Some d => read_digits r (10 * acc + d) (cnt + 1)
      | None => (acc, cnt, s)
      end
  | EmptyString => (acc, cnt, s)
  end.

(** [ExponentPart]: [e] or [E], an optional sign and at least one digit;
    0 when the text does not start with one. *)
Definition read_exponent (s : string) : Z :=
  match s with
  | String c r =>
      if (code c =? 101) || (code c =? 69) then
        let '(neg, r') :=
          match r with
          | String c' r'' =>
              if code c' =? 45 then (true, r'')
              else if code c' =? 43 then (false, r'')
              else (false, r)
          | EmptyString => (false, r)
          end in
        let '(v, cnt, _) := read_digits r' 0 0 in
        if cnt =? 0 then 0 else if neg then - v else v
      else 0
  | EmptyString => 0
  end.

(** The longest prefix that is a [StrUnsignedDecimalLiteral], as a
    number; [NaN] when there is none. *)
Definition read_unsigned (s : string) : number :=
  match drop_bytes [73; 110; 102; 105; 110; 105; 116; 121] s with
  | Some _ => S754_infinity false
  | None =>
      let '(i, ci, r) := read_digits s 0 0 in
      let '(f, cf, r') :=
        match r with
        | String c r1 =>
            if code c =? 46 then read_digits r1 i 0 else (i, 0, r)
        | EmptyString => (i, 0, r)
        end in
      if (ci =? 0) && (cf =? 0) then NaN
      else ofDecimal f (read_exponent r' - cf)
  end.

Definition parseFloat_string (s : string) : number :=
  let t := skip_ws (String.length s) s in
  match t with
  | String c r =>
      if code c =? 45 then SFopp (read_unsigned r)
      else if code c =? 43 then read_unsigned r
      else read_unsigned t
  | EmptyString => NaN
  end.

(** [parseFloat v] for a form field [v]: a string, or [undefined] when the
    field is absent; the argument is converted to a string first. *)
Definition parseFloat (v : option string) : number :=
  match v with
  | Some s => parseFloat_string s
  | None => parseFloat_string "undefined"
  end.

End Num.

(** ** The coordinate formatter ([src/server/src/index.ts], [convertToDMS]) *)

Module Dms.
Import Num.

(** The literal [60]. *)
Definition sixty : number := ofZ 60.

(** [convertToDMS(lat, lng)], line by line. *)
Definition convertToDMS (lat lng : number) : string :=
  let latDir : string := if ge lat zero then "N" else "S" in
  let lngDir : string := if ge lng zero then "E" else "W" in
  let absLat := Math_abs lat in
  let absLng := Math_abs lng in
  let latDeg := Math_floor absLat in
  let latMin := Math_floor (mul (sub absLat latDeg) sixty) in
  let latSec := Math_round (mul (sub (mul (sub absLat latDeg) sixty) latMin) sixty) in
  let lngDeg := Math_floor absLng in
  let lngMin := Math_floor (mul (sub absLng lngDeg) sixty) in
  let lngSec := Math_round (mul (sub (mul (sub absLng lngDeg) sixty) lngMin) sixty) in
  toString latDeg +:+ "°" +:+ toString latMin +:+ "′" +:+ toString latSec
    +:+ "″" +:+ latDir +:+ ", " +:+
  toString lngDeg +:+ "°" +:+ toString lngMin +:+ "′" +:+ toString lngSec
    +:+ "″" +:+ lngDir.

(** *** The formatter as the specification words it

    For one axis: the absolute value [a], then [D = floor a],
    [M = floor ((a - D) * 60)] and [S = round (((a - D) * 60 - M) * 60)],
    the arithmetic being that of numbers. *)
Record dms : Type := { deg : number; min : number; sec : number }.

Definition dms_of (value : number) : dms :=
  let a := Math_abs value in
  let D := Math_floor a in
  let M := Math_floor (mul (sub a D) sixty) in
  let S := Math_round (mul (sub (mul (sub a D) sixty) M) sixty) in
  {| deg := D; min := M; sec := S |}.

(** The hemisphere letter by sign: [neg] for a negative value, [pos]
    otherwise. *)
Definition hemisphere (pos neg : string) (value : number) : string :=
  if lt value zero then neg else pos.

(** [D°M′S″H]. *)
Definition axis_string (c : dms) (h : string) : string :=
  toString (deg c) +:+ "°" +:+ toString (min c) +:+ "′" +:+ toString (sec c)
    +:+ "″" +:+ h.

Definition dms_string (lat lng : number) : string :=
  axis_string (dms_of lat) (hemisphere "N" "S" lat) +:+ ", " +:+
  axis_string (dms_of lng) (hemisphere "E" "W" lng).

(** The integer a component stands for, when it is one. *)
Definition int_value (x : number) : option Z :=
  match x with
  | S754_zero _ => Some 0
  | S754_finite s m e =>
      if 0 <=? e then Some (cond_Zopp s (Z.pos m * 2 ^ e))
      else if Z.pos m mod 2 ^ (- e) =? 0 then Some (cond_Zopp s (Z.pos m / 2 ^ (- e)))
      else None
  | _ => None
  end.

(** The check behind [small_number]: an integer up to 180 prints as its
    decimal numeral. *)
Definition small_ok (d : Z) : bool :=
  String.eqb (toString (nat_number d)) (decimal d) &&
  match int_value (nat_number d) with Some z => z =? d | None => false end.

End Dms.

(** ** Base64 and [data:] URLs (the browser's [FileReader.readAsDataURL]
       and [fetch] of a [data:] URL) *)

Module DataUrl.

Definition alphabet : list ascii :=
  list_ascii_of_string "ABCDEFGHIJKLMNOPQRSTUVWXYZabcdefghijklmnopqrstuvwxyz0123456789+/".

(** The code of a character and the value of a byte. *)
Definition code (c : ascii) : Z := Z.of_N (N_of_ascii c).
Definition byte_val (b : byte) : Z := Z.of_N (Byte.to_N b).

(** The character of a 6-bit group (the low six bits of [n]). *)
Definition sextet_char (n : Z) : ascii :=
  nth (Z.to_nat (n mod 64)) alphabet "A"%char.

(** The 6-bit group of a character of the alphabet. *)
Definition char_sextet (c : ascii) : option Z :=
  let n := code c in
  if (65 <=? n) && (n <=? 90) then Some (n - 65)
  else if (97 <=? n) && (n <=? 122) then Some (n - 71)
  else if (48 <=? n) && (n <=? 57) then Some (n + 4)
  else if n =? 43 then Some 62
  else if n =? 47 then Some 63
  else None.

Definition pad : ascii := "="%char.

(** Base64 with padding: three bytes give four characters. *)
Fixpoint base64_encode (bs : list byte) : list ascii :=
  match bs with
  | a :: b :: c :: rest =>
      let n := byte_val a * 65536 + byte_val b * 256 + byte_val c in
      sextet_char (n / 262144) :: sextet_char (n / 4096) ::
      sextet_char (n / 64) :: sextet_char n :: base64_encode rest
  | [a; b] =>
      let n := (byte_val a * 256 + byte_val b) * 4 in
      [sextet_char (n / 4096); sextet_char (n / 64); sextet_char n; pad]
  | [a] =>
      let n := byte_val a * 16 in
      [sextet_char (n / 64); sextet_char n; pad; pad]
  | [] => []
  end.

(** The byte of the low eight bits of [n]. *)
Definition byte_of (n : Z) : byte :=
  match Byte.of_N (Z.to_N (n mod 256)) with Some b => b | None => x00 end.

(** Four 6-bit groups give three bytes; of a last group of three or two
    the low bits are dropped. *)
Fixpoint decode_sextets (l : list Z) : list byte :=
  match l with
  | a :: b :: c :: d :: rest =>
      let n := ((a * 64 + b) * 64 + c) * 64 + d in
      byte_of (n / 65536) :: byte_of (n / 256) :: byte_of n :: decode_sextets rest
  | [a; b; c] =>
      let n := ((a * 64 + b) * 64 + c) / 4 in
      [byte_of (n / 256); byte_of n]
  | [a; b] => [byte_of ((a * 64 + b) / 16)]
  | _ => []
  end.

Definition is_ascii_whitespace (c : ascii) : bool :=
  let n := code c in
  (n =? 9) || (n =? 10) || (n =? 12) || (n =? 13) || (n =? 32).

Fixpoint dropwhile_ws (s : list ascii) : list ascii :=
  match s with
  | c :: r => if is_ascii_whitespace c then dropwhile_ws r else s
  | [] => []
  end.

Fixpoint dropwhile_sp (s : list ascii) : list ascii :=
  match s with
  | c :: r => if Ascii.eqb c " " then dropwhile_sp r else s
  | [] => []
  end.

(** Up to two padding characters at the end are removed. *)
Definition strip_padding (data : list ascii) : list ascii :=
  match rev data with
  | p1 :: p2 :: r =>
      if Ascii.eqb p1 pad then
        if Ascii.eqb p2 pad then rev r else rev (p2 :: r)
      else data
  | [p1] => if Ascii.eqb p1 pad then [] else data
  | [] => data
  end.

Fixpoint sextets_of (data : list ascii) : option (list Z) :=
  match data with
  | [] => Some []
  | c :: r =>
      match char_sextet c, sextets_of r with
      | Some n, Some l => Some (n :: l)
      | _, _ => None
      end
  end.

(** Forgiving-base64 decode. *)
Definition forgiving_base64_decode (s : list ascii) : option (list byte) :=
  let data := List.filter (fun c => negb (is_ascii_whitespace c)) s in
  let data :=
    if (Nat.modulo (length data) 4 =? 0)%nat then strip_padding data else data in
  if (Nat.modulo (length data) 4 =? 1)%nat then None
  else option_map decode_sextets (sextets_of data).

Definition hex_value (c : ascii) : option Z :=
  let n := code c in
  if (48 <=? n) && (n <=? 57) then Some (n - 48)
  else if (65 <=? n) && (n <=? 70) then Some (n - 55)
  else if (97 <=? n) && (n <=? 102) then Some (n - 87)
  else None.

(** Percent-decoding: [%] followed by two hexadecimal digits is one
    byte. *)
Fixpoint percent_decode (s : list ascii) : list ascii :=
  match s with
  | c :: r =>
      match r with
      | h1 :: h2 :: r2 =>
          match Ascii.eqb c "%", hex_value h1, hex_value h2 with
          | true, Some a, Some b =>
              ascii_of_N (Z.to_N (a * 16 + b)) :: percent_decode r2
          | _, _, _ => c :: percent_decode r
          end
      | _ => c :: percent_decode r
      end
  | [] => []
  end.

(** [reader.readAsDataURL(file)]: the media type (a file without one is
    given [application/octet-stream]), the base64 marker and the encoded
    bytes. *)
Definition data_url (type : string) (content : list byte) : string :=
  "data:" +:+ (if String.eqb type "" then "application/octet-stream" else type)
    +:+ ";base64," +:+ string_of_list_ascii (base64_encode content).

Definition lower (c : ascii) : ascii :=
  let n := code c in
  if (65 <=? n) && (n <=? 90) then ascii_of_N (Z.to_N (n + 32)) else c.

(** The text up to the first occurrence of [c], and the text after it. *)
Fixpoint split_at (c : ascii) (s : list ascii) : option (list ascii * list ascii) :=
  match s with
  | [] => None
  | x :: r =>
      if Ascii.eqb x c then Some ([], r)
      else match split_at c r with
           | Some (a, b) => Some (x :: a, b)
           | None => None
           end
  end.

(** The media type ends with [;], spaces and [base64] in any case, once
    the white space around it is gone. *)
Definition base64_marked (mime : list ascii) : bool :=
  let r := dropwhile_ws (rev mime) in
  match r with
  | c4 :: c6 :: ce :: cs :: ca :: cb :: r' =>
      String.eqb (string_of_list_ascii (map lower [cb; ca; cs; ce; c6; c4])) "base64" &&
      match dropwhile_sp r' with
      | semi :: _ => Ascii.eqb semi ";"
      | [] => false
      end
  | _ => false
  end.

(** The [data:] URL processor on the text after the scheme: the fragment
    is not part of it, the first comma ends the media type, the rest is
    percent-decoded and, when the media type is marked, base64-decoded.
    [None] is failure. *)
Definition process_data_url (rest : list ascii) : option (list byte) :=
  let input :=
    match split_at "#" rest with Some (before, _) => before | None => rest end in
  match split_at "," input with
  | None => None
  | Some (mime, encoded) =>
      let body := percent_decode encoded in
      if base64_marked mime then forgiving_base64_decode body
      else Some (map byte_of_ascii body)
  end.

(** *** Vocabulary of the round-trip lemmas *)

(** The 6-bit groups [base64_encode] turns into characters (each is used
    modulo 64), and the number of padding characters it adds. *)
Fixpoint groups (bs : list byte) : list Z :=
  match bs with
  | a :: b :: c :: rest =>
      let n := byte_val a * 65536 + byte_val b * 256 + byte_val c in
      n / 262144 :: n / 4096 :: n / 64 :: n :: groups rest
  | [a; b] =>
      let n := (byte_val a * 256 + byte_val b) * 4 in
      [n / 4096; n / 64; n]
  | [a] =>
      let n := byte_val a * 16 in
      [n / 64; n]
  | [] => []
  end.

Fixpoint padding (bs : list byte) : nat :=
  match bs with
  | _ :: _ :: _ :: rest => padding rest
  | [_; _] => 1
  | [_] => 2
  | [] => 0
  end.

(** The characters of an encoding: those of the alphabet and the padding
    character. *)
Definition base64_char (c : ascii) : bool :=
  match char_sextet c with Some _ => true | None => Ascii.eqb c pad end.

(** The check behind [char_sextet_char]. *)
Definition sextet_ok (i : nat) : bool :=
  match char_sextet (sextet_char (Z.of_nat i)) with
  | Some v => v =? Z.of_nat i
  | None => false
  end.

(** A media type in which neither a comma nor a number sign occurs. *)
Definition plain_type (t : string) : bool :=
  forallb (fun c => negb (Ascii.eqb c "," || Ascii.eqb c "#")) (list_ascii_of_string t).

End DataUrl.

(** ** The client's photo cache ([src/client/src/App.tsx]) *)

Module Client.
Import DataUrl.

(** A [File]: name, declared media type, content. *)
Record File : Type := { name : string; type : string; content : list byte }.

(** The key of the cached photo in [localStorage]. *)
Definition STORAGE_KEY : string := "goplaces_uploaded_image".

(** The browser around the component: whether [localStorage] takes a value
    (it throws when the quota is exceeded), and what a request to a URL that
    is not a [data:] URL brings back ([None]: the request fails). *)
Record browser : Type := {
  storage_accepts : string -> bool;
  network : string -> option (list byte)
}.

(** The state [handleImageUpload], [loadSavedImage] and [handleGenerate]
    read and write: three [useState] cells and the browser's
    [localStorage]. *)
Record app : Type := {
  selectedLocation : option (Num.number * Num.number);
  imageFile : option File;
  imagePreview : option string;
  error : option string;
  localStorage : gmap string string
}.

Definition setImageFile (f : option File) (st : app) : app :=
  {| selectedLocation := selectedLocation st; imageFile := f;
     imagePreview := imagePreview st; error := error st;
     localStorage := localStorage st |}.

Definition setImagePreview (p : option string) (st : app) : app :=
  {| selectedLocation := selectedLocation st; imageFile := imageFile st;
     imagePreview := p; error := error st;
     localStorage := localStorage st |}.

Definition setError (e : option string) (st : app) : app :=
  {| selectedLocation := selectedLocation st; imageFile := imageFile st;
     imagePreview := imagePreview st; error := e;
     localStorage := localStorage st |}.

Definition setStorage (ls : gmap string string) (st : app) : app :=
  {| selectedLocation := selectedLocation st; imageFile := imageFile st;
     imagePreview := imagePreview st; error := error st;
     localStorage := ls |}.

(** [setSelectedLocation({ lat, lng })], as a click on the map or a search
    result ends. *)
Definition selectLocation (lat lng : Num.number) (st : app) : app :=
  {| selectedLocation := Some (lat, lng); imageFile := imageFile st;
     imagePreview := imagePreview st; error := error st;
     localStorage := localStorage st |}.

(** [reader.readAsDataURL(file)], the value [reader.result] holds when
    [onloadend] runs. *)
Definition readAsDataURL (f : File) : string := data_url (type f) (content f).

(** [handleImageUpload]: with a first file in the input, the file becomes
    [imageFile]; when it has been read, its data URL becomes the preview
    and is written to [localStorage] (a write the storage refuses throws
    inside the callback and leaves the storage as it was). *)
Definition handleImageUpload (b : browser) (files : list File) (st : app) : app :=
  match files with
  | file :: _ =>
      let st := setImageFile (Some file) st in
      let base64String := readAsDataURL file in
      let st := setImagePreview (Some base64String) st in
      if storage_accepts b base64String
      then setStorage (<[STORAGE_KEY := base64String]> (localStorage st)) st
      else st
  | [] => st
  end.

Definition is_data_scheme (s : list ascii) : option (list ascii) :=
  match s with
  | d :: a :: t :: a' :: colon :: rest =>
      if String.eqb (string_of_list_ascii (map lower [d; a; t; a'])) "data" &&
         Ascii.eqb colon ":"
      then Some rest else None
  | _ => None
  end.

(** [await (await fetch(url)).blob()]: the bytes, or [None] when the
    promise rejects. *)
Definition fetch_blob (b : browser) (url : string) : option (list byte) :=
  match is_data_scheme (list_ascii_of_string url) with
  | Some rest => process_data_url rest
  | None => network b url
  end.

(** [new File([blob], 'uploaded-image.jpg', { type: 'image/jpeg' })]. *)
Definition rebuilt_file (blob : list byte) : File :=
  {| name := "uploaded-image.jpg"; type := "image/jpeg"; content := blob |}.

(** [loadSavedImage], run once when the component mounts. *)
Definition loadSavedImage (b : browser) (st : app) : app :=
  match localStorage st !! STORAGE_KEY with
  | Some savedImage =>
      if String.eqb savedImage "" then st
      else
        let st := setImagePreview (Some savedImage) st in
        match fetch_blob b savedImage with
        | Some blob => setImageFile (Some (rebuilt_file blob)) st
        | None =>
            let st := setStorage (delete STORAGE_KEY (localStorage st)) st in
            setImagePreview None st
        end
  | None => st
  end.

(** The state of a freshly mounted component over a given [localStorage]. *)
Definition mount (ls : gmap string string) : app :=
  {| selectedLocation := None; imageFile := None; imagePreview := None;
     error := None; localStorage := ls |}.

(** The multipart form [handleGenerate] posts. *)
Record form : Type := { form_lat : string; form_lng : string; form_image : File }.

(** What a call of [handleGenerate] does next. *)
Inductive action : Type :=
| Nothing
| Retry
| Post (data : form).

(** [handleGenerate] up to the request: without a location nothing
    happens; with a preview but no file the file is rebuilt from the preview
    and the call is tried again; with a file the form is posted. *)
Definition handleGenerate (b : browser) (st : app) : app * action :=
  match selectedLocation st with
  | None => (st, Nothing)
  | Some (lat, lng) =>
      match imageFile st, imagePreview st with
      | None, Some preview =>
          if String.eqb preview "" then (st, Nothing)
          else
            match fetch_blob b preview with
            | Some blob => (setImageFile (Some (rebuilt_file blob)) st, Retry)
            | None => (setError (Some "Error loading image. Please re-upload.") st, Nothing)
            end
      | None, None => (st, Nothing)
      | Some file, _ =>
          (setError None st,
           Post {| form_lat := Num.toString lat; form_lng := Num.toString lng;
                   form_image := file |})
      end
  end.

(** *** Sample files *)

Definition sample_png : File :=
  {| name := "me.png"; type := "image/png"; content := [x89; x50; x4e; x47; x0d] |}.

Definition sample_browser : browser :=
  {| storage_accepts := fun _ => true; network := fun _ => None |}.

End Client.

(** ** The generation relay ([src/server/src/index.ts],
       [app.post('/api/generate', ...)]) *)

Module Relay.
Import Num Dms.

(** *** JavaScript values *)

#[local] Unset Elimination Schemes.
Inductive jsval : Type :=
| JUndefined
| JNull
| JBool (b : bool)
| JNum (x : number)
| JStr (s : string)
| JArr (items : list jsval)
| JObj (fields : gmap string jsval).
#[local] Set Elimination Schemes.

(** [v?.key] for a string key: [undefined] on [null] and [undefined], the
    property of an object, and [undefined] where the value has no such
    property (the keys read below, [images], [image] and [url], are
    properties of no array, string, number or boolean). *)
Definition prop (v : jsval) (key : string) : jsval :=
  match v with
  | JObj fields => default JUndefined (fields !! key)
  | _ => JUndefined
  end.

(** [v?.[0]]: the first element of an array, the property ["0"] of an
    object, the first character of a string. *)
Definition first (v : jsval) : jsval :=
  match v with
  | JArr (x :: _) => x
  | JObj fields => default JUndefined (fields !! "0")
  | JStr (String c _) => JStr (String c "")
  | _ => JUndefined
  end.

(** Truthiness, as [!v] and [a || b] test it. *)
Definition truthy (v : jsval) : bool :=
  match v with
  | JUndefined | JNull => false
  | JBool b => b
  | JNum (S754_zero _) | JNum S754_nan => false
  | JNum _ => true
  | JStr s => negb (String.eqb s "")
  | JArr _ | JObj _ => true
  end.

(** [a || b]. *)
Definition or_else (a b : jsval) : jsval := if truthy a then a else b.

(** *** Requests, services and effects *)

(** The file multer stored for the [image] part. *)
Record multer_file : Type := {
  path : string;
  mimetype : string;
  filename : string;
  size : Z
}.

(** A multipart request as the handler sees it: [req.body.lat] and
    [req.body.lng] (absent fields are [undefined]) and [req.file]. *)
Record request : Type := {
  lat : option string;
  lng : option string;
  file : option multer_file
}.

(** A thrown [Error]. *)
Record Error : Type := { message : string }.

Inductive outcome (A : Type) : Type :=
| Returned (a : A)
| Thrown (e : Error).
Arguments Returned {A} a.
Arguments Thrown {A} e.

(** What [fal.subscribe] resolves to. *)
Record subscribe_result : Type := { data : jsval; requestId : string }.

(** The two external services: each call returns or throws. *)
Record services : Type := {
  storage_upload : list byte -> string -> outcome string;
  subscribe : string -> string -> list string -> outcome subscribe_result
}.

(** The effects of a request that can be observed from outside, in the
    order they happen (console output is left out). *)
Inductive event : Type :=
| StorageUpload (bytes : list byte) (mimetype : string)
| Subscribe (endpoint prompt : string) (image_urls : list string)
| Respond (status : Z) (body : jsval)
| Unlink (path : string).

(** The server's state: the files on its disk and the effects so far. *)
Record world : Type := { files : gmap string (list byte); trace : list event }.

(** Computations that read and write the world and may throw. *)
Definition M (A : Type) : Type := world -> outcome A * world.

#[export] Instance M_ret : MRet M := fun A a w => (Returned a, w).
#[export] Instance M_bind : MBind M := fun A B f c w =>
  match c w with
  | (Returned a, w') => f a w'
  | (Thrown e, w') => (Thrown e, w')
  end.

Definition throw {A : Type} (e : Error) : M A := fun w => (Thrown e, w).

(** [try { body } catch (error) { handler error }]. *)
Definition try_catch {A : Type} (body : M A) (handler : Error -> M A) : M A :=
  fun w =>
    match body w with
    | (Returned a, w') => (Returned a, w')
    | (Thrown e, w') => handler e w'
    end.

Definition emit (ev : event) : M unit :=
  fun w => (Returned (), {| files := files w; trace := trace w ++ [ev] |}).

Definition is_response (ev : event) : bool :=
  match ev with Respond _ _ => true | _ => false end.

(** [res.status(status).json(body)]; a second response throws. *)
Definition respond (status : Z) (body : jsval) : M unit :=
  fun w =>
    if existsb is_response (trace w)
    then (Thrown {| message := "Cannot set headers after they are sent to the client" |}, w)
    else emit (Respond status body) w.

(** [fs.readFileSync(path)]. *)
Definition readFileSync (p : string) : M (list byte) :=
  fun w =>
    match files w !! p with
    | Some bytes => (Returned bytes, w)
    | None =>
        (Thrown {| message := "ENOENT: no such file or directory, open '" +:+ p +:+ "'" |}, w)
    end.

(** [fs.unlinkSync(path)]. *)
Definition unlinkSync (p : string) : M unit :=
  fun w =>
    match files w !! p with
    | Some _ =>
        (Returned (), {| files := delete p (files w); trace := trace w ++ [Unlink p] |})
    | None =>
        (Thrown {| message := "ENOENT: no such file or directory, unlink '" +:+ p +:+ "'" |}, w)
    end.

(** [await fal.storage.upload(imageBuffer, file.mimetype)]. *)
Definition upload (svc : services) (bytes : list byte) (mime : string) : M string :=
  fun w =>
    let w' := {| files := files w; trace := trace w ++ [StorageUpload bytes mime] |} in
    (storage_upload svc bytes mime, w').

(** [await fal.subscribe(endpoint, { input: { prompt, image_urls } ... })]. *)
Definition call_subscribe (svc : services) (endpoint prompt : string)
    (image_urls : list string) : M subscribe_result :=
  fun w =>
    let w' := {| files := files w;
                 trace := trace w ++ [Subscribe endpoint prompt image_urls] |} in
    (subscribe svc endpoint prompt image_urls, w').

(** *** The handler *)

Definition error_body (msg : string) : jsval :=
  JObj {[ "error" := JStr msg ]}.

Definition success_body (imageUrl : jsval) (rid : string) : jsval :=
  JObj (<["success" := JBool true]>
        (<["imageUrl" := imageUrl]>
        (<["message" := JStr "Image generated successfully with fal.ai"]>
        (<["requestId" := JStr rid]> ∅)))).

Definition prompt_of (locationDMS : string) : string :=
  "Create an image of " +:+ locationDMS +:+
  " with this person there. Use ONLY the person from the uploaded image - ignore all background, objects, and scenery from the original photo. Use good lighting and natural pose that fits the location. The person should look natural and well-integrated into the environment.".

Definition MODEL : string := "fal-ai/nano-banana-pro/edit".

(** [result.data?.images?.[0]?.url || result.data?.image?.url]. *)
Definition generatedImageUrl (d : jsval) : jsval :=
  or_else (prop (first (prop d "images")) "url") (prop (prop d "image") "url").

(** The [try] block. *)
Definition generate_try (svc : services) (req : request) : M unit :=
  match file req with
  | None => respond 400 (error_body "No image file provided")
  | Some f =>
      imageBuffer ← readFileSync (path f);
      uploadedImage ← upload svc imageBuffer (mimetype f);
      let locationDMS := convertToDMS (parseFloat (lat req)) (parseFloat (lng req)) in
      let prompt := prompt_of locationDMS in
      result ← call_subscribe svc MODEL prompt [uploadedImage];
      let url := generatedImageUrl (data result) in
      if negb (truthy url) then throw {| message := "No image generated" |}
      else
        _ ← respond 200 (success_body url (requestId result));
        unlinkSync (path f)
  end.

(** The [catch] block. *)
Definition generate_catch (error : Error) : M unit :=
  respond 500 (error_body ("Failed to generate image. " +:+ message error)).

(** The handler of [POST /api/generate]. *)
Definition generate (svc : services) (req : request) : M unit :=
  try_catch (generate_try svc req) generate_catch.

(** The prompt the handler builds for a request. *)
Definition request_prompt (req : request) : string :=
  prompt_of (convertToDMS (parseFloat (lat req)) (parseFloat (lng req))).

(** A request arrives at a server that has answered nothing yet. *)
Definition start (disk : gmap string (list byte)) : world :=
  {| files := disk; trace := [] |}.

Definition run (svc : services) (req : request) (disk : gmap string (list byte)) : world :=
  snd (generate svc req (start disk)).

(** The places of the events of interest in a trace. *)
Definition is_upload (ev : event) : bool :=
  match ev with StorageUpload _ _ => true | _ => false end.
Definition is_subscribe (ev : event) : bool :=
  match ev with Subscribe _ _ _ => true | _ => false end.

(** The image payload of a request is empty: no file came with it, or the
    file that did holds no byte. *)
Definition empty_payload (req : request) (disk : gmap string (list byte)) : Prop :=
  match file req with
  | None => True
  | Some f => disk !! path f = Some []
  end.

(** *** Sample requests and services *)

Definition sample_file : multer_file :=
  {| path := "uploads/3f2a"; mimetype := "image/png"; filename := "3f2a"; size := 3 |}.

Definition sample_disk : gmap string (list byte) :=
  {[ "uploads/3f2a" := [x89; x50; x4e] ]}.

Definition sample_request : request :=
  {| lat := Some "25.1972"; lng := Some "55.2744"; file := Some sample_file |}.

(** A request whose image part is a file of zero bytes. *)
Definition zero_byte_file : multer_file :=
  {| path := "uploads/0000"; mimetype := "image/png"; filename := "0000"; size := 0 |}.

Definition zero_byte_disk : gmap string (list byte) := {[ "uploads/0000" := [] ]}.

Definition zero_byte_request : request :=
  {| lat := Some "25.1972"; lng := Some "55.2744"; file := Some zero_byte_file |}.

(** A request without an image part. *)
Definition no_file_request : request :=
  {| lat := Some "25.1972"; lng := Some "55.2744"; file := None |}.

(** A request with an image but without coordinates. *)
Definition no_coordinates_request : request :=
  {| lat := None; lng := Some "somewhere"; file := Some sample_file |}.

Definition images_data (url : string) : jsval :=
  JObj {[ "images" := JArr [JObj {[ "url" := JStr url ]}] ]}.

(** Services that accept the upload and return the given data. *)
Definition services_returning (d : jsval) : services :=
  {| storage_upload := fun _ _ => Returned "https://storage.example/3f2a";
     subscribe := fun _ _ _ => Returned {| data := d; requestId := "req-1" |} |}.

(** Services whose storage upload throws. *)
Definition services_upload_failing (msg : string) : services :=
  {| storage_upload := fun _ _ => Thrown {| message := msg |};
     subscribe := fun _ _ _ =>
       Returned {| data := images_data "https://cdn.example/out.png";
                   requestId := "req-1" |} |}.

End Relay.

(** ** The route as a whole: any request, on a disk that others change

    The handler above is the handler on the requests the client sends, the
    two fields being strings or absent, and on a disk nothing else touches
    while the request is served.  Here it is on whatever can reach it:
    a body nothing parsed, fields that are not strings, a disk that changes
    while the handler waits for the two services, and requests that a
    middleware ends before the handler runs ([RouteFacts.handle_quiet]
    shows that the two agree where both apply). *)

Module Route.
Import Num Dms Relay.

(** The value of [req.body.lat] or [req.body.lng] as multer builds it from
    the text parts of the form: a string; an array, when the field comes
    several times or is named [lat[]] (with a hole where an index was
    skipped); an object without prototype, when the parts are named
    [lat[a]] (what it holds does not matter to the handler). *)
#[local] Unset Elimination Schemes.
Inductive field : Type :=
| Text (s : string)
| Items (items : list (option field))
| Nested.
#[local] Set Elimination Schemes.

(** [req.body]: [undefined] when nothing parsed the request, or the object
    with the two fields ([None]: the field is [undefined]). *)
Inductive body : Type :=
| Unparsed
| Fields (lat lng : option field).

(** The request as the handler gets it: [req.body] and [req.file]. *)
Record incoming : Type := {
  req_body : body;
  req_file : option multer_file
}.

(** Around the handler: the two services, what other processes do to the
    disk while the handler waits for each of them, and the two [TypeError]s
    of the engine, whose messages the language does not fix: that of
    destructuring [undefined] (line 50) and that of converting an object
    without prototype to a string (line 76). *)
Record environment : Type := {
  fal : services;
  while_uploading : gmap string (list byte) -> gmap string (list byte);
  while_generating : gmap string (list byte) -> gmap string (list byte);
  destructuring_error : Error;
  conversion_error : Error
}.

(** [ToString(v)], which [parseFloat] applies to its argument first: an
    array is joined with commas, a hole giving the empty string; an object
    without prototype cannot be converted. *)
Fixpoint to_string (err : Error) (v : field) : outcome string :=
  match v with
  | Text s => Returned s
  | Items items =>
      (fix join (first : bool) (l : list (option field)) (acc : string) : outcome string :=
         match l with
         | [] => Returned acc
         | x :: rest =>
             let sep : string := if first then "" else "," in
             match x with
             | None => join false rest (acc +:+ sep)
             | Some f =>
                 match to_string err f with
                 | Returned s => join false rest (acc +:+ sep +:+ s)
                 | Thrown e => Thrown e
                 end
             end
         end) true items ""
  | Nested => Thrown err
  end.

(** [parseFloat(v)] for a field of the body. *)
Definition parse (env : environment) (v : option field) : outcome number :=
  match v with
  | None => Returned (parseFloat None)
  | Some f =>
      match to_string (conversion_error env) f with
      | Returned s => Returned (parseFloat (Some s))
      | Thrown e => Thrown e
      end
  end.

(** A computation that does not touch the world. *)
Definition lift {A : Type} (o : outcome A) : M A := fun w => (o, w).

(** [await fal.storage.upload(...)] and [await fal.subscribe(...)]: while
    the handler waits, the disk changes as the environment says. *)
Definition upload_amid (env : environment) (bytes : list byte) (mime : string) : M string :=
  fun w =>
    (storage_upload (fal env) bytes mime,
     {| files := while_uploading env (files w);
        trace := trace w ++ [StorageUpload bytes mime] |}).

Definition subscribe_amid (env : environment) (endpoint prompt : string)
    (image_urls : list string) : M subscribe_result :=
  fun w =>
    (subscribe (fal env) endpoint prompt image_urls,
     {| files := while_generating env (files w);
        trace := trace w ++ [Subscribe endpoint prompt image_urls] |}).

(** The [try] block, from line 50 on. *)
Definition handle_try (env : environment) (req : incoming) : M unit :=
  match req_body req with
  | Unparsed => throw (destructuring_error env)
  | Fields lat lng =>
      match req_file req with
      | None => respond 400 (error_body "No image file provided")
      | Some f =>
          imageBuffer ← readFileSync (path f);
          uploadedImage ← upload_amid env imageBuffer (mimetype f);
          latitude ← lift (parse env lat);
          longitude ← lift (parse env lng);
          let locationDMS := convertToDMS latitude longitude in
          let prompt := prompt_of locationDMS in
          result ← subscribe_amid env MODEL prompt [uploadedImage];
          let url := generatedImageUrl (data result) in
          if negb (truthy url) then throw {| message := "No image generated" |}
          else
            _ ← respond 200 (success_body url (requestId result));
            unlinkSync (path f)
      end
  end.

(** The handler: the [try] block and the [catch] block of the handler
    above. *)
Definition handle (env : environment) (req : incoming) : M unit :=
  try_catch (handle_try env req) generate_catch.

(** How the handler ends on a request, and the world it leaves. *)
Definition serve (env : environment) (req : incoming)
    (disk : gmap string (list byte)) : outcome unit * world :=
  handle env req (start disk).

(** What comes to the route: a middleware ([cors()], [express.json()],
    [upload.single('image')]) passes an error on, so that Express answers
    with the status and the page of its error handler and the handler does
    not run; or the request reaches the handler. *)
Inductive arrival : Type :=
| Stopped (status : Z) (page : jsval)
| Reaches (req : incoming).

Definition route (env : environment) (a : arrival) : M unit :=
  match a with
  | Stopped status page => respond status page
  | Reaches req => handle env req
  end.

Definition answer (env : environment) (a : arrival)
    (disk : gmap string (list byte)) : world :=
  snd (route env a (start disk)).

(** *** Samples *)

(** The handler above in these terms: fields that are strings, a disk
    nothing else touches. *)
Definition as_incoming (req : request) : incoming :=
  {| req_body := Fields (option_map Text (lat req)) (option_map Text (lng req));
     req_file := file req |}.

(** Nothing else touches the disk; the messages are those of V8. *)
Definition quiet (svc : services) : environment :=
  {| fal := svc;
     while_uploading := fun disk => disk;
     while_generating := fun disk => disk;
     destructuring_error :=
       {| message := "Cannot destructure property 'lat' of 'req.body' as it is undefined." |};
     conversion_error := {| message := "Cannot convert object to primitive value" |} |}.

(** The temporary files are swept away while the generation runs. *)
Definition sweeping (svc : services) : environment :=
  {| fal := svc;
     while_uploading := fun disk => disk;
     while_generating := fun _ => ∅;
     destructuring_error :=
       {| message := "Cannot destructure property 'lat' of 'req.body' as it is undefined." |};
     conversion_error := {| message := "Cannot convert object to primitive value" |} |}.

(** A form whose parts are named [lat[deg]] and [lng]: [req.body.lat] is an
    object. *)
Definition nested_lat_request : incoming :=
  {| req_body := Fields (Some Nested) (Some (Text "55.2744"));
     req_file := Some sample_file |}.

(** A request that nothing parsed. *)
Definition unparsed_request : incoming :=
  {| req_body := Unparsed; req_file := None |}.

End Route.

(** ** The rest of the component ([src/client/src/App.tsx]) and the wire
       between the component and the relay *)

Module Page.
Import Num DataUrl Client Relay.

Definition setSelectedLocation (loc : option (number * number)) (st : app) : app :=
  {| selectedLocation := loc; imageFile := imageFile st;
     imagePreview := imagePreview st; error := error st;
     localStorage := localStorage st |}.

(** [handleDeleteImage]: the file, the preview and the cached photo go
    (the value of the file input, emptied as well, is no part of the state
    modelled). *)
Definition handleDeleteImage (st : app) : app :=
  let st := setImageFile None st in
  let st := setImagePreview None st in
  setStorage (delete STORAGE_KEY (localStorage st)) st.

(** The component's state with the two cells the reply of the relay
    writes. *)
Record page : Type := {
  core : app;
  generatedImage : option jsval;
  loading : bool
}.

Definition setCore (st : app) (pg : page) : page :=
  {| core := st; generatedImage := generatedImage pg; loading := loading pg |}.

Definition setGeneratedImage (g : option jsval) (pg : page) : page :=
  {| core := core pg; generatedImage := g; loading := loading pg |}.

Definition setLoading (l : bool) (pg : page) : page :=
  {| core := core pg; generatedImage := generatedImage pg; loading := l |}.

(** [resetSelection], the close button of the popup. *)
Definition resetSelection (pg : page) : page :=
  let pg := setCore (setSelectedLocation None (core pg)) pg in
  let pg := setGeneratedImage None pg in
  setCore (setImageFile None (core pg)) pg.

(** The end of [onMapClick] and of the [place_changed] listener, once the
    timer that sets the new location has run (the view of the map is not
    modelled). *)
Definition pickLocation (lat lng : number) (pg : page) : page :=
  let pg := setCore (setSelectedLocation None (core pg)) pg in
  let pg := setGeneratedImage None pg in
  let pg := setCore (setError None (core pg)) pg in
  setCore (setSelectedLocation (Some (lat, lng)) (core pg)) pg.

(** [handleGenerate] as a closure: the function of one render reads the
    [selectedLocation], [imageFile] and [imagePreview] of that render,
    while its setters write the live state. *)
Definition handleGenerate_of (b : browser) (render live : app) : app * action :=
  match selectedLocation render with
  | None => (live, Nothing)
  | Some (lat, lng) =>
      match imageFile render, imagePreview render with
      | None, Some preview =>
          if String.eqb preview "" then (live, Nothing)
          else
            match fetch_blob b preview with
            | Some blob => (setImageFile (Some (rebuilt_file blob)) live, Retry)
            | None => (setError (Some "Error loading image. Please re-upload.") live, Nothing)
            end
      | None, None => (live, Nothing)
      | Some file, _ =>
          (setError None live,
           Post {| form_lat := toString lat; form_lng := toString lng;
                   form_image := file |})
      end
  end.

(** [setTimeout(() => handleGenerate(), 100)] calls the function of the
    same render again: the state after [n] further runs of the timer, each
    started by the run before it, and what the last run does next. *)
Fixpoint timer_retries (b : browser) (render : app) (n : nat) (live : app) : app * action :=
  match n with
  | O => handleGenerate_of b render live
  | S k =>
      match handleGenerate_of b render live with
      | (live', Retry) => timer_retries b render k live'
      | done => done
      end
  end.

(** What comes back from the relay: a response, or none. *)
Inductive reply : Type :=
| Answer (status : Z) (data : jsval)
| NoAnswer.

(** [await axios.post(...)]: the promise resolves with the response for a
    status from 200 to 299 and rejects otherwise. *)
Definition axios_post (r : reply) : option jsval :=
  match r with
  | Answer status data =>
      if (200 <=? status) && (status <? 300) then Some data else None
  | NoAnswer => None
  end.

(** [response.data.imageUrl]: reading a property of [null] or [undefined]
    throws. *)
Definition imageUrl_of (data : jsval) : option jsval :=
  match data with
  | JNull | JUndefined => None
  | _ => Some (prop data "imageUrl")
  end.

Definition failed (msg : string) (pg : page) : page :=
  setCore (setError (Some msg) (core pg)) pg.

(** [handleGenerate] from the reply on: the [try], [catch] and [finally]
    blocks around the request. *)
Definition receive (r : reply) (pg : page) : page :=
  let pg :=
    match axios_post r with
    | Some data =>
        match imageUrl_of data with
        | Some url =>
            if truthy url then setGeneratedImage (Some url) pg
            else failed "Failed to generate image. No URL returned." pg
        | None => failed "Failed to generate image. Please try again." pg
        end
    | None => failed "Failed to generate image. Please try again." pg
    end in
  setLoading false pg.

(** [handleGenerate] up to the request, on the whole state: when the form
    is posted the component is loading. *)
Definition press (b : browser) (pg : page) : page * action :=
  match handleGenerate b (core pg) with
  | (st, Post data) => (setLoading true (setCore st pg), Post data)
  | (st, a) => (setCore st pg, a)
  end.

(** *** A browser with a small storage *)

(** A browser whose [localStorage] takes values of up to [limit]
    characters. *)
Definition small_storage_browser (limit : nat) : browser :=
  {| storage_accepts := fun v => Nat.leb (String.length v) limit;
     network := fun _ => None |}.

Definition sample_jpeg : File :=
  {| name := "big.jpg"; type := "image/jpeg";
     content := [xff; xd8; xff; xe0; x00; x10; x4a; x46; x49; x46; x00; x01; x01; x00] |}.

End Page.

(** ** Between the component and the relay *)

Module Wire.
Import Num DataUrl Client Relay Page.

(** [JSON.parse(JSON.stringify(v))] for a value inside a body: a number
    that is not finite becomes [null] and [-0] becomes [0]; [undefined]
    becomes [null] in an array and is left out of an object ([None]). *)
Definition json_number (x : number) : jsval :=
  match x with
  | S754_finite _ _ _ => JNum x
  | S754_zero _ => JNum zero
  | _ => JNull
  end.

Fixpoint json (v : jsval) : option jsval :=
  match v with
  | JUndefined => None
  | JNull => Some JNull
  | JBool b => Some (JBool b)
  | JNum x => Some (json_number x)
  | JStr s => Some (JStr s)
  | JArr items => Some (JArr (map (fun x => default JNull (json x)) items))
  | JObj fields => Some (JObj (omap json fields))
  end.

(** The reply the component gets for what the relay did: the first
    response of the trace, its body through JSON. *)
Definition reply_of (t : list event) : reply :=
  match List.filter is_response t with
  | Respond status body :: _ => Answer status (default JUndefined (json body))
  | _ => NoAnswer
  end.

(** The state of the component after a request that the relay treated as
    [req], once the reply is in. *)
Definition answer_shown (svc : services) (req : request)
    (disk : gmap string (list byte)) (pg : page) : page :=
  receive (reply_of (trace (run svc req disk))) pg.






(** *** More sample services

    A generation service that throws. *)
Definition services_generation_failing (msg : string) : services :=
  {| storage_upload := fun _ _ => Returned "https://storage.example/3f2a";
     subscribe := fun _ _ _ => Thrown {| message := msg |} |}.

(** A result whose first image has no URL while the second has one. *)
Definition second_image_data (url : string) : jsval :=
  JObj {[ "images" := JArr [JObj ∅; JObj {[ "url" := JStr url ]}] ]}.

End Wire.

(** ** The component in use: gestures, timers and replies *)

Module Session.
Import Num DataUrl Client Relay Page.

(** Truthiness of the preview, a string or [null]. *)
Definition shown (p : option string) : bool :=
  match p with
  | Some s => negb (String.eqb s "")
  | None => false
  end.

(** [selectedLocation && ...]: the popup is rendered. *)
Definition popup_open (pg : page) : bool :=
  match selectedLocation (core pg) with Some _ => true | None => false end.

(** [generatedImage] is truthy: the popup shows the result, not the upload
    box and the button. *)
Definition has_result (pg : page) : bool :=
  match generatedImage pg with Some v => truthy v | None => false end.

Definition has_file (pg : page) : bool :=
  match imageFile (core pg) with Some _ => true | None => false end.

(** [disabled={(!imageFile && !imagePreview) || loading}]. *)
Definition generate_disabled (pg : page) : bool :=
  (negb (has_file pg) && negb (shown (imagePreview (core pg)))) || loading pg.

(** What the user can do. *)
Inductive gesture : Type :=
| ClickMap (lat lng : number)
| PickPlace (lat lng : number)
| ClosePopup
| ChooseFiles (files : list File)
| ClickDelete
| ClickGenerate
| ClickTryAgain.

(** The component, the renders whose [handleGenerate] a timer is about to
    call, the number of requests without a reply yet, and the forms posted
    so far. *)
Record session : Type := {
  now : page;
  timers : list app;
  in_flight : nat;
  posted : list form
}.

Definition with_now (pg : page) (s : session) : session :=
  {| now := pg; timers := timers s; in_flight := in_flight s; posted := posted s |}.

(** A gesture reaches its handler when the control is rendered and not
    disabled: the upload box, the delete button and the button
    [Go to this place] are in the popup while there is no result; the file
    dialog does not open and the delete button is not rendered while
    loading.  [resetSelection] is also what the popup calls when the map
    closes it, so it is taken to run at any time. *)
Definition on_gesture (b : browser) (g : gesture) (s : session) : session :=
  let pg := now s in
  match g with
  | ClickMap lat lng | PickPlace lat lng => with_now (pickLocation lat lng pg) s
  | ClosePopup => with_now (resetSelection pg) s
  | ChooseFiles files =>
      if popup_open pg && negb (has_result pg) && negb (loading pg)
      then with_now (setCore (handleImageUpload b files (core pg)) pg) s
      else s
  | ClickDelete =>
      if popup_open pg && negb (has_result pg) && shown (imagePreview (core pg))
         && negb (loading pg)
      then with_now (setCore (handleDeleteImage (core pg)) pg) s
      else s
  | ClickGenerate =>
      if popup_open pg && negb (has_result pg) && negb (generate_disabled pg)
      then
        match press b pg with
        | (pg', Post data) =>
            {| now := pg'; timers := timers s; in_flight := S (in_flight s);
               posted := posted s ++ [data] |}
        | (pg', Retry) =>
            {| now := pg'; timers := timers s ++ [core pg]; in_flight := in_flight s;
               posted := posted s |}
        | (pg', Nothing) => with_now pg' s
        end
      else s
  | ClickTryAgain =>
      if popup_open pg && has_result pg then with_now (setGeneratedImage None pg) s else s
  end.

(** The [i]-th timer runs: [handleGenerate] of its render, on the live
    state; a retry sets the timer again. *)
Definition on_tick (b : browser) (i : nat) (s : session) : session :=
  match timers s !! i with
  | Some render =>
      match handleGenerate_of b render (core (now s)) with
      | (live, Retry) => with_now (setCore live (now s)) s
      | (live, Post data) =>
          {| now := setLoading true (setCore live (now s));
             timers := delete i (timers s); in_flight := S (in_flight s);
             posted := posted s ++ [data] |}
      | (live, Nothing) =>
          {| now := setCore live (now s); timers := delete i (timers s);
             in_flight := in_flight s; posted := posted s |}
      end
  | None => s
  end.

(** A reply arrives for a request in flight. *)
Definition on_reply (r : reply) (s : session) : option session :=
  match in_flight s with
  | O => None
  | S n =>
      Some {| now := receive r (now s); timers := timers s; in_flight := n;
              posted := posted s |}
  end.

Inductive input : Type :=
| Gesture (g : gesture)
| Tick (i : nat)
| Arrive (r : reply).

Definition step (b : browser) (i : input) (s : session) : option session :=
  match i with
  | Gesture g => Some (on_gesture b g s)
  | Tick n => Some (on_tick b n s)
  | Arrive r => on_reply r s
  end.

(** A sequence of inputs; [None] when a reply arrives that no request
    waits for. *)
Fixpoint play (b : browser) (inputs : list input) (s : session) : option session :=
  match inputs with
  | [] => Some s
  | i :: rest =>
      match step b i s with
      | Some s' => play b rest s'
      | None => None
      end
  end.

(** The component once mounted over a storage. *)
Definition opened (b : browser) (ls : gmap string string) : session :=
  {| now := {| core := loadSavedImage b (mount ls); generatedImage := None;
               loading := false |};
     timers := []; in_flight := 0; posted := [] |}.

(** The replies among the inputs. *)
Definition arrivals (inputs : list input) : nat :=
  length (List.filter (fun i => match i with Arrive _ => true | _ => false end) inputs).

(** Every request in flight shows as [loading], and no timer belongs to a
    render that had a file. *)
Definition settled (s : session) : Prop :=
  in_flight s = (if loading (now s) then 1%nat else 0%nat) /\
  Forall (fun render => imageFile render = None) (timers s).


(** A session after the popup was closed and a place picked again: a
    preview, no file. *)
Definition reopened_session : session :=
  {| now := {| core := selectLocation zero zero
                         (setImagePreview (Some (readAsDataURL sample_png)) (mount ∅));
               generatedImage := None; loading := false |};
     timers := []; in_flight := 0; posted := [] |}.

End Session.

(** ** How far the printed coordinate is from the number *)

Module Accuracy.
Import Num Dms.

(** The value of a number in units of [2 ^ -1074], the distance between
    the smallest binary64 numbers: an integer for every binary64 number. *)
Definition scaled (x : number) : Z :=
  match x with
  | S754_finite s m e => cond_Zopp s (Z.pos m * 2 ^ (e + 1074))
  | _ => 0
  end.

(** The seconds of arc of [d] degrees, [m] minutes and [s] seconds. *)
Definition arcseconds (d m s : Z) : Z := 3600 * d + 60 * m + s.

(** [- x]. *)
Definition neg (x : number) : number := SFopp x.

(** Not a zero and not [NaN]. *)
Definition nonzero (x : number) : bool := lt x zero || lt zero x.

(** The check behind the theorem on whole degrees: the axis of the integer
    [d] prints as [|d|°0′0″], and [d >= 0] is decided as on integers. *)
Definition whole_ok (d : Z) : bool :=
  String.eqb (axis_string (dms_of (ofZ d)) "") (decimal (Z.abs d) +:+ "°0′0″") &&
  Bool.eqb (ge (ofZ d) zero) (0 <=? d).

End Accuracy.

(** * Proofs *)

(** ** Strings *)

Module StringFacts.


Lemma append_cons (x : ascii) (a b : string) :
  String x a +:+ b = String x (a +:+ b).
Proof. reflexivity. Qed.

Lemma append_assoc (a b c : string) : (a +:+ b) +:+ c = a +:+ (b +:+ c).
Proof.
  induction a as [|x a IH]; [reflexivity|].
  rewrite !append_cons. f_equal. exact IH.
Qed.

Lemma list_ascii_of_append (a b : string) :
  list_ascii_of_string (a +:+ b) = list_ascii_of_string a ++ list_ascii_of_string b.
Proof.
  induction a as [|x a IH]; [reflexivity|].
  rewrite append_cons. cbn [list_ascii_of_string app]. f_equal. exact IH.
Qed.

End StringFacts.

(** ** The models of the built-ins on known values *)

Module BuiltinFacts.
Import Num DataUrl.

Example toString_known :
  map toString
    [ ofDecimal 1 (-1); ofDecimal 251972 (-4); ofDecimal 1 21; ofDecimal 1 20;
      ofZ (2 ^ 69); ofDecimal 5 (-324); ofDecimal 123456 (-12);
      SFopp (ofDecimal 1234567 (-3)); SFmax_float prec emax; ofZ 180 ]
  = [ "0.1"; "25.1972"; "1e+21"; "100000000000000000000";
      "590295810358705700000"; "5e-324"; "1.23456e-7"; "-1234.567";
      "1.7976931348623157e+308"; "180" ].
Proof. vm_compute. reflexivity. Qed.

Example parseFloat_known :
  map (fun s => toString (parseFloat (Some s)))
    [ "25.1972"; " -33.8688"; "1e3"; "1e"; ".5"; "5."; "."; "abc"; ""; "12abc";
      "-Infinity"; "1.5e-3x"; "+7"; "- 5"; "0x10"; "1.8e308" ]
  = [ "25.1972"; "-33.8688"; "1000"; "1"; "0.5"; "5"; "NaN"; "NaN"; "NaN"; "12";
      "-Infinity"; "0.0015"; "7"; "NaN"; "0"; "Infinity" ].
Proof. vm_compute. reflexivity. Qed.

Example Math_round_known :
  map Math_round
    [ ofDecimal 25 (-1); SFopp (ofDecimal 25 (-1)); SFopp (ofDecimal 5 (-1));
      ofDecimal 49999999999999994 (-17); ofDecimal 5964 (-2) ]
  = [ ofZ 3; ofZ (-2); S754_zero true; S754_zero false; ofZ 60 ].
Proof. vm_compute. reflexivity. Qed.

Example Math_floor_known :
  map Math_floor
    [ ofDecimal 251972 (-4); SFopp (ofDecimal 5 (-1)); ofDecimal 5 (-1);
      S754_nan; S754_infinity false ]
  = [ ofZ 25; ofZ (-1); S754_zero false; S754_nan; S754_infinity false ].
Proof. vm_compute. reflexivity. Qed.

Example base64_known :
  map (fun s => string_of_list_ascii
                  (base64_encode (map byte_of_ascii (list_ascii_of_string s))))
    [ ""; "f"; "fo"; "foo"; "foob"; "fooba"; "foobar" ]
  = [ ""; "Zg=="; "Zm8="; "Zm9v"; "Zm9vYg=="; "Zm9vYmE="; "Zm9vYmFy" ].
Proof. vm_compute. reflexivity. Qed.

Example forgiving_decode_known :
  map (fun s => forgiving_base64_decode (list_ascii_of_string s))
    [ "Zm9v"; "Zm 9v"; "Zg=="; "Zg"; "Zg="; "Z"; "Zm9*" ]
  = [ Some ["f"; "o"; "o"]%byte; Some ["f"; "o"; "o"]%byte; Some ["f"]%byte;
      Some ["f"]%byte; None; None; None ].
Proof. vm_compute. reflexivity. Qed.

End BuiltinFacts.

(** ** Rounding in binary64 *)

Module NumFacts.
Import Num Dms.

(** [digits2_pos m] is the number of binary digits of [m]. *)
Lemma digits2_pos_bounds (m : positive) :
  2 ^ (Z.pos (digits2_pos m) - 1) <= Z.pos m < 2 ^ Z.pos (digits2_pos m).
Proof.
  induction m as [m IH | m IH |]; cbn [digits2_pos].
  - rewrite Pos2Z.inj_succ, Z.pow_succ_r by lia.
    replace (Z.succ (Z.pos (digits2_pos m)) - 1)
      with (Z.succ (Z.pos (digits2_pos m) - 1)) by lia.
    rewrite Z.pow_succ_r by lia. lia.
  - rewrite Pos2Z.inj_succ, Z.pow_succ_r by lia.
    replace (Z.succ (Z.pos (digits2_pos m)) - 1)
      with (Z.succ (Z.pos (digits2_pos m) - 1)) by lia.
    rewrite Z.pow_succ_r by lia. lia.
  - cbn. lia.
Qed.

Lemma digits2_pos_unique (m : positive) (d : Z) :
  2 ^ (d - 1) <= Z.pos m < 2 ^ d -> Z.pos (digits2_pos m) = d.
Proof.
  intros [Hlo Hhi]. pose proof (digits2_pos_bounds m) as [Blo Bhi].
  set (c := Z.pos (digits2_pos m)) in *.
  assert (0 < c) by (subst c; lia).
  assert (0 < d).
  { destruct (Z_lt_le_dec 0 d); [easy|].
    assert (2 ^ d <= 2 ^ 0)
      by (destruct (Z_lt_le_dec d 0);
          [rewrite Z.pow_neg_r by lia; simpl; lia | apply Z.pow_le_mono_r; lia]).
    simpl in *. lia. }
  destruct (Z_lt_le_dec c d) as [Hlt|Hge].
  - assert (2 ^ c <= 2 ^ (d - 1)) by (apply Z.pow_le_mono_r; lia). lia.
  - destruct (Z_lt_le_dec d c) as [Hlt'|Hge']; [|lia].
    assert (2 ^ d <= 2 ^ (c - 1)) by (apply Z.pow_le_mono_r; lia). lia.
Qed.

(** [iter_pos] is plain iteration. *)
Lemma iter_pos_nat {A} (f : A -> A) (p : positive) (x : A) :
  SpecFloat.iter_pos f p x = Nat.iter (Pos.to_nat p) f x.
Proof.
  revert x. induction p as [p IH | p IH |]; intros x; cbn [SpecFloat.iter_pos].
  - rewrite !IH, Pos2Nat.inj_xI. 
    replace (S (2 * Pos.to_nat p))%nat with (Pos.to_nat p + (Pos.to_nat p + 1))%nat by lia.
    rewrite !Nat.iter_add. reflexivity.
  - rewrite !IH, Pos2Nat.inj_xO.
    replace (2 * Pos.to_nat p)%nat with (Pos.to_nat p + Pos.to_nat p)%nat by lia.
    rewrite Nat.iter_add. reflexivity.
  - reflexivity.
Qed.

Lemma shr_1_fields (r : shr_record) :
  0 <= shr_m r ->
  shr_m (shr_1 r) = shr_m r / 2 /\
  shr_r (shr_1 r) = Z.odd (shr_m r) /\
  shr_s (shr_1 r) = shr_r r || shr_s r.
Proof.
  destruct r as [m r s]; cbn [shr_m shr_r shr_s]. intros Hm.
  destruct m as [|p|p]; [| |lia].
  - cbn. auto.
  - destruct p as [p|p|]; cbn [shr_1 shr_m shr_r shr_s].
    + split; [|auto]. rewrite Pos2Z.inj_xI. 
      apply Z.div_unique with (r := 1); lia.
    + split; [|auto]. rewrite Pos2Z.inj_xO.
      apply Z.div_unique with (r := 0); lia.
    + split; [|auto]. reflexivity.
Qed.

Lemma shr_1_inv (M n : Z) (r : shr_record) :
  0 <= M -> 0 <= n -> shr_inv M n r -> shr_inv M (n + 1) (shr_1 r).
Proof.
  intros HM Hn [Hq (u & Hu & Hrem & Hs)].
  assert (Hp : 0 < 2 ^ n) by (apply Z.pow_pos_nonneg; lia).
  assert (Hq0 : 0 <= shr_m r) by (rewrite Hq; apply Z.div_pos; lia).
  destruct (shr_1_fields r Hq0) as (Fm & Fr & Fs).
  pose proof (Z.mod_pos_bound M (2 ^ n) Hp) as Hmod.
  split.
  - rewrite Fm, Hq, Z.pow_add_r, Z.pow_1_r by lia. apply Z.div_div; lia.
  - exists (2 * (M mod 2 ^ n)).
    rewrite Z.pow_add_r, Z.pow_1_r by lia.
    rewrite Z.rem_mul_r by lia.
    rewrite Fr, Fs, Hq, Zmod_odd.
    repeat split; try lia.
    + destruct (Z.odd (M / 2 ^ n)); lia.
    + rewrite Hs. destruct (shr_r r); destruct (Z.eqb_spec u 0);
        destruct (Z.eqb_spec (2 * (M mod 2 ^ n)) 0); cbn; try reflexivity; lia.
Qed.

Lemma shr_iter_inv (M : Z) (k : nat) :
  0 <= M ->
  shr_inv M (Z.of_nat k) (Nat.iter k shr_1 (Build_shr_record M false false)).
Proof.
  intros HM. induction k as [|k IH].
  - cbn [Nat.iter Z.of_nat]. split; cbn [shr_m shr_r shr_s].
    + rewrite Z.pow_0_r, Z.div_1_r. reflexivity.
    + exists 0. rewrite Z.pow_0_r, Z.mod_1_r. cbn. lia.
  - rewrite Nat2Z.inj_succ. cbn [Nat.iter]. unfold Z.succ.
    apply shr_1_inv; [lia | lia | exact IH].
Qed.

Lemma shr_spec (M e n : Z) :
  0 <= M -> 0 < n ->
  exists r, shr (Build_shr_record M false false) e n = (r, e + n) /\ shr_inv M n r.
Proof.
  intros HM Hn. destruct n as [|p|p]; try lia.
  cbn [shr]. eexists. split; [reflexivity|].
  rewrite iter_pos_nat.
  rewrite <- (positive_nat_Z p). apply shr_iter_inv. exact HM.
Qed.

(** Rounding to nearest, ties to even, after [n] shifts. *)
Lemma round_nearest_even_spec (M n : Z) (r : shr_record) :
  0 <= M -> 0 < n -> shr_inv M n r ->
  let m1 := round_nearest_even (shr_m r) (loc_of_shr_record r) in
  M / 2 ^ n <= m1 <= M / 2 ^ n + 1 /\
  (2 * (M mod 2 ^ n) < 2 ^ n -> m1 = M / 2 ^ n).
Proof.
  intros HM Hn [Hq (u & Hu & Hrem & Hs)] m1. subst m1.
  destruct r as [m r s]; cbn [shr_m shr_r shr_s] in *. subst m.
  destruct r, s; cbn [loc_of_shr_record round_nearest_even].
  - split; [lia|]. intros. lia.
  - split; [destruct (Z.even _); lia|]. intros. 
    destruct (Z.eqb_spec u 0); cbn in Hs; try discriminate. lia.
  - split; [lia|]. reflexivity.
  - split; [lia|]. reflexivity.
Qed.

Lemma fexp_eq (x : Z) : fexp prec emax x = Z.max (x - 53) (-1074).
Proof. reflexivity. Qed.

Lemma bounded_spec (m : positive) (e : Z) :
  bounded prec emax m e = true <->
  e = Z.max (Z.pos (digits2_pos m) + e - 53) (-1074) /\ e <= 971.
Proof.
  unfold bounded, canonical_mantissa. rewrite fexp_eq, andb_true_iff.
  rewrite Z.eqb_eq, Z.leb_le. unfold emax, prec. lia.
Qed.

(** A mantissa already in canonical form is left as it is. *)
Lemma binary_round_aux_canonical (s : bool) (m : positive) (e : Z) :
  bounded prec emax m e = true ->
  binary_round_aux prec emax s (Z.pos m) e loc_Exact = S754_finite s m e.
Proof.
  intros Hb. pose proof Hb as Hb'. apply bounded_spec in Hb' as [Hc He].
  unfold binary_round_aux, shr_fexp. cbn [Zdigits2 shr_record_of_loc].
  rewrite fexp_eq.
  replace (Z.max (Z.pos (digits2_pos m) + e - 53) (-1074) - e) with 0 by lia.
  cbn [shr shr_m loc_of_shr_record round_nearest_even Zdigits2 shr_record_of_loc].
  rewrite fexp_eq.
  replace (Z.max (Z.pos (digits2_pos m) + e - 53) (-1074) - e) with 0 by lia.
  cbn [shr shr_m].
  replace (e <=? emax - prec) with true; [reflexivity|].
  symmetry; apply Z.leb_le. unfold emax, prec; lia.
Qed.

Lemma shr_nonpos (r : shr_record) (e n : Z) : n <= 0 -> shr r e n = (r, e).
Proof. destruct n; intros; [reflexivity | lia | reflexivity]. Qed.

Lemma pow2_pos (k : Z) : 0 <= k -> 0 < 2 ^ k.
Proof. intros. apply Z.pow_pos_nonneg; lia. Qed.

(** Rounding a positive mantissa [M] at exponent [E] when [n > 0] low bits
    have to go: the result stands for [m1 * 2 ^ (E + n)], with [m1] the
    quotient rounded to nearest. *)
Lemma binary_round_aux_inexact (s : bool) (M : positive) (E : Z) :
  let e' := fexp prec emax (Z.pos (digits2_pos M) + E) in
  let n := e' - E in
  0 < n -> e' <= 970 ->
  exists m1,
    Z.pos M / 2 ^ n <= m1 <= Z.pos M / 2 ^ n + 1 /\
    (2 * (Z.pos M mod 2 ^ n) < 2 ^ n -> m1 = Z.pos M / 2 ^ n) /\
    ((m1 = 0 /\ binary_round_aux prec emax s (Z.pos M) E loc_Exact = S754_zero s) \/
     (exists m2 e2,
        binary_round_aux prec emax s (Z.pos M) E loc_Exact = S754_finite s m2 e2 /\
        bounded prec emax m2 e2 = true /\ e' <= e2 <= e' + 1 /\ Z.pos m2 * 2 ^ (e2 - e') = m1)).
Proof.
  intros e' n Hn He.
  pose proof (digits2_pos_bounds M) as [Mlo Mhi].
  set (dM := Z.pos (digits2_pos M)) in *.
  assert (He' : e' = Z.max (dM + E - 53) (-1074)) by (subst e'; apply fexp_eq).
  assert (H2n : 0 < 2 ^ n) by (apply pow2_pos; lia).
  set (q := Z.pos M / 2 ^ n).
  assert (Hq0 : 0 <= q) by (apply Z.div_pos; lia).
  assert (Hq53 : q < 2 ^ 53).
  { apply Z.div_lt_upper_bound; [lia|].
    rewrite <- Z.pow_add_r by lia.
    eapply Z.lt_le_trans; [exact Mhi|]. apply Z.pow_le_mono_r; lia. }
  assert (HqA : e' = dM + E - 53 -> 2 ^ 52 <= q).
  { intros HA. apply Z.div_le_lower_bound; [lia|].
    rewrite <- Z.pow_add_r by lia.
    replace (n + 52) with (dM - 1) by lia. exact Mlo. }
  assert (HqB : e' <> dM + E - 53 -> q < 2 ^ 52).
  { intros HB. apply Z.div_lt_upper_bound; [lia|].
    rewrite <- Z.pow_add_r by lia.
    eapply Z.lt_le_trans; [exact Mhi|]. apply Z.pow_le_mono_r; lia. }
  unfold binary_round_aux, shr_fexp. cbn [Zdigits2 shr_record_of_loc].
  fold dM. fold e'. fold n.
  destruct (shr_spec (Z.pos M) E n) as (r & Hshr & Hinv); [lia | lia |].
  rewrite Hshr.
  pose proof (round_nearest_even_spec (Z.pos M) n r ltac:(lia) Hn Hinv) as [Hm1 Hdown].
  cbv zeta in Hm1, Hdown. fold q in Hm1, Hdown.
  set (m1 := round_nearest_even (shr_m r) (loc_of_shr_record r)) in *.
  replace (E + n) with e' by lia.
  exists m1. split; [exact Hm1|]. split; [exact Hdown|].
  change (2 ^ 53) with 9007199254740992 in *.
  change (2 ^ 52) with 4503599627370496 in *.
  destruct m1 as [|p|p] eqn:Em1; [| |lia].
  - left. split; [reflexivity|].
    cbn [Zdigits2]. rewrite fexp_eq, shr_nonpos by lia. reflexivity.
  - right. pose proof (digits2_pos_bounds p) as [Plo Phi].
    destruct (Z_lt_le_dec (Z.pos p) 9007199254740992) as [Hsmall|Hbig].
    + assert (Hcan : Z.max (Z.pos (digits2_pos p) + e' - 53) (-1074) = e').
      { destruct (Z.eq_dec e' (dM + E - 53)) as [HA|HB].
        - rewrite (digits2_pos_unique p 53); [lia|].
          change (2 ^ (53 - 1)) with 4503599627370496.
          change (2 ^ 53) with 9007199254740992. specialize (HqA HA). lia.
        - assert (Z.pos (digits2_pos p) <= 53); [|lia].
          destruct (Z_lt_le_dec 53 (Z.pos (digits2_pos p))) as [Hd|Hd]; [|lia].
          assert (2 ^ 53 <= 2 ^ (Z.pos (digits2_pos p) - 1)) by (apply Z.pow_le_mono_r; lia).
          change (2 ^ 53) with 9007199254740992 in *. lia. }
      cbn [Zdigits2]. rewrite fexp_eq, shr_nonpos by lia.
      cbn [shr_record_of_loc shr_m].
      exists p, e'. split.
      * replace (e' <=? emax - prec) with true; [reflexivity|].
        symmetry; apply Z.leb_le; unfold emax, prec; lia.
      * split; [apply bounded_spec; lia|]. split; [lia|].
        rewrite Z.sub_diag. cbn. lia.
    + assert (Hp : p = 9007199254740992%positive) by lia. subst p.
      assert (HA : e' = dM + E - 53).
      { destruct (Z.eq_dec e' (dM + E - 53)); [assumption|]. specialize (HqB ltac:(assumption)). lia. }
      cbn [Zdigits2]. rewrite fexp_eq.
      change (Z.pos (digits2_pos 9007199254740992)) with 54.
      replace (Z.max (54 + e' - 53) (-1074) - e') with 1 by lia.
      cbn [shr_record_of_loc shr SpecFloat.iter_pos shr_1 shr_m].
      exists 4503599627370496%positive, (e' + 1). split.
      * replace (e' + 1 <=? emax - prec) with true; [reflexivity|].
        symmetry; apply Z.leb_le; unfold emax, prec; lia.
      * split; [apply bounded_spec|].
        -- change (Z.pos (digits2_pos 4503599627370496)) with 53. lia.
        -- split; [lia|]. replace (e' + 1 - e') with 1 by lia. reflexivity.
Qed.

Lemma pos_iter_xO (m p : positive) :
  Z.pos (Pos.iter xO m p) = Z.pos m * 2 ^ Z.pos p.
Proof.
  induction p as [|p IH] using Pos.peano_ind.
  - cbn [Pos.iter]. rewrite Pos2Z.inj_xO. change (2 ^ 1) with 2. lia.
  - rewrite Pos.iter_succ, Pos2Z.inj_xO, IH, Pos2Z.inj_succ, Z.pow_succ_r by lia. lia.
Qed.

Lemma digits2_pos_shift (m m' : positive) (j : Z) :
  0 <= j -> Z.pos m' = Z.pos m * 2 ^ j ->
  Z.pos (digits2_pos m') = Z.pos (digits2_pos m) + j.
Proof.
  intros Hj Hm'. apply digits2_pos_unique.
  pose proof (digits2_pos_bounds m) as [Lo Hi].
  pose proof (pow2_pos j Hj).
  replace (Z.pos (digits2_pos m) + j - 1) with (Z.pos (digits2_pos m) - 1 + j) by lia.
  rewrite !Z.pow_add_r by lia. rewrite Hm'. nia.
Qed.

(** A mantissa that fits is only shifted to its canonical exponent. *)
Lemma binary_round_shl (s : bool) (m : positive) (e : Z) :
  let ef := fexp prec emax (Z.pos (digits2_pos m) + e) in
  ef <= e -> ef <= 971 ->
  exists mf, binary_round prec emax s m e = S754_finite s mf ef /\
             Z.pos mf = Z.pos m * 2 ^ (e - ef) /\
             bounded prec emax mf ef = true.
Proof.
  intros ef Hle Hmax. unfold binary_round. fold ef.
  assert (Hef : ef = Z.max (Z.pos (digits2_pos m) + e - 53) (-1074)) by (subst ef; apply fexp_eq).
  unfold shl_align. destruct (ef - e) as [|d|d] eqn:Hd; try lia.
  - assert (e = ef) by lia.
    assert (Hb : bounded prec emax m e = true) by (apply bounded_spec; lia).
    rewrite binary_round_aux_canonical by exact Hb.
    exists m. replace (e - ef) with 0 by lia. rewrite Z.mul_1_r.
    split; [congruence|]. split; [reflexivity|congruence].
  - assert (Hsh : Z.pos (Pos.iter xO m d) = Z.pos m * 2 ^ (e - ef)).
    { rewrite pos_iter_xO. f_equal. f_equal. lia. }
    assert (Hb : bounded prec emax (Pos.iter xO m d) ef = true).
    { apply bounded_spec.
      rewrite (digits2_pos_shift m _ (e - ef)) by (lia || exact Hsh). lia. }
    rewrite binary_round_aux_canonical by exact Hb.
    exists (Pos.iter xO m d). auto.
Qed.

(** [a - Math.floor(a)] is computed without rounding. *)
Lemma frac_part (m : positive) (e : Z) :
  bounded prec emax m e = true -> e < 0 ->
  below 1 (sub (S754_finite false m e) (Math_floor (S754_finite false m e))).
Proof.
  intros Hb He. pose proof Hb as Hb'. apply bounded_spec in Hb' as [Hc Hmax].
  pose proof (digits2_pos_bounds m) as [Mlo Mhi].
  set (dm := Z.pos (digits2_pos m)) in *.
  set (k := - e). assert (Hk : 0 < k) by lia.
  assert (H2k : 0 < 2 ^ k) by (apply pow2_pos; lia).
  unfold Math_floor. replace (0 <=? e) with false by (symmetry; apply Z.leb_gt; lia).
  cbn [cond_Zopp]. fold k. set (d := Z.pos m / 2 ^ k).
  assert (Hd0 : 0 <= d) by (apply Z.div_pos; lia).
  destruct (Z.eqb_spec d 0) as [Hz|Hnz].
  - (* below 1: the floor is zero *)
    right. exists m, e. split; [reflexivity|]. split; [exact Hb|]. split; [lia|].
    fold k. apply Z.div_small_iff in Hz; lia.
  - (* at least 1: a normal number *)
    assert (Hd1 : 1 <= d) by lia.
    assert (Hmk : 2 ^ k <= Z.pos m).
    { destruct (Z_lt_le_dec (Z.pos m) (2 ^ k)) as [Hlt|]; [|assumption].
      assert (d = 0) by (subst d; apply Z.div_small; lia). lia. }
    assert (Hdm : dm = 53).
    { destruct (Z.eq_dec dm 53); [assumption|].
      assert (e = -1074) by lia.
      assert (2 ^ dm <= 2 ^ k) by (apply Z.pow_le_mono_r; lia). lia. }
    assert (Hk52 : k <= 52).
    { destruct (Z_lt_le_dec 52 k); [|lia].
      assert (2 ^ dm <= 2 ^ k) by (apply Z.pow_le_mono_r; lia). lia. }
    destruct d as [|pd|pd] eqn:Ed; try lia.
    assert (Hdig : Z.pos (digits2_pos pd) = 53 - k).
    { apply digits2_pos_unique. rewrite <- Ed. subst d. split.
      - apply Z.div_le_lower_bound; [lia|]. rewrite <- Z.pow_add_r by lia.
        replace (k + (53 - k - 1)) with (dm - 1) by lia. exact Mlo.
      - apply Z.div_lt_upper_bound; [lia|]. rewrite <- Z.pow_add_r by lia.
        replace (k + (53 - k)) with dm by lia. exact Mhi. }
    unfold ofZ, binary_normalize.
    destruct (binary_round_shl false pd 0) as (md & Hmd & Vmd & Bmd).
    { rewrite fexp_eq. lia. } { rewrite fexp_eq. lia. }
    rewrite fexp_eq in Hmd, Vmd, Bmd.
    replace (Z.max (Z.pos (digits2_pos pd) + 0 - 53) (-1074)) with e in * by lia.
    rewrite Hmd. replace (0 - e) with k in Vmd by lia.
    unfold sub, SFsub. rewrite Z.min_id. unfold shl_align. rewrite Z.sub_diag.
    cbn [fst cond_Zopp].
    assert (Hr : Z.pos m - Z.pos md = Z.pos m mod 2 ^ k).
    { rewrite Vmd, <- Ed. subst d. rewrite Z.mod_eq by lia. lia. }
    rewrite Hr. pose proof (Z.mod_pos_bound (Z.pos m) (2 ^ k) H2k) as Hmod.
    destruct (Z.pos m mod 2 ^ k) as [|pr|pr] eqn:Er; try lia.
    + left. reflexivity.
    + right. cbn [binary_normalize].
      pose proof (digits2_pos_bounds pr) as [Rlo Rhi].
      assert (Hdr : Z.pos (digits2_pos pr) <= k).
      { destruct (Z_lt_le_dec k (Z.pos (digits2_pos pr))); [|lia].
        assert (2 ^ k <= 2 ^ (Z.pos (digits2_pos pr) - 1)) by (apply Z.pow_le_mono_r; lia). lia. }
      destruct (binary_round_shl false pr e) as (mf & Hmf & Vmf & Bmf).
      { rewrite fexp_eq. lia. } { rewrite fexp_eq. lia. }
      rewrite fexp_eq in Hmf, Vmf, Bmf.
      set (ef := Z.max (Z.pos (digits2_pos pr) + e - 53) (-1074)) in *.
      exists mf, ef. split; [exact Hmf|]. split; [exact Bmf|]. split; [lia|].
      rewrite Vmf. replace (- ef) with (k + (e - ef)) by lia.
      rewrite Z.pow_add_r by lia.
      assert (0 < 2 ^ (e - ef)) by (apply pow2_pos; lia). nia.
Qed.

Lemma sixty_eq : sixty = S754_finite false 8444249301319680 (-47).
Proof. reflexivity. Qed.

(** A fraction times sixty stays below sixty, rounding included. *)
Lemma mul_sixty (x : number) : below 1 x -> below 60 (mul x sixty).
Proof.
  intros [-> | (mf & ef & -> & Hb & Hef & Hlt)]; [left; reflexivity|].
  rewrite Z.mul_1_l in Hlt.
  apply bounded_spec in Hb as [Hc Hmax].
  pose proof (digits2_pos_bounds mf) as [Flo Fhi].
  set (df := Z.pos (digits2_pos mf)) in *.
  rewrite sixty_eq. unfold mul, SFmul. cbn [xorb].
  set (M := (mf * 8444249301319680)%positive).
  set (E := ef + -47).
  assert (HM : Z.pos M = Z.pos mf * 8444249301319680)
    by (subst M; apply Pos2Z.inj_mul).
  pose proof (digits2_pos_bounds M) as [Mlo Mhi].
  pose proof (binary_round_aux_inexact false M E) as RA. cbv zeta in RA.
  rewrite fexp_eq in RA.
  set (dM := Z.pos (digits2_pos M)) in *.
  set (e' := Z.max (dM + E - 53) (-1074)) in *.
  (* [K] is the power of two above the fraction, [X] the one of the product *)
  set (K := 2 ^ (- ef)) in *.
  assert (HK : 0 < K) by (apply pow2_pos; lia).
  assert (HX : 2 ^ (- E) = 140737488355328 * K).
  { subst E K. replace (- (ef + -47)) with (47 + - ef) by lia.
    rewrite Z.pow_add_r by lia. reflexivity. }
  set (X := 2 ^ (- E)) in *.
  assert (HMlt : Z.pos M + 8444249301319680 <= 60 * X) by lia.
  assert (HdM : dM + E <= 6).
  { destruct (Z_lt_le_dec 6 (dM + E)); [|lia].
    assert (H64 : 2 ^ (6 + - E) <= 2 ^ (dM - 1)) by (apply Z.pow_le_mono_r; lia).
    rewrite Z.pow_add_r in H64 by lia. change (2 ^ 6) with 64 in H64.
    fold X in H64. lia. }
  assert (He' : e' <= -47) by lia.
  assert (Hn : 0 < e' - E).
  { destruct (Z.eq_dec ef (-1074)); [subst E; lia|].
    assert (df = 53) by lia.
    assert (4503599627370496 <= Z.pos mf)
      by (change 4503599627370496 with (2 ^ 52);
          replace 52 with (df - 1) by lia; exact Flo).
    assert (dM + E - 53 > E); [|lia].
    destruct (Z_lt_le_dec 100 dM); [lia|].
    assert (H100 : 2 ^ dM <= 2 ^ 100) by (apply Z.pow_le_mono_r; lia).
    change (2 ^ 100) with 1267650600228229401496703205376 in H100. lia. }
  destruct RA as (m1 & [Hlo Hhi] & Hdown & Hres); [exact Hn | lia |].
  set (n := e' - E) in *.
  set (N := 2 ^ n) in *.
  assert (HN : 0 < N) by (apply pow2_pos; lia).
  set (Y := 2 ^ (- e')).
  assert (HY : 0 < Y) by (apply pow2_pos; lia).
  assert (HXY : X = Y * N).
  { subst X Y N n. rewrite <- Z.pow_add_r by lia. f_equal. lia. }
  pose proof (Z.div_mod (Z.pos M) N ltac:(lia)) as Hdm.
  pose proof (Z.mod_pos_bound (Z.pos M) N HN) as Hmod.
  assert (Hq0 : 0 <= Z.pos M / N) by (apply Z.div_pos; lia).
  assert (Hq : Z.pos M / N < 60 * Y).
  { apply Z.div_lt_upper_bound; [exact HN|].
    replace (N * (60 * Y)) with (60 * X) by (rewrite HXY; ring). lia. }
  set (q := Z.pos M / N) in *. set (r := Z.pos M mod N) in *.
  assert (Hm1 : 0 <= m1 < 60 * Y).
  { split; [lia|].
    destruct (Z_lt_le_dec q (60 * Y - 1)); [lia|].
    assert (Eq : q = 60 * Y - 1) by lia.
    rewrite Hdown; [lia|].
    (* all of [M] but less than one unit is in [q]: [n <= 53] *)
    assert (HNq : N * q = 60 * X - N) by (rewrite Eq, HXY; ring).
    assert (Hmf : K <= 2 * Z.pos mf).
    { assert (N <= 30 * X); [|lia].
      rewrite HXY. assert (N * 1 <= N * (30 * Y)); [|lia].
      apply Z.mul_le_mono_nonneg_l; lia. }
    assert (Hef53 : - ef <= 53).
    { destruct (Z_lt_le_dec 53 (- ef)); [|lia].
      assert (H54 : 2 ^ 54 <= K) by (apply Z.pow_le_mono_r; lia).
      assert (H53 : 2 ^ df <= 2 ^ 53) by (apply Z.pow_le_mono_r; lia).
      change (2 ^ 54) with 18014398509481984 in H54.
      change (2 ^ 53) with 9007199254740992 in H53. lia. }
    assert (Hn53 : N <= 2 ^ 53) by (apply Z.pow_le_mono_r; subst n E; lia).
    change (2 ^ 53) with 9007199254740992 in Hn53. lia. }
  destruct Hres as [[_ ->] | (m2 & e2 & -> & Hb2 & He2 & Hv)]; [left; reflexivity|].
  right. exists m2, e2. split; [reflexivity|]. split; [exact Hb2|]. split; [lia|].
  destruct (Z.eq_dec e2 e') as [->|Hne].
  - fold Y. rewrite Z.sub_diag in Hv. change (2 ^ 0) with 1 in Hv. lia.
  - assert (e2 = e' + 1) by lia. subst e2.
    replace (e' + 1 - e') with 1 in Hv by lia. change (2 ^ 1) with 2 in Hv.
    assert (HY2 : Y = 2 * 2 ^ (- (e' + 1))).
    { subst Y. replace (- e') with (Z.succ (- (e' + 1))) by lia.
      apply Z.pow_succ_r. lia. }
    lia.
Qed.

Lemma floor_of_below (B : Z) (x : number) :
  below B x ->
  (exists d, 0 <= d < Z.max B 1 /\ Math_floor x = nat_number d) /\
  below 1 (sub x (Math_floor x)).
Proof.
  intros [-> | (m & e & -> & Hb & He & Hlt)].
  - split; [exists 0; split; [lia | reflexivity] | left; reflexivity].
  - split; [|apply frac_part; assumption].
    assert (H2k : 0 < 2 ^ (- e)) by (apply pow2_pos; lia).
    exists (Z.pos m / 2 ^ (- e)). split.
    + split; [apply Z.div_pos; lia|].
      apply Z.div_lt_upper_bound; [lia|]. nia.
    + unfold Math_floor, nat_number.
      replace (0 <=? e) with false by (symmetry; apply Z.leb_gt; lia).
      reflexivity.
Qed.

Lemma round_of_below (B : Z) (x : number) :
  below B x -> exists d, 0 <= d <= Z.max B 0 /\ Math_round x = nat_number d.
Proof.
  intros [-> | (m & e & -> & Hb & He & Hlt)].
  - exists 0. split; [lia | reflexivity].
  - assert (H2k : 0 < 2 ^ (- e)) by (apply pow2_pos; lia).
    exists ((2 * Z.pos m + 2 ^ (- e)) / 2 ^ (- e + 1)). split.
    + rewrite Z.pow_add_r, Z.pow_1_r by lia. split; [apply Z.div_pos; lia|].
      apply Z.lt_succ_r. apply Z.div_lt_upper_bound; [lia|]. nia.
    + unfold Math_round, nat_number.
      replace (0 <=? e) with false by (symmetry; apply Z.leb_gt; lia).
      reflexivity.
Qed.

(** The three components of an axis whose absolute value is below [B]. *)
Lemma dms_of_below (B : Z) (v : number) :
  1 <= B -> below B (Math_abs v) ->
  exists d m s,
    0 <= d < B /\ 0 <= m <= 59 /\ 0 <= s <= 60 /\
    deg (dms_of v) = nat_number d /\
    min (dms_of v) = nat_number m /\
    sec (dms_of v) = nat_number s.
Proof.
  intros HB Ha. unfold dms_of. cbn [deg min sec].
  set (a := Math_abs v) in *.
  destruct (floor_of_below B a Ha) as [(d & Hd & ED) F1].
  pose proof (mul_sixty _ F1) as P1.
  destruct (floor_of_below 60 _ P1) as [(m & Hm & EM) F2].
  pose proof (mul_sixty _ F2) as P2.
  destruct (round_of_below 60 _ P2) as (s & Hs & ES).
  exists d, m, s. repeat split; try lia; assumption.
Qed.

Lemma bounded_lt_2p53 (m : positive) (e : Z) :
  bounded prec emax m e = true -> Z.pos m < 2 ^ 53.
Proof.
  intros Hb. apply bounded_spec in Hb as [Hc _].
  pose proof (digits2_pos_bounds m) as [_ Hhi].
  eapply Z.lt_le_trans; [exact Hhi|]. apply Z.pow_le_mono_r; lia.
Qed.

(** From the comparisons [-B <= v] and [v <= B] to a bound on [|v|]; [B] is
    given by its mantissa and exponent. *)
Lemma abs_below (v : number) (B : Z) (mB : positive) (eB : Z) :
  is_double v -> eB < 0 -> Z.pos mB = B * 2 ^ (- eB) -> 2 ^ 52 <= Z.pos mB ->
  ge v (S754_finite true mB eB) = true ->
  ge (S754_finite false mB eB) v = true ->
  below (B + 1) (Math_abs v).
Proof.
  intros Hv HeB HmB Hnorm Hlo Hhi. unfold ge, SFleb in Hlo, Hhi.
  destruct v as [s | s | | s m e]; cbn [Math_abs SFabs].
  - left. reflexivity.
  - destruct s; cbn in Hlo, Hhi; discriminate.
  - cbn in Hlo. discriminate.
  - right. exists m, e. split; [reflexivity|]. split; [exact Hv|].
    pose proof (bounded_lt_2p53 m e Hv) as Hm53.
    assert (H2B : 0 < 2 ^ (- eB)) by (apply pow2_pos; lia).
    assert (HB0 : 0 < B) by nia.
    assert (Hcases : e < eB \/ (e = eB /\ Z.pos m <= Z.pos mB)).
    { destruct s; cbn [SFcompare] in Hlo, Hhi.
      - destruct (Z.compare_spec eB e) as [Heq|Hlt|Hgt]; try discriminate; [|lia].
        right. split; [lia|]. fold (Pos.compare mB m) in Hlo.
        destruct (Pos.compare_spec mB m); cbn in Hlo; try discriminate; lia.
      - destruct (Z.compare_spec e eB) as [Heq|Hlt|Hgt]; try discriminate; [|lia].
        right. split; [lia|]. fold (Pos.compare m mB) in Hhi.
        destruct (Pos.compare_spec m mB); try discriminate; lia. }
    destruct Hcases as [Hlt | [-> Hle]].
    + split; [lia|].
      assert (2 * 2 ^ (- eB) <= 2 ^ (- e)).
      { rewrite <- Z.pow_succ_r by lia. apply Z.pow_le_mono_r; lia. }
      change (2 ^ 53) with (2 * 2 ^ 52) in Hm53. nia.
    + split; [lia|]. nia.
Qed.

Lemma ninety_eq : ofZ 90 = S754_finite false 6333186975989760 (-46) /\
                  ofZ (-90) = S754_finite true 6333186975989760 (-46).
Proof. split; reflexivity. Qed.

Lemma one_eighty_eq : ofZ 180 = S754_finite false 6333186975989760 (-45) /\
                      ofZ (-180) = S754_finite true 6333186975989760 (-45).
Proof. split; reflexivity. Qed.

Lemma latitude_below (lat : number) :
  is_double lat -> ge lat (ofZ (-90)) = true -> ge (ofZ 90) lat = true ->
  below 91 (Math_abs lat).
Proof.
  destruct ninety_eq as [-> ->]. intros Hv Hlo Hhi.
  apply (abs_below lat 90 6333186975989760 (-46)); try assumption; [lia | reflexivity |].
  change (2 ^ 52) with 4503599627370496. lia.
Qed.

Lemma longitude_below (lng : number) :
  is_double lng -> ge lng (ofZ (-180)) = true -> ge (ofZ 180) lng = true ->
  below 181 (Math_abs lng).
Proof.
  destruct one_eighty_eq as [-> ->]. intros Hv Hlo Hhi.
  apply (abs_below lng 180 6333186975989760 (-45)); try assumption; [lia | reflexivity |].
  change (2 ^ 52) with 4503599627370496. lia.
Qed.

Lemma small_ok_all : forallb (fun i => small_ok (Z.of_nat i)) (seq 0 181) = true.
Proof. vm_compute. reflexivity. Qed.

Lemma small_number (d : Z) :
  0 <= d <= 180 ->
  toString (nat_number d) = decimal d /\ int_value (nat_number d) = Some d.
Proof.
  intros Hd. pose proof small_ok_all as H.
  rewrite forallb_forall in H. specialize (H (Z.to_nat d)).
  rewrite Z2Nat.id in H by lia.
  assert (Hin : In (Z.to_nat d) (seq 0 181)) by (apply in_seq; lia).
  apply H in Hin. unfold small_ok in Hin.
  apply andb_true_iff in Hin as [Hs Hi]. apply String.eqb_eq in Hs.
  split; [exact Hs|].
  destruct (int_value (nat_number d)) as [z|]; [|discriminate].
  apply Z.eqb_eq in Hi. congruence.
Qed.


End NumFacts.

(** ** The coordinate formatter *)

Module DmsFacts.
Import Num Dms NumFacts StringFacts.

(** For a number that is not [NaN], [v >= 0] fails exactly when [v < 0]. *)
Lemma ge_zero_lt_zero (v : number) :
  isFinite v = true -> ge v zero = negb (lt v zero).
Proof.
  destruct v as [s | s | | s m e]; cbn; intros H; try discriminate.
  - reflexivity.
  - destruct s; reflexivity.
Qed.

Lemma hemisphere_by_sign (pos neg : string) (v : number) :
  isFinite v = true ->
  (if ge v zero then pos else neg) = hemisphere pos neg v.
Proof.
  intros H. unfold hemisphere. rewrite (ge_zero_lt_zero v H).
  destruct (lt v zero); reflexivity.
Qed.

(** Both zeros count as non-negative. *)
Lemma hemisphere_zero (pos neg : string) (s : bool) :
  hemisphere pos neg (S754_zero s) = pos.
Proof. reflexivity. Qed.

(** C1. For every finite coordinate pair, [convertToDMS] returns
    [D°M′S″H, D°M′S″H] with, for each axis, [D = floor |v|],
    [M = floor ((|v| - D) * 60)], [S = round (((|v| - D) * 60 - M) * 60)],
    and the hemisphere letter chosen by sign ([S] and [W] for a negative
    value, [N] and [E] otherwise, a zero of either sign counting as
    non-negative); [convertToDMS(25.1972, 55.2744)] is
    [25°11′50″N, 55°16′28″E] and [convertToDMS(0, 0)] is [0°0′0″N, 0°0′0″E]. *)
Theorem convertToDMS_spec (lat lng : number) :
  isFinite lat = true -> isFinite lng = true ->
  convertToDMS lat lng = dms_string lat lng /\
  (forall s s', dms_string (S754_zero s) (S754_zero s') = "0°0′0″N, 0°0′0″E") /\
  convertToDMS (ofDecimal 251972 (-4)) (ofDecimal 552744 (-4))
    = "25°11′50″N, 55°16′28″E" /\
  dms_string (ofDecimal 251972 (-4)) (ofDecimal 552744 (-4))
    = "25°11′50″N, 55°16′28″E" /\
  convertToDMS (ofZ 0) (ofZ 0) = "0°0′0″N, 0°0′0″E".
Proof.
  intros Hlat Hlng. split; [|split; [|split; [|split]]].
  - unfold convertToDMS, dms_string, axis_string, dms_of. cbn [deg min sec].
    rewrite (hemisphere_by_sign "N" "S" lat Hlat).
    rewrite (hemisphere_by_sign "E" "W" lng Hlng).
    rewrite !append_assoc. reflexivity.
  - intros [|] [|]; vm_compute; reflexivity.
  - vm_compute. reflexivity.
  - vm_compute. reflexivity.
  - vm_compute. reflexivity.
Qed.

(** The claim at Sydney, [(-33.8688, 151.2093)]: southern and eastern
    letters. *)
Lemma convertToDMS_spec_witness :
  convertToDMS (SFopp (ofDecimal 338688 (-4))) (ofDecimal 1512093 (-4))
    = dms_string (SFopp (ofDecimal 338688 (-4))) (ofDecimal 1512093 (-4)) /\
  dms_string (SFopp (ofDecimal 338688 (-4))) (ofDecimal 1512093 (-4))
    = "33°52′8″S, 151°12′33″E".
Proof.
  split.
  - destruct (convertToDMS_spec (SFopp (ofDecimal 338688 (-4))) (ofDecimal 1512093 (-4)))
      as [H _]; [vm_compute; reflexivity | vm_compute; reflexivity | exact H].
  - vm_compute. reflexivity.
Defined.

(** The string of an axis whose components are small integers. *)
Lemma axis_string_small (c : dms) (h : string) (d m s : Z) :
  0 <= d <= 180 -> 0 <= m <= 180 -> 0 <= s <= 180 ->
  deg c = nat_number d -> min c = nat_number m -> sec c = nat_number s ->
  axis_string c h =
    decimal d +:+ "°" +:+ decimal m +:+ "′" +:+ decimal s +:+ "″" +:+ h /\
  int_value (deg c) = Some d /\ int_value (min c) = Some m /\
  int_value (sec c) = Some s.
Proof.
  intros Hd Hm Hs Ed Em Es. unfold axis_string. rewrite Ed, Em, Es.
  destruct (small_number d Hd) as [-> ->].
  destruct (small_number m Hm) as [-> ->].
  destruct (small_number s Hs) as [-> ->].
  repeat split; reflexivity.
Qed.

Lemma convertToDMS_axes (lat lng : number) :
  convertToDMS lat lng =
    axis_string (dms_of lat) (if ge lat zero then "N" else "S") +:+ ", " +:+
    axis_string (dms_of lng) (if ge lng zero then "E" else "W").
Proof.
  unfold convertToDMS, axis_string, dms_of. cbn [deg min sec].
  rewrite !append_assoc. reflexivity.
Qed.

(** C5. For latitude in [[-90, 90]] and longitude in [[-180, 180]] the
    output of [convertToDMS] is a function of the pair, its degree
    components are integers in [[0, 90]] and [[0, 180]], its minute
    components integers in [[0, 59]] and its second components integers in
    [[0, 60]] (60 being the rounding edge case); the string is made of the
    decimal numerals of these integers. *)
Theorem convertToDMS_ranges (lat lng : number) :
  is_double lat -> is_double lng ->
  ge lat (ofZ (-90)) = true -> ge (ofZ 90) lat = true ->
  ge lng (ofZ (-180)) = true -> ge (ofZ 180) lng = true ->
  exists d1 m1 s1 d2 m2 s2 : Z,
    (0 <= d1 <= 90 /\ 0 <= m1 <= 59 /\ 0 <= s1 <= 60) /\
    (0 <= d2 <= 180 /\ 0 <= m2 <= 59 /\ 0 <= s2 <= 60) /\
    (int_value (deg (dms_of lat)) = Some d1 /\
     int_value (min (dms_of lat)) = Some m1 /\
     int_value (sec (dms_of lat)) = Some s1) /\
    (int_value (deg (dms_of lng)) = Some d2 /\
     int_value (min (dms_of lng)) = Some m2 /\
     int_value (sec (dms_of lng)) = Some s2) /\
    convertToDMS lat lng =
      (decimal d1 +:+ "°" +:+ decimal m1 +:+ "′" +:+ decimal s1 +:+ "″"
         +:+ (if ge lat zero then "N" else "S")) +:+ ", " +:+
      (decimal d2 +:+ "°" +:+ decimal m2 +:+ "′" +:+ decimal s2 +:+ "″"
         +:+ (if ge lng zero then "E" else "W")) /\
    (forall lat' lng', lat' = lat -> lng' = lng ->
       convertToDMS lat' lng' = convertToDMS lat lng).
Proof.
  intros Vlat Vlng Hlat1 Hlat2 Hlng1 Hlng2.
  pose proof (latitude_below lat Vlat Hlat1 Hlat2) as Blat.
  pose proof (longitude_below lng Vlng Hlng1 Hlng2) as Blng.
  destruct (dms_of_below 91 lat ltac:(lia) Blat)
    as (d1 & m1 & s1 & Hd1 & Hm1 & Hs1 & Ed1 & Em1 & Es1).
  destruct (dms_of_below 181 lng ltac:(lia) Blng)
    as (d2 & m2 & s2 & Hd2 & Hm2 & Hs2 & Ed2 & Em2 & Es2).
  exists d1, m1, s1, d2, m2, s2.
  destruct (axis_string_small (dms_of lat) (if ge lat zero then "N" else "S")
              d1 m1 s1 ltac:(lia) ltac:(lia) ltac:(lia) Ed1 Em1 Es1)
    as (A1 & I1).
  destruct (axis_string_small (dms_of lng) (if ge lng zero then "E" else "W")
              d2 m2 s2 ltac:(lia) ltac:(lia) ltac:(lia) Ed2 Em2 Es2)
    as (A2 & I2).
  split; [lia|]. split; [lia|]. split; [exact I1|]. split; [exact I2|]. split.
  - rewrite convertToDMS_axes, A1, A2. reflexivity.
  - intros lat' lng' -> ->. reflexivity.
Qed.

(** The claim at [(89.9999, -179.9999)], next to the corner of the domain,
    where the seconds round to 60. *)
Lemma convertToDMS_ranges_witness :
  exists d1 m1 s1 d2 m2 s2 : Z,
    (0 <= d1 <= 90 /\ 0 <= m1 <= 59 /\ 0 <= s1 <= 60) /\
    (0 <= d2 <= 180 /\ 0 <= m2 <= 59 /\ 0 <= s2 <= 60) /\
    convertToDMS (ofDecimal 899999 (-4)) (SFopp (ofDecimal 1799999 (-4))) =
      (decimal d1 +:+ "°" +:+ decimal m1 +:+ "′" +:+ decimal s1 +:+ "″" +:+ "N")
        +:+ ", " +:+
      (decimal d2 +:+ "°" +:+ decimal m2 +:+ "′" +:+ decimal s2 +:+ "″" +:+ "W").
Proof.
  destruct (convertToDMS_ranges (ofDecimal 899999 (-4)) (SFopp (ofDecimal 1799999 (-4))))
    as (d1 & m1 & s1 & d2 & m2 & s2 & R1 & R2 & _ & _ & E & _);
    try (vm_compute; reflexivity).
  exists d1, m1, s1, d2, m2, s2. split; [exact R1|]. split; [exact R2|]. exact E.
Defined.

(** C6. A seconds value that rounds to 60 is printed as 60 and the minutes
    stay as they are: at latitude [0.9999] the components are 0, 59 and
    60. *)
Theorem seconds_sixty_not_carried :
  exists lat lng : number,
    is_double lat /\ isFinite lat = true /\ is_double lng /\ isFinite lng = true /\
    int_value (deg (dms_of lat)) = Some 0 /\
    int_value (min (dms_of lat)) = Some 59 /\
    int_value (sec (dms_of lat)) = Some 60 /\
    convertToDMS lat lng = "0°59′60″N, 0°0′0″E".
Proof.
  exists (ofDecimal 9999 (-4)), zero.
  assert (E : ofDecimal 9999 (-4) = S754_finite false 9006298534815518 (-53))
    by (vm_compute; reflexivity).
  rewrite E. repeat split; vm_compute; reflexivity.
Qed.

End DmsFacts.

(** ** The generation relay *)

Module RelayFacts.
Import Num Dms Relay StringFacts DmsFacts.

(** Every path of the handler, by what the request, the disk and the two
    services give. *)
Lemma run_cases (svc : services) (req : request) (disk : gmap string (list byte)) :
  run svc req disk =
    match file req with
    | None =>
        {| files := disk;
           trace := [Respond 400 (error_body "No image file provided")] |}
    | Some f =>
        match disk !! path f with
        | None =>
            {| files := disk;
               trace := [Respond 500 (error_body ("Failed to generate image. " +:+
                   ("ENOENT: no such file or directory, open '" +:+ path f +:+ "'")))] |}
        | Some bytes =>
            let up := StorageUpload bytes (mimetype f) in
            match storage_upload svc bytes (mimetype f) with
            | Thrown e =>
                {| files := disk;
                   trace := [up; Respond 500 (error_body ("Failed to generate image. "
                                                          +:+ message e))] |}
            | Returned url =>
                let gen := Subscribe MODEL (request_prompt req) [url] in
                match subscribe svc MODEL (request_prompt req) [url] with
                | Thrown e =>
                    {| files := disk;
                       trace := [up; gen;
                                 Respond 500 (error_body ("Failed to generate image. "
                                                          +:+ message e))] |}
                | Returned r =>
                    if truthy (generatedImageUrl (data r)) then
                      {| files := delete (path f) disk;
                         trace := [up; gen;
                                   Respond 200 (success_body (generatedImageUrl (data r))
                                                             (requestId r));
                                   Unlink (path f)] |}
                    else
                      {| files := disk;
                         trace := [up; gen;
                                   Respond 500 (error_body
                                     "Failed to generate image. No image generated")] |}
                end
            end
        end
    end.
Proof.
  unfold run, generate, try_catch, generate_try, request_prompt.
  destruct (file req) as [f|]; [|reflexivity].
  unfold mbind, M_bind, readFileSync, start. cbn [files trace].
  destruct (disk !! path f) as [bytes|] eqn:Hread; [|reflexivity].
  unfold upload. cbn [files trace app].
  destruct (storage_upload svc bytes (mimetype f)) as [url|e]; [|reflexivity].
  unfold call_subscribe. cbn [files trace app].
  destruct (subscribe svc MODEL _ [url]) as [r|e]; [|reflexivity].
  destruct (truthy (generatedImageUrl (data r))); cbn [negb]; [|reflexivity].
  unfold respond, emit, unlinkSync. cbn [files trace app existsb is_response orb].
  rewrite Hread. reflexivity.
Qed.

(** C2, as stated, fails: a request whose image part is present but has
    zero bytes has an empty payload; whatever the services do, the handler
    starts by uploading the empty buffer and never answers 400, and with
    services that accept it the request ends in a 200. *)
Lemma empty_file_is_uploaded :
  empty_payload zero_byte_request zero_byte_disk /\
  (forall svc, exists rest,
     trace (run svc zero_byte_request zero_byte_disk)
       = StorageUpload [] "image/png" :: rest /\
     forall body, ~ In (Respond 400 body) rest) /\
  trace (run (services_returning (images_data "https://cdn.example/out.png"))
             zero_byte_request zero_byte_disk) =
    [ StorageUpload [] "image/png";
      Subscribe MODEL (request_prompt zero_byte_request) ["https://storage.example/3f2a"];
      Respond 200 (success_body (JStr "https://cdn.example/out.png") "req-1");
      Unlink "uploads/0000" ].
Proof.
  split; [reflexivity|]. split; [|rewrite run_cases; reflexivity].
  assert (Hread : zero_byte_disk !! path zero_byte_file = Some []) by reflexivity.
  intros svc. rewrite run_cases. cbn [file zero_byte_request].
  rewrite Hread. cbv zeta. change (mimetype zero_byte_file) with "image/png".
  destruct (storage_upload svc [] "image/png") as [url|e];
    [destruct (subscribe svc MODEL (request_prompt zero_byte_request) [url]) as [r|e];
     [destruct (truthy (generatedImageUrl (data r)))|]|];
    cbn [trace]; eexists; (split; [reflexivity|]);
    intros body H; cbn [In] in H;
    repeat (destruct H as [H|H]; [discriminate H|]); exact H.
Qed.

(** C3. When the storage upload throws, the handler answers 500 with the
    body [{ error: 'Failed to generate image. ' + message }], [message]
    being the message of the thrown error, and the generation service is
    not called; on no path at all is the generation service called without
    a storage upload that returned. *)
Theorem upload_failure_stops (svc : services) (req : request)
    (disk : gmap string (list byte)) (f : multer_file) (bytes : list byte) (e : Error) :
  file req = Some f ->
  disk !! path f = Some bytes ->
  storage_upload svc bytes (mimetype f) = Thrown e ->
  trace (run svc req disk) =
    [ StorageUpload bytes (mimetype f);
      Respond 500 (JObj {[ "error" := JStr ("Failed to generate image. " +:+ message e) ]}) ] /\
  existsb is_subscribe (trace (run svc req disk)) = false /\
  (forall svc' req' disk',
     existsb is_subscribe (trace (run svc' req' disk')) = true ->
     exists f' bytes' url,
       file req' = Some f' /\ disk' !! path f' = Some bytes' /\
       storage_upload svc' bytes' (mimetype f') = Returned url /\
       In (Subscribe "fal-ai/nano-banana-pro/edit"
             ("Create an image of " +:+ convertToDMS (parseFloat (lat req')) (parseFloat (lng req')) +:+
           " with this person there. Use ONLY the person from the uploaded image - ignore all background, objects, and scenery from the original photo. Use good lighting and natural pose that fits the location. The person should look natural and well-integrated into the environment.")
             [url])
          (trace (run svc' req' disk'))).
Proof.
  intros Hfile Hread Hup. split; [|split].
  - rewrite run_cases, Hfile, Hread. cbv zeta. rewrite Hup. reflexivity.
  - rewrite run_cases, Hfile, Hread. cbv zeta. rewrite Hup. reflexivity.
  - clear. intros svc req disk. rewrite run_cases.
    destruct (file req) as [f|] eqn:Hf; [|discriminate].
    destruct (disk !! path f) as [bytes|] eqn:Hb; [|discriminate].
    cbv zeta.
    destruct (storage_upload svc bytes (mimetype f)) as [url|e] eqn:Hu; [|discriminate].
    intros _. exists f, bytes, url.
    split; [reflexivity|]. split; [exact Hb|]. split; [exact Hu|].
    destruct (subscribe svc MODEL (request_prompt req) [url]) as [r|e];
      [destruct (truthy (generatedImageUrl (data r)))|];
      cbn [trace In]; right; left; reflexivity.
Qed.

Lemma upload_failure_stops_witness :
  trace (run (services_upload_failing "quota exceeded") sample_request sample_disk) =
    [ StorageUpload [x89; x50; x4e] "image/png";
      Respond 500 (JObj {[ "error" := JStr "Failed to generate image. quota exceeded" ]}) ] /\
  existsb is_subscribe
    (trace (run (services_upload_failing "quota exceeded") sample_request sample_disk))
    = false.
Proof.
  destruct (upload_failure_stops (services_upload_failing "quota exceeded")
              sample_request sample_disk sample_file [x89; x50; x4e]
              {| message := "quota exceeded" |}) as (H1 & H2 & _);
    [reflexivity | reflexivity | reflexivity |].
  split; [exact H1 | exact H2].
Defined.

Lemma truthy_nonempty (X : string) : X <> "" -> truthy (JStr X) = true.
Proof.
  intros H. cbn [truthy]. apply negb_true_iff, String.eqb_neq. exact H.
Qed.

(** The first element of the [images] list is looked at first. *)
Lemma url_from_images (fields o : gmap string jsval) (rest : list jsval) (X : string) :
  fields !! "images" = Some (JArr (JObj o :: rest)) ->
  o !! "url" = Some (JStr X) -> X <> "" ->
  generatedImageUrl (JObj fields) = JStr X.
Proof.
  intros Himgs Hurl HX. unfold generatedImageUrl, or_else.
  cbn [prop]. rewrite Himgs. cbn [default from_option id first prop].
  rewrite Hurl. cbn [default from_option id].
  rewrite (truthy_nonempty X HX). reflexivity.
Qed.

(** Without a usable URL there, the singular [image] field is looked at. *)
Lemma url_from_image (d : jsval) (fields o : gmap string jsval) (Y : string) :
  d = JObj fields ->
  truthy (prop (first (prop d "images")) "url") = false ->
  fields !! "image" = Some (JObj o) ->
  o !! "url" = Some (JStr Y) ->
  generatedImageUrl d = JStr Y.
Proof.
  intros -> Hno Himg Hurl. unfold generatedImageUrl, or_else. rewrite Hno.
  cbn [prop]. rewrite Himg. cbn [default from_option id prop]. rewrite Hurl. reflexivity.
Qed.

Lemma url_from_nothing (fields : gmap string jsval) :
  fields !! "images" = Some (JArr []) -> fields !! "image" = None ->
  generatedImageUrl (JObj fields) = JUndefined.
Proof.
  intros Himgs Himg. unfold generatedImageUrl, or_else.
  cbn [prop]. rewrite Himgs, Himg. reflexivity.
Qed.

(** The path on which both services returned. *)
Lemma run_generated (svc : services) (req : request) (disk : gmap string (list byte))
    (f : multer_file) (bytes : list byte) (url : string) (r : subscribe_result) :
  file req = Some f ->
  disk !! path f = Some bytes ->
  storage_upload svc bytes (mimetype f) = Returned url ->
  subscribe svc MODEL (request_prompt req) [url] = Returned r ->
  trace (run svc req disk) =
    [ StorageUpload bytes (mimetype f); Subscribe MODEL (request_prompt req) [url] ] ++
    (if truthy (generatedImageUrl (data r))
     then [ Respond 200 (success_body (generatedImageUrl (data r)) (requestId r));
            Unlink (path f) ]
     else [ Respond 500 (error_body "Failed to generate image. No image generated") ]).
Proof.
  intros Hfile Hread Hup Hgen. rewrite run_cases, Hfile, Hread. cbv zeta.
  rewrite Hup, Hgen. destruct (truthy (generatedImageUrl (data r))); reflexivity.
Qed.

(** C4. After the generation call returned, the URL is taken from the
    first element of the [images] list and, failing that, from the [image]
    field: with [{images: [{url: X}, ...]}] and [X] not empty the handler
    answers 200 with [{ success: true, imageUrl: X, message, requestId }],
    [requestId] being that of the generation call; with no usable URL in the
    list and [{image: {url: Y}}] it answers 200 with [Y]; with an empty list
    and no [image] field it answers 500, "No image generated". *)
Theorem image_url_extraction (svc : services) (req : request)
    (disk : gmap string (list byte)) (f : multer_file) (bytes : list byte)
    (url : string) (r : subscribe_result) :
  file req = Some f ->
  disk !! path f = Some bytes ->
  storage_upload svc bytes (mimetype f) = Returned url ->
  subscribe svc MODEL (request_prompt req) [url] = Returned r ->
  (forall fields o rest X,
     data r = JObj fields ->
     fields !! "images" = Some (JArr (JObj o :: rest)) ->
     o !! "url" = Some (JStr X) -> X <> "" ->
     trace (run svc req disk) =
       [ StorageUpload bytes (mimetype f); Subscribe "fal-ai/nano-banana-pro/edit"
           ("Create an image of " +:+ convertToDMS (parseFloat (lat req)) (parseFloat (lng req)) +:+
           " with this person there. Use ONLY the person from the uploaded image - ignore all background, objects, and scenery from the original photo. Use good lighting and natural pose that fits the location. The person should look natural and well-integrated into the environment.")
           [url];
         Respond 200
           (JObj (<["success" := JBool true]>
              (<["imageUrl" := JStr X]>
              (<["message" := JStr "Image generated successfully with fal.ai"]>
              (<["requestId" := JStr (requestId r)]> ∅))))); Unlink (path f) ]) /\
  (forall fields o Y,
     data r = JObj fields ->
     truthy (prop (first (prop (data r) "images")) "url") = false ->
     fields !! "image" = Some (JObj o) ->
     o !! "url" = Some (JStr Y) -> Y <> "" ->
     trace (run svc req disk) =
       [ StorageUpload bytes (mimetype f); Subscribe "fal-ai/nano-banana-pro/edit"
           ("Create an image of " +:+ convertToDMS (parseFloat (lat req)) (parseFloat (lng req)) +:+
           " with this person there. Use ONLY the person from the uploaded image - ignore all background, objects, and scenery from the original photo. Use good lighting and natural pose that fits the location. The person should look natural and well-integrated into the environment.")
           [url];
         Respond 200
           (JObj (<["success" := JBool true]>
              (<["imageUrl" := JStr Y]>
              (<["message" := JStr "Image generated successfully with fal.ai"]>
              (<["requestId" := JStr (requestId r)]> ∅))))); Unlink (path f) ]) /\
  (forall fields,
     data r = JObj fields ->
     fields !! "images" = Some (JArr []) -> fields !! "image" = None ->
     trace (run svc req disk) =
       [ StorageUpload bytes (mimetype f); Subscribe "fal-ai/nano-banana-pro/edit"
           ("Create an image of " +:+ convertToDMS (parseFloat (lat req)) (parseFloat (lng req)) +:+
           " with this person there. Use ONLY the person from the uploaded image - ignore all background, objects, and scenery from the original photo. Use good lighting and natural pose that fits the location. The person should look natural and well-integrated into the environment.")
           [url];
         Respond 500 (JObj {[ "error" := JStr "Failed to generate image. No image generated" ]}) ]).
Proof.
  intros Hfile Hread Hup Hgen.
  pose proof (run_generated svc req disk f bytes url r Hfile Hread Hup Hgen) as Hrun.
  split; [|split].
  - intros fields o rest X Hd Himgs Hurl HX. rewrite Hrun, Hd.
    rewrite (url_from_images fields o rest X Himgs Hurl HX).
    rewrite (truthy_nonempty X HX). reflexivity.
  - intros fields o Y Hd Hno Himg Hurl HY. rewrite Hrun.
    rewrite (url_from_image (data r) fields o Y Hd Hno Himg Hurl).
    rewrite (truthy_nonempty Y HY). reflexivity.
  - intros fields Hd Himgs Himg. rewrite Hrun, Hd.
    rewrite (url_from_nothing fields Himgs Himg). reflexivity.
Qed.

Lemma image_url_extraction_witness :
  trace (run (services_returning (images_data "https://cdn.example/out.png"))
             sample_request sample_disk) =
    [ StorageUpload [x89; x50; x4e] "image/png";
      Subscribe "fal-ai/nano-banana-pro/edit"
        "Create an image of 25°11′50″N, 55°16′28″E with this person there. Use ONLY the person from the uploaded image - ignore all background, objects, and scenery from the original photo. Use good lighting and natural pose that fits the location. The person should look natural and well-integrated into the environment."
        ["https://storage.example/3f2a"];
      Respond 200
        (JObj (<["success" := JBool true]>
              (<["imageUrl" := JStr "https://cdn.example/out.png"]>
              (<["message" := JStr "Image generated successfully with fal.ai"]>
              (<["requestId" := JStr "req-1"]> ∅)))));
      Unlink "uploads/3f2a" ] /\
  trace (run (services_returning
                (JObj {[ "images" := JArr [];
                          "image" := JObj {[ "url" := JStr "https://cdn.example/one.png" ]} ]}))
             sample_request sample_disk) =
    [ StorageUpload [x89; x50; x4e] "image/png";
      Subscribe "fal-ai/nano-banana-pro/edit"
        "Create an image of 25°11′50″N, 55°16′28″E with this person there. Use ONLY the person from the uploaded image - ignore all background, objects, and scenery from the original photo. Use good lighting and natural pose that fits the location. The person should look natural and well-integrated into the environment."
        ["https://storage.example/3f2a"];
      Respond 200
        (JObj (<["success" := JBool true]>
              (<["imageUrl" := JStr "https://cdn.example/one.png"]>
              (<["message" := JStr "Image generated successfully with fal.ai"]>
              (<["requestId" := JStr "req-1"]> ∅)))));
      Unlink "uploads/3f2a" ] /\
  trace (run (services_returning (JObj {[ "images" := JArr [] ]}))
             sample_request sample_disk) =
    [ StorageUpload [x89; x50; x4e] "image/png";
      Subscribe "fal-ai/nano-banana-pro/edit"
        "Create an image of 25°11′50″N, 55°16′28″E with this person there. Use ONLY the person from the uploaded image - ignore all background, objects, and scenery from the original photo. Use good lighting and natural pose that fits the location. The person should look natural and well-integrated into the environment."
        ["https://storage.example/3f2a"];
      Respond 500 (JObj {[ "error" := JStr "Failed to generate image. No image generated" ]}) ].
Proof.
  split; [|split].
  - destruct (image_url_extraction
                (services_returning (images_data "https://cdn.example/out.png"))
                sample_request sample_disk sample_file [x89; x50; x4e]
                "https://storage.example/3f2a"
                {| data := images_data "https://cdn.example/out.png"; requestId := "req-1" |})
      as (H & _ & _); [reflexivity | reflexivity | reflexivity | reflexivity |].
    apply (H {[ "images" := JArr [JObj {[ "url" := JStr "https://cdn.example/out.png" ]}] ]}
             {[ "url" := JStr "https://cdn.example/out.png" ]} []
             "https://cdn.example/out.png");
      [reflexivity | vm_compute; reflexivity | vm_compute; reflexivity | discriminate].
  - destruct (image_url_extraction
                (services_returning
                   (JObj {[ "images" := JArr [];
                             "image" := JObj {[ "url" := JStr "https://cdn.example/one.png" ]} ]}))
                sample_request sample_disk sample_file [x89; x50; x4e]
                "https://storage.example/3f2a"
                {| data := JObj {[ "images" := JArr [];
                                   "image" := JObj {[ "url" := JStr "https://cdn.example/one.png" ]} ]};
                   requestId := "req-1" |})
      as (_ & H & _); [reflexivity | reflexivity | reflexivity | reflexivity |].
    apply (H {[ "images" := JArr [];
                "image" := JObj {[ "url" := JStr "https://cdn.example/one.png" ]} ]}
             {[ "url" := JStr "https://cdn.example/one.png" ]}
             "https://cdn.example/one.png");
      [reflexivity | vm_compute; reflexivity | vm_compute; reflexivity
       | vm_compute; reflexivity | discriminate].
  - destruct (image_url_extraction
                (services_returning (JObj {[ "images" := JArr [] ]}))
                sample_request sample_disk sample_file [x89; x50; x4e]
                "https://storage.example/3f2a"
                {| data := JObj {[ "images" := JArr [] ]}; requestId := "req-1" |})
      as (_ & _ & H); [reflexivity | reflexivity | reflexivity | reflexivity |].
    apply (H {[ "images" := JArr [] ]});
      [reflexivity | vm_compute; reflexivity | vm_compute; reflexivity].
Defined.




End RelayFacts.

(** ** Base64 and [data:] URLs *)

Module DataUrlFacts.
Import DataUrl StringFacts.

Ltac zdm := Z.div_mod_to_equations; lia.

(** Induction three bytes at a time. *)
Lemma list_ind3 {A : Type} (P : list A -> Prop) :
  P [] -> (forall a, P [a]) -> (forall a b, P [a; b]) ->
  (forall a b c rest, P rest -> P (a :: b :: c :: rest)) ->
  forall l, P l.
Proof.
  intros H0 H1 H2 H3 l.
  assert (H : P l /\ (forall a, P (a :: l)) /\ (forall a b, P (a :: b :: l))).
  { induction l as [|x l (IH0 & IH1 & IH2)].
    - auto.
    - split; [apply IH1|]. split; [intros a; apply IH2|].
      intros a b. apply H3. exact IH0. }
  apply H.
Qed.

Lemma byte_val_range (b : byte) : 0 <= byte_val b < 256.
Proof.
  unfold byte_val. pose proof (Byte.to_N_bounded b). lia.
Qed.

Lemma byte_of_val (x : Z) (b : byte) : x mod 256 = byte_val b -> byte_of x = b.
Proof.
  intros H. unfold byte_of. rewrite H. unfold byte_val.
  rewrite N2Z.id, Byte.of_to_N. reflexivity.
Qed.

(** Decoding the groups of a byte sequence gives the bytes back. *)
Lemma decode_groups (bs : list byte) :
  decode_sextets (map (fun n => n mod 64) (groups bs)) = bs.
Proof.
  induction bs as [| a | a b | a b c rest IH] using list_ind3.
  - reflexivity.
  - cbn [groups map decode_sextets]. f_equal.
    apply byte_of_val. pose proof (byte_val_range a). zdm.
  - cbn [groups map decode_sextets].
    pose proof (byte_val_range a). pose proof (byte_val_range b).
    f_equal; [|f_equal]; apply byte_of_val; zdm.
  - cbn [groups map decode_sextets]. rewrite IH.
    pose proof (byte_val_range a). pose proof (byte_val_range b).
    pose proof (byte_val_range c).
    f_equal; [|f_equal; [|f_equal]]; apply byte_of_val; zdm.
Qed.

Lemma base64_char_plain (c : ascii) :
  base64_char c = true ->
  is_ascii_whitespace c = false /\ Ascii.eqb c "%" = false /\
  Ascii.eqb c "," = false /\ Ascii.eqb c "#" = false.
Proof.
  destruct c as [[] [] [] [] [] [] [] []]; vm_compute; intros H;
    first [discriminate H | repeat split].
Qed.

Lemma char_sextet_not_pad (c : ascii) (v : Z) :
  char_sextet c = Some v -> Ascii.eqb c pad = false.
Proof.
  destruct c as [[] [] [] [] [] [] [] []]; vm_compute; intros H;
    first [discriminate H | reflexivity].
Qed.

Lemma sextet_ok_all : forallb sextet_ok (seq 0 64) = true.
Proof. vm_compute. reflexivity. Qed.

Lemma char_sextet_char (n : Z) : char_sextet (sextet_char n) = Some (n mod 64).
Proof.
  pose proof (Z.mod_pos_bound n 64 ltac:(lia)) as Hr.
  assert (Hs : sextet_char n = sextet_char (Z.of_nat (Z.to_nat (n mod 64)))).
  { unfold sextet_char. rewrite Z2Nat.id by lia. rewrite Z.mod_mod by lia. reflexivity. }
  pose proof sextet_ok_all as Hall. rewrite forallb_forall in Hall.
  specialize (Hall (Z.to_nat (n mod 64)) ltac:(apply in_seq; lia)).
  unfold sextet_ok in Hall. rewrite <- Hs in Hall.
  destruct (char_sextet (sextet_char n)) as [v|]; [|discriminate].
  apply Z.eqb_eq in Hall. rewrite Z2Nat.id in Hall by lia. congruence.
Qed.

Lemma sextets_of_chars (l : list Z) :
  sextets_of (map sextet_char l) = Some (map (fun n => n mod 64) l).
Proof.
  induction l as [|n l IH]; [reflexivity|].
  cbn [map sextets_of]. rewrite char_sextet_char, IH. reflexivity.
Qed.

(** An encoding is the characters of the groups followed by the padding. *)
Lemma encode_split (bs : list byte) :
  base64_encode bs = map sextet_char (groups bs) ++ repeat pad (padding bs).
Proof.
  induction bs as [| a | a b | a b c rest IH] using list_ind3; try reflexivity.
  cbn [base64_encode groups padding map app]. rewrite IH. reflexivity.
Qed.

Lemma groups_shape (bs : list byte) :
  (padding bs <= 2)%nat /\
  Nat.modulo (length (groups bs) + padding bs) 4 = 0%nat /\
  Nat.modulo (length (groups bs)) 4 <> 1%nat.
Proof.
  induction bs as [| a | a b | a b c rest (IH1 & IH2 & IH3)] using list_ind3;
    try (cbn; repeat split; lia).
  cbn [groups padding length].
  assert (E : forall n, Nat.modulo (S (S (S (S n)))) 4 = Nat.modulo n 4).
  { intros n. replace (S (S (S (S n)))) with (n + 1 * 4)%nat by lia.
    apply Nat.Div0.mod_add. }
  split; [exact IH1|]. split.
  - cbn [Nat.add]. rewrite E. exact IH2.
  - rewrite E. exact IH3.
Qed.

Lemma filter_all {A : Type} (p : A -> bool) (l : list A) :
  Forall (fun x => p x = true) l -> List.filter p l = l.
Proof.
  induction 1 as [|x l Hx _ IH]; [reflexivity|].
  cbn [List.filter]. rewrite Hx, IH. reflexivity.
Qed.

(** Up to two padding characters after a body without any are removed,
    and nothing else. *)
Lemma strip_padding_body (body : list ascii) (k : nat) :
  Forall (fun c => Ascii.eqb c pad = false) body -> (k <= 2)%nat ->
  strip_padding (body ++ repeat pad k) = body.
Proof.
  intros Hbody Hk.
  assert (Hrev : Forall (fun c => Ascii.eqb c pad = false) (rev body))
    by (apply Forall_rev; exact Hbody).
  assert (Hpad : Ascii.eqb pad pad = true) by reflexivity.
  remember (rev body) as rb eqn:Erb.
  assert (Hb : body = rev rb) by (subst rb; symmetry; apply rev_involutive).
  rewrite Hb. clear Hb Erb Hbody body.
  unfold strip_padding. rewrite rev_app_distr, rev_involutive.
  destruct k as [|[|[|k]]]; [| | |lia]; cbn [repeat rev app].
  - rewrite app_nil_r. destruct rb as [|p1 [|p2 r]]; [reflexivity| |];
      inversion Hrev as [|? ? H1 _]; subst; rewrite H1; reflexivity.
  - destruct rb as [|p2 r]; [reflexivity|].
    inversion Hrev as [|? ? H2 _]; subst. rewrite Hpad, H2. reflexivity.
  - destruct rb as [|p2 r]; rewrite Hpad; reflexivity.
Qed.

Lemma sextet_char_base64 (n : Z) : base64_char (sextet_char n) = true.
Proof. unfold base64_char. rewrite char_sextet_char. reflexivity. Qed.

Lemma encode_chars (bs : list byte) :
  Forall (fun c => base64_char c = true) (base64_encode bs).
Proof.
  rewrite encode_split. apply Forall_app. split.
  - induction (groups bs) as [|n l IH]; constructor;
      [apply sextet_char_base64 | exact IH].
  - induction (padding bs) as [|k IH]; constructor; [reflexivity | exact IH].
Qed.

Lemma sextet_chars_not_pad (l : list Z) :
  Forall (fun c => Ascii.eqb c pad = false) (map sextet_char l).
Proof.
  induction l as [|n l IH]; constructor; [|exact IH].
  eapply char_sextet_not_pad. apply char_sextet_char.
Qed.

(** Forgiving-base64 decoding undoes the encoding. *)
Lemma decode_encode (bs : list byte) :
  forgiving_base64_decode (base64_encode bs) = Some bs.
Proof.
  unfold forgiving_base64_decode.
  rewrite filter_all.
  2:{ eapply Forall_impl; [apply encode_chars|].
      intros c Hc. destruct (base64_char_plain c Hc) as [-> _]. reflexivity. }
  destruct (groups_shape bs) as (Hk & Hlen & Hbody).
  rewrite encode_split, length_app, length_map, repeat_length, Hlen. cbn [Nat.eqb].
  rewrite strip_padding_body; [|apply sextet_chars_not_pad|exact Hk].
  rewrite length_map.
  destruct (Nat.eqb_spec (Nat.modulo (length (groups bs)) 4) 1) as [E|_];
    [contradiction|].
  rewrite sextets_of_chars. cbn [option_map]. rewrite decode_groups. reflexivity.
Qed.

Lemma percent_decode_plain (l : list ascii) :
  Forall (fun c => Ascii.eqb c "%" = false) l -> percent_decode l = l.
Proof.
  induction 1 as [|c r Hc _ IH]; [reflexivity|].
  cbn [percent_decode]. rewrite Hc, IH.
  destruct r as [|h1 [|h2 r2]]; reflexivity.
Qed.

Lemma split_at_absent (c : ascii) (l : list ascii) :
  Forall (fun x => Ascii.eqb x c = false) l -> split_at c l = None.
Proof.
  induction 1 as [|x l Hx _ IH]; [reflexivity|].
  cbn [split_at]. rewrite Hx, IH. reflexivity.
Qed.

Lemma split_at_first (c : ascii) (a b : list ascii) :
  Forall (fun x => Ascii.eqb x c = false) a ->
  split_at c (a ++ c :: b) = Some (a, b).
Proof.
  induction 1 as [|x l Hx _ IH].
  - cbn [app split_at]. rewrite Ascii.eqb_refl. reflexivity.
  - cbn [app split_at]. rewrite Hx, IH. reflexivity.
Qed.

Lemma base64_marked_suffix (mime : list ascii) :
  base64_marked (mime ++ list_ascii_of_string ";base64") = true.
Proof.
  unfold base64_marked. rewrite rev_app_distr. reflexivity.
Qed.

Lemma plain_type_chars (t : string) :
  plain_type t = true ->
  Forall (fun x => Ascii.eqb x "," = false) (list_ascii_of_string t) /\
  Forall (fun x => Ascii.eqb x "#" = false) (list_ascii_of_string t).
Proof.
  unfold plain_type. induction (list_ascii_of_string t) as [|c l IH]; [auto|].
  cbn [forallb]. intros H. apply andb_true_iff in H as [Hc Hl].
  apply negb_true_iff, orb_false_iff in Hc as [Hc1 Hc2].
  destruct (IH Hl) as [I1 I2]. split; constructor; assumption.
Qed.

(** The [data:] URL processor gives back the bytes [data_url] encoded, for
    a media type without comma and number sign. *)
Lemma process_data_url_encoded (t : string) (bs : list byte) :
  plain_type t = true ->
  process_data_url
    (list_ascii_of_string (t +:+ ";base64," +:+ string_of_list_ascii (base64_encode bs)))
  = Some bs.
Proof.
  intros Ht. destruct (plain_type_chars t Ht) as [Hcomma Hhash].
  rewrite !list_ascii_of_append, list_ascii_of_string_of_list_ascii.
  set (tl := list_ascii_of_string t) in *.
  set (enc := base64_encode bs).
  assert (Henc : Forall (fun c => base64_char c = true) enc) by apply encode_chars.
  unfold process_data_url.
  rewrite (split_at_absent "#").
  2:{ apply Forall_app. split; [exact Hhash|]. apply Forall_app. split.
      - repeat constructor.
      - eapply Forall_impl; [exact Henc|]. intros c Hc.
        apply (base64_char_plain c Hc). }
  change (list_ascii_of_string ";base64,")
    with (list_ascii_of_string ";base64" ++ ["," % char]).
  rewrite <- app_assoc, app_assoc. cbn [app].
  rewrite (split_at_first ",").
  2:{ apply Forall_app. split; [exact Hcomma|]. repeat constructor. }
  rewrite base64_marked_suffix.
  rewrite percent_decode_plain.
  2:{ eapply Forall_impl; [exact Henc|]. intros c Hc. apply (base64_char_plain c Hc). }
  apply decode_encode.
Qed.

End DataUrlFacts.

(** ** The client's photo cache *)

Module ClientFacts.
Import Num DataUrl Client StringFacts DataUrlFacts.

Lemma is_data_scheme_data (rest : list ascii) :
  is_data_scheme (list_ascii_of_string "data:" ++ rest) = Some rest.
Proof. reflexivity. Qed.

Lemma data_url_not_empty (t : string) (bs : list byte) :
  String.eqb (data_url t bs) "" = false.
Proof. reflexivity. Qed.

(** Fetching the data URL of a file gives its bytes. *)
Lemma fetch_data_url (b : browser) (f : File) :
  plain_type (type f) = true ->
  fetch_blob b (readAsDataURL f) = Some (content f).
Proof.
  intros Ht. unfold fetch_blob, readAsDataURL, data_url.
  rewrite list_ascii_of_append, is_data_scheme_data.
  apply process_data_url_encoded.
  destruct (String.eqb (type f) ""); [reflexivity | exact Ht].
Qed.

(** Reloading a cache that holds the data URL of a file. *)
Lemma load_cached (b : browser) (f : File) (ls : gmap string string) :
  plain_type (type f) = true ->
  ls !! STORAGE_KEY = Some (readAsDataURL f) ->
  loadSavedImage b (mount ls) =
    setImageFile (Some (rebuilt_file (content f)))
      (setImagePreview (Some (readAsDataURL f)) (mount ls)).
Proof.
  intros Ht Hls. unfold loadSavedImage. cbn [mount localStorage].
  rewrite Hls. unfold readAsDataURL at 1. rewrite data_url_not_empty.
  rewrite (fetch_data_url b f Ht). reflexivity.
Qed.

(** C8. An uploaded image is cached under the fixed key as its base64
    data URL; decoding that URL gives the bytes of the image back, so the
    file rebuilt from the cache when the component mounts, which is the one
    posted to the relay, has the content of the upload byte for byte. *)
Theorem cached_photo_round_trip (b : browser) (f : File) (st : app)
    (lat lng : number) :
  plain_type (type f) = true ->
  storage_accepts b (readAsDataURL f) = true ->
  localStorage (handleImageUpload b [f] st) !! STORAGE_KEY
    = Some (data_url (type f) (content f)) /\
  fetch_blob b (data_url (type f) (content f)) = Some (content f) /\
  (exists g,
     imageFile (loadSavedImage b (mount (localStorage (handleImageUpload b [f] st))))
       = Some g /\
     content g = content f /\
     snd (handleGenerate b
            (selectLocation lat lng
               (loadSavedImage b (mount (localStorage (handleImageUpload b [f] st))))))
       = Post {| form_lat := toString lat; form_lng := toString lng; form_image := g |}).
Proof.
  intros Ht Hfits.
  assert (Hls : localStorage (handleImageUpload b [f] st) !! STORAGE_KEY
                = Some (readAsDataURL f)).
  { unfold handleImageUpload. rewrite Hfits. cbn [setStorage localStorage].
    apply lookup_insert_eq. }
  split; [exact Hls|]. split; [exact (fetch_data_url b f Ht)|].
  exists (rebuilt_file (content f)).
  rewrite (load_cached b f _ Ht Hls). repeat split.
Qed.

Lemma cached_photo_round_trip_witness :
  plain_type (type sample_png) = true /\
  fetch_blob sample_browser (data_url "image/png" [x89; x50; x4e; x47; x0d])
    = Some [x89; x50; x4e; x47; x0d].
Proof.
  split; [reflexivity|].
  destruct (cached_photo_round_trip sample_browser sample_png (mount ∅) zero zero)
    as (_ & H & _); [reflexivity | reflexivity | exact H].
Defined.

(** C10. The file rebuilt from the cache, when the component mounts and
    in the retry of [handleGenerate], is always named [uploaded-image.jpg]
    with the media type [image/jpeg]; for the cached data URL of an upload
    it has the bytes of the upload, whatever media type the upload
    declared. *)
Theorem rebuilt_file_declares_jpeg (b : browser) (f : File) (ls : gmap string string) :
  plain_type (type f) = true ->
  ls !! STORAGE_KEY = Some (readAsDataURL f) ->
  imageFile (loadSavedImage b (mount ls)) =
    Some {| name := "uploaded-image.jpg"; type := "image/jpeg"; content := content f |} /\
  (forall st loc,
     selectedLocation st = Some loc -> imageFile st = None ->
     imagePreview st = Some (readAsDataURL f) ->
     handleGenerate b st =
       (setImageFile
          (Some {| name := "uploaded-image.jpg"; type := "image/jpeg";
                   content := content f |}) st,
        Retry)) /\
  (forall ls' g,
     imageFile (loadSavedImage b (mount ls')) = Some g ->
     name g = "uploaded-image.jpg" /\ type g = "image/jpeg") /\
  (forall st st',
     imageFile st = None -> handleGenerate b st = (st', Retry) ->
     exists g, imageFile st' = Some g /\
               name g = "uploaded-image.jpg" /\ type g = "image/jpeg").
Proof.
  intros Ht Hls. repeat apply conj.
  - rewrite (load_cached b f ls Ht Hls). reflexivity.
  - intros st [lat lng] Hloc Hfile Hprev. unfold handleGenerate.
    rewrite Hloc, Hfile, Hprev. unfold readAsDataURL at 1.
    rewrite data_url_not_empty. rewrite (fetch_data_url b f Ht). reflexivity.
  - intros ls' g. unfold loadSavedImage. cbn [mount localStorage].
    destruct (ls' !! STORAGE_KEY) as [saved|]; [|discriminate].
    destruct (String.eqb saved ""); [discriminate|].
    destruct (fetch_blob b saved) as [blob|]; [|discriminate].
    cbn [setImageFile imageFile]. intros [= <-]. split; reflexivity.
  - intros st st' Hfile. unfold handleGenerate.
    destruct (selectedLocation st) as [[lat lng]|]; [|discriminate].
    rewrite Hfile.
    destruct (imagePreview st) as [preview|]; [|discriminate].
    destruct (String.eqb preview ""); [discriminate|].
    destruct (fetch_blob b preview) as [blob|]; [|discriminate].
    intros [= <-]. exists (rebuilt_file blob). repeat split.
Qed.

Lemma rebuilt_file_declares_jpeg_witness :
  type sample_png = "image/png" /\
  imageFile (loadSavedImage sample_browser
               (mount {[ STORAGE_KEY := readAsDataURL sample_png ]})) =
    Some {| name := "uploaded-image.jpg"; type := "image/jpeg";
            content := content sample_png |}.
Proof.
  split; [reflexivity|].
  destruct (rebuilt_file_declares_jpeg sample_browser sample_png
              {[ STORAGE_KEY := readAsDataURL sample_png ]})
    as (H & _); [reflexivity | vm_compute; reflexivity | exact H].
Defined.

End ClientFacts.


(** ** The generation relay: every path *)

Module RelayPaths.
Import Num Dms Relay Wire StringFacts RelayFacts.

(** X3. The handler never creates or changes a file, and the only file it
    may delete is the temporary file of the request: every other path on
    the disk holds after the request what it held before. *)
Theorem disk_frame (svc : services) (req : request)
    (disk : gmap string (list byte)) (p : string) :
  (forall f, file req = Some f -> p <> path f) ->
  files (run svc req disk) !! p = disk !! p /\
  (forall q bytes, files (run svc req disk) !! q = Some bytes -> disk !! q = Some bytes).
Proof.
  intros Hp. rewrite run_cases.
  destruct (file req) as [f|]; [|split; [reflexivity | intros q bytes H; exact H]].
  specialize (Hp f eq_refl).
  destruct (disk !! path f) as [bytes|] eqn:Hb;
    [|split; [reflexivity | intros q bs H; exact H]].
  cbv zeta. destruct (storage_upload svc bytes (mimetype f)) as [url|e];
    [|split; [reflexivity | intros q bs H; exact H]].
  destruct (subscribe svc MODEL (request_prompt req) [url]) as [r|e];
    [|split; [reflexivity | intros q bs H; exact H]].
  destruct (truthy (generatedImageUrl (data r)));
    [|split; [reflexivity | intros q bs H; exact H]].
  cbn [files]. split.
  - apply lookup_delete_ne. congruence.
  - intros q bs H. apply lookup_delete_Some in H as [_ H]. exact H.
Qed.

Lemma disk_frame_witness :
  files (run (services_returning (images_data "https://cdn.example/out.png"))
             sample_request (<["uploads/other" := [x01]]> sample_disk))
    !! "uploads/other" = Some [x01].
Proof.
  destruct (disk_frame (services_returning (images_data "https://cdn.example/out.png"))
              sample_request (<["uploads/other" := [x01]]> sample_disk) "uploads/other")
    as [H _].
  - intros f [= <-]. discriminate.
  - rewrite H. vm_compute. reflexivity.
Defined.

(** X4. When the generation call throws, the handler answers 500 with the
    thrown message after the prefix, the temporary file stays on the disk,
    and nothing is tried again. *)
Theorem generation_failure (svc : services) (req : request)
    (disk : gmap string (list byte)) (f : multer_file) (bytes : list byte)
    (url : string) (e : Error) :
  file req = Some f ->
  disk !! path f = Some bytes ->
  storage_upload svc bytes (mimetype f) = Returned url ->
  subscribe svc MODEL (request_prompt req) [url] = Thrown e ->
  run svc req disk =
    {| files := disk;
       trace := [ StorageUpload bytes (mimetype f);
                  Subscribe "fal-ai/nano-banana-pro/edit"
                    ("Create an image of " +:+ convertToDMS (parseFloat (lat req)) (parseFloat (lng req)) +:+
           " with this person there. Use ONLY the person from the uploaded image - ignore all background, objects, and scenery from the original photo. Use good lighting and natural pose that fits the location. The person should look natural and well-integrated into the environment.")
                    [url];
                  Respond 500 (JObj {[ "error" := JStr ("Failed to generate image. " +:+ message e) ]}) ] |}.
Proof.
  intros Hf Hb Hu Hs. rewrite run_cases, Hf, Hb. cbv zeta. rewrite Hu, Hs. reflexivity.
Qed.

Lemma generation_failure_witness :
  trace (run (services_generation_failing "model overloaded") sample_request sample_disk) =
    [ StorageUpload [x89; x50; x4e] "image/png";
      Subscribe "fal-ai/nano-banana-pro/edit"
        "Create an image of 25°11′50″N, 55°16′28″E with this person there. Use ONLY the person from the uploaded image - ignore all background, objects, and scenery from the original photo. Use good lighting and natural pose that fits the location. The person should look natural and well-integrated into the environment."
        ["https://storage.example/3f2a"];
      Respond 500 (JObj {[ "error" := JStr "Failed to generate image. model overloaded" ]}) ] /\
  files (run (services_generation_failing "model overloaded") sample_request sample_disk)
    = sample_disk.
Proof.
  rewrite (generation_failure (services_generation_failing "model overloaded")
             sample_request sample_disk sample_file [x89; x50; x4e]
             "https://storage.example/3f2a" {| message := "model overloaded" |}
             eq_refl eq_refl eq_refl eq_refl).
  split; reflexivity.
Defined.

(** X5. When the temporary file cannot be read, the handler answers 500
    with the message of the file-system error and calls neither service. *)
Theorem unreadable_file (svc : services) (req : request)
    (disk : gmap string (list byte)) (f : multer_file) :
  file req = Some f ->
  disk !! path f = None ->
  run svc req disk =
    {| files := disk;
       trace := [ Respond 500 (JObj {[ "error" := JStr ("Failed to generate image. " +:+
                    ("ENOENT: no such file or directory, open '" +:+ path f +:+ "'")) ]}) ] |} /\
  existsb is_upload (trace (run svc req disk)) = false /\
  existsb is_subscribe (trace (run svc req disk)) = false.
Proof.
  intros Hf Hb. rewrite run_cases, Hf, Hb. repeat split; reflexivity.
Qed.

Lemma unreadable_file_witness :
  run (services_returning (images_data "https://cdn.example/out.png")) sample_request ∅ =
    {| files := ∅;
       trace := [ Respond 500 (JObj {[ "error" := JStr
         "Failed to generate image. ENOENT: no such file or directory, open 'uploads/3f2a'" ]}) ] |}.
Proof.
  destruct (unreadable_file (services_returning (images_data "https://cdn.example/out.png"))
              sample_request ∅ sample_file eq_refl (lookup_empty _)) as [H _].
  exact H.
Defined.

(** X6. Only the first element of the [images] list is looked at: when it
    has no usable [url] and the result has no [image] field, the request
    fails with "No image generated" whatever the rest of the list holds. *)
Theorem only_first_image (svc : services) (req : request)
    (disk : gmap string (list byte)) (f : multer_file) (bytes : list byte)
    (url : string) (r : subscribe_result) (fields : gmap string jsval)
    (head : jsval) (rest : list jsval) :
  file req = Some f ->
  disk !! path f = Some bytes ->
  storage_upload svc bytes (mimetype f) = Returned url ->
  subscribe svc MODEL (request_prompt req) [url] = Returned r ->
  data r = JObj fields ->
  fields !! "images" = Some (JArr (head :: rest)) ->
  truthy (prop head "url") = false ->
  fields !! "image" = None ->
  trace (run svc req disk) =
    [ StorageUpload bytes (mimetype f); Subscribe MODEL (request_prompt req) [url];
      Respond 500 (error_body "Failed to generate image. No image generated") ].
Proof.
  intros Hf Hb Hu Hs Hd Himgs Hhead Himg.
  rewrite (run_generated svc req disk f bytes url r Hf Hb Hu Hs), Hd.
  assert (Hurl : truthy (generatedImageUrl (JObj fields)) = false).
  { unfold generatedImageUrl, or_else. cbn [prop]. rewrite Himgs, Himg.
    cbn [default from_option id first]. rewrite Hhead. reflexivity. }
  rewrite Hurl. reflexivity.
Qed.

Lemma only_first_image_witness :
  trace (run (services_returning (second_image_data "https://cdn.example/two.png"))
             sample_request sample_disk) =
    [ StorageUpload [x89; x50; x4e] "image/png";
      Subscribe MODEL (request_prompt sample_request) ["https://storage.example/3f2a"];
      Respond 500 (error_body "Failed to generate image. No image generated") ].
Proof.
  exact (only_first_image (services_returning (second_image_data "https://cdn.example/two.png"))
           sample_request sample_disk sample_file [x89; x50; x4e]
           "https://storage.example/3f2a"
           {| data := second_image_data "https://cdn.example/two.png"; requestId := "req-1" |}
           {[ "images" := JArr [JObj ∅; JObj {[ "url" := JStr "https://cdn.example/two.png" ]}] ]}
           (JObj ∅) [JObj {[ "url" := JStr "https://cdn.example/two.png" ]}]
           eq_refl eq_refl eq_refl eq_refl eq_refl eq_refl eq_refl eq_refl).
Defined.

End RelayPaths.

(** ** The route as a whole *)

Module RouteFacts.
Import Num Dms Relay Route StringFacts DmsFacts RelayFacts.

(** Every path of the handler, by what the request, the disk, the
    environment and the two services give. *)
Lemma serve_cases (env : environment) (req : incoming) (disk : gmap string (list byte)) :
  serve env req disk =
    match req_body req with
    | Unparsed =>
        (Returned (),
         {| files := disk;
            trace := [Respond 500 (error_body ("Failed to generate image. " +:+
                        message (destructuring_error env)))] |})
    | Fields lat lng =>
        match req_file req with
        | None =>
            (Returned (),
             {| files := disk;
                trace := [Respond 400 (error_body "No image file provided")] |})
        | Some f =>
            match disk !! path f with
            | None =>
                (Returned (),
                 {| files := disk;
                    trace := [Respond 500 (error_body ("Failed to generate image. " +:+
                        ("ENOENT: no such file or directory, open '" +:+ path f +:+ "'")))] |})
            | Some bytes =>
                let up := StorageUpload bytes (mimetype f) in
                let disk1 := while_uploading env disk in
                let failed e :=
                  (Returned (),
                   {| files := disk1;
                      trace := [up; Respond 500 (error_body ("Failed to generate image. "
                                                             +:+ message e))] |}) in
                match storage_upload (fal env) bytes (mimetype f) with
                | Thrown e => failed e
                | Returned url =>
                    match parse env lat with
                    | Thrown e => failed e
                    | Returned latitude =>
                        match parse env lng with
                        | Thrown e => failed e
                        | Returned longitude =>
                            let prompt := prompt_of (convertToDMS latitude longitude) in
                            let gen := Subscribe MODEL prompt [url] in
                            let disk2 := while_generating env disk1 in
                            match subscribe (fal env) MODEL prompt [url] with
                            | Thrown e =>
                                (Returned (),
                                 {| files := disk2;
                                    trace := [up; gen;
                                              Respond 500 (error_body
                                                ("Failed to generate image. " +:+ message e))] |})
                            | Returned r =>
                                if truthy (generatedImageUrl (data r)) then
                                  let ok := Respond 200 (success_body
                                              (generatedImageUrl (data r)) (requestId r)) in
                                  match disk2 !! path f with
                                  | Some _ =>
                                      (Returned (),
                                       {| files := delete (path f) disk2;
                                          trace := [up; gen; ok; Unlink (path f)] |})
                                  | None =>
                                      (Thrown {| message :=
                                         "Cannot set headers after they are sent to the client" |},
                                       {| files := disk2; trace := [up; gen; ok] |})
                                  end
                                else
                                  (Returned (),
                                   {| files := disk2;
                                      trace := [up; gen;
                                                Respond 500 (error_body
                                                  "Failed to generate image. No image generated")] |})
                            end
                        end
                    end
                end
            end
        end
    end.
Proof.
  unfold serve, handle, try_catch, handle_try.
  destruct (req_body req) as [|lat lng]; [reflexivity|].
  destruct (req_file req) as [f|]; [|reflexivity].
  unfold mbind, M_bind, readFileSync, start. cbn [files trace].
  destruct (disk !! path f) as [bytes|] eqn:Hread; [|reflexivity].
  unfold upload_amid. cbn [files trace List.app]. cbv zeta.
  destruct (storage_upload (fal env) bytes (mimetype f)) as [url|e]; [|reflexivity].
  unfold lift.
  destruct (parse env lat) as [latitude|e]; [|reflexivity].
  destruct (parse env lng) as [longitude|e]; [|reflexivity].
  unfold subscribe_amid. cbn [files trace List.app].
  destruct (subscribe (fal env) MODEL _ [url]) as [r|e]; [|reflexivity].
  destruct (truthy (generatedImageUrl (data r))); cbn [negb]; [|reflexivity].
  unfold respond, emit, unlinkSync.
  cbn [files trace List.app existsb is_response orb].
  destruct (while_generating env (while_uploading env disk) !! path f); reflexivity.
Qed.

(** On fields that are strings or absent and on a disk nothing else
    touches, the handler is the handler above. *)
Lemma handle_quiet (svc : services) (req : request) (disk : gmap string (list byte)) :
  snd (serve (quiet svc) (as_incoming req) disk) = run svc req disk /\
  fst (serve (quiet svc) (as_incoming req) disk) = Returned ().
Proof.
  rewrite serve_cases, run_cases. unfold request_prompt.
  cbn [as_incoming req_body req_file quiet fal while_uploading while_generating].
  destruct (file req) as [f|]; [|split; reflexivity].
  destruct (disk !! path f) as [bytes|] eqn:Hread; [|split; reflexivity].
  cbv zeta. destruct (storage_upload svc bytes (mimetype f)) as [url|e];
    [|split; reflexivity].
  assert (Hlat : parse (quiet svc) (option_map Text (lat req))
                 = Returned (parseFloat (lat req))) by (destruct (lat req); reflexivity).
  assert (Hlng : parse (quiet svc) (option_map Text (lng req))
                 = Returned (parseFloat (lng req))) by (destruct (lng req); reflexivity).
  rewrite Hlat, Hlng.
  destruct (subscribe svc MODEL _ [url]) as [r|e]; [|split; reflexivity].
  destruct (truthy (generatedImageUrl (data r))); [|split; reflexivity].
  split; reflexivity.
Qed.

(** C2, amended.  No image file reaches the handler in three ways.  A
    middleware ends the request: Express answers with the status and the
    page of its error handler, and the handler does not run.  Nothing parsed
    the body ([req.body] is [undefined]): the destructuring of line 50
    throws inside the [try] block and the answer is 500,
    [{ error: 'Failed to generate image. ' + message }].  The body was parsed
    and there is no file: the answer is 400,
    [{ error: 'No image file provided' }].  In none of them is a service
    called or the disk changed. *)
Theorem missing_image_rejected (env : environment) (a : arrival)
    (disk : gmap string (list byte)) :
  (forall status page,
     a = Stopped status page ->
     answer env a disk = {| files := disk; trace := [Respond status page] |}) /\
  (forall req,
     a = Reaches req -> req_body req = Unparsed ->
     answer env a disk =
       {| files := disk;
          trace := [Respond 500 (JObj {[ "error" := JStr ("Failed to generate image. " +:+
                        message (destructuring_error env)) ]})] |}) /\
  (forall req lat lng,
     a = Reaches req -> req_body req = Fields lat lng -> req_file req = None ->
     answer env a disk =
       {| files := disk;
          trace := [Respond 400 (JObj {[ "error" := JStr "No image file provided" ]})] |}) /\
  ((forall req, a = Reaches req -> req_body req = Unparsed \/ req_file req = None) ->
   existsb is_upload (trace (answer env a disk)) = false /\
   existsb is_subscribe (trace (answer env a disk)) = false /\
   files (answer env a disk) = disk).
Proof.
  repeat apply conj.
  - intros status page ->. reflexivity.
  - intros req -> Hbody. unfold answer, route. fold (serve env req disk).
    rewrite serve_cases, Hbody. reflexivity.
  - intros req lat lng -> Hbody Hfile. unfold answer, route. fold (serve env req disk).
    rewrite serve_cases, Hbody, Hfile. reflexivity.
  - intros Hno. destruct a as [status page | req]; [repeat split; reflexivity|].
    unfold answer, route. fold (serve env req disk). rewrite serve_cases.
    destruct (Hno req eq_refl) as [Hbody | Hfile].
    + rewrite Hbody. repeat split; reflexivity.
    + rewrite Hfile. destruct (req_body req); repeat split; reflexivity.
Qed.

Lemma missing_image_rejected_witness :
  answer (quiet (services_returning (images_data "https://cdn.example/out.png")))
         (Reaches (as_incoming no_file_request)) sample_disk =
    {| files := sample_disk;
       trace := [Respond 400 (JObj {[ "error" := JStr "No image file provided" ]})] |} /\
  answer (quiet (services_returning (images_data "https://cdn.example/out.png")))
         (Reaches unparsed_request) sample_disk =
    {| files := sample_disk;
       trace := [Respond 500 (JObj {[ "error" := JStr "Failed to generate image. Cannot destructure property 'lat' of 'req.body' as it is undefined." ]})] |}.
Proof.
  destruct (missing_image_rejected
              (quiet (services_returning (images_data "https://cdn.example/out.png")))
              (Reaches (as_incoming no_file_request)) sample_disk) as (_ & _ & H400 & _).
  destruct (missing_image_rejected
              (quiet (services_returning (images_data "https://cdn.example/out.png")))
              (Reaches unparsed_request) sample_disk) as (_ & H500 & _).
  split.
  - exact (H400 _ _ _ eq_refl eq_refl eq_refl).
  - exact (H500 _ eq_refl eq_refl).
Defined.

(** A field that cannot be converted: with an image file and a form
    whose parts are named [lat[deg]], so that [req.body.lat] is an object
    without prototype, the file is uploaded, [parseFloat(lat)] throws, the
    answer is 500 and the generation service is not called, whatever the
    services are. *)
Example nested_field_stops_generation :
  req_file nested_lat_request = Some sample_file /\
  snd (serve (quiet (services_returning (images_data "https://cdn.example/out.png")))
             nested_lat_request sample_disk) =
    {| files := sample_disk;
       trace := [ StorageUpload [x89; x50; x4e] "image/png";
                  Respond 500 (JObj {[ "error" := JStr "Failed to generate image. Cannot convert object to primitive value" ]}) ] |} /\
  (forall svc,
     existsb is_subscribe (trace (snd (serve (quiet svc) nested_lat_request sample_disk)))
       = false).
Proof.
  split; [reflexivity|]. split; [rewrite serve_cases; reflexivity|].
  intros svc. rewrite serve_cases.
  assert (Hread : sample_disk !! path sample_file = Some [x89; x50; x4e]) by reflexivity.
  cbn [nested_lat_request req_body req_file]. rewrite Hread. cbv zeta.
  destruct (storage_upload (fal (quiet svc)) [x89; x50; x4e] (mimetype sample_file));
    reflexivity.
Qed.



End RouteFacts.

(** ** The handler on every request *)

Module RoutePaths.
Import Num Dms Relay Route StringFacts RelayFacts RouteFacts.

(** X1. What the handler does on a request has one of six shapes: a 400
    alone; a 500 alone; the upload and a 500; the upload, the generation
    call and a 500; the upload, the generation call, a 200 and the deletion
    of the temporary file; the upload, the generation call and a 200 alone.
    So each service is called at most once, the generation call never comes
    before the upload, and exactly one response is sent.  The handler
    returns normally in all but the last shape, which is the case of a
    temporary file that is gone when it is to be deleted: [unlinkSync]
    throws after the 200, the response of the [catch] block fails, the
    headers being sent, and the handler throws that error.  On a disk that
    nothing else touches this does not happen. *)
Theorem handler_shapes (env : environment) (req : incoming)
    (disk : gmap string (list byte)) :
  ((exists b, trace (snd (serve env req disk)) = [Respond 400 b]) \/
   (exists b, trace (snd (serve env req disk)) = [Respond 500 b]) \/
   (exists bytes mime b,
      trace (snd (serve env req disk)) = [StorageUpload bytes mime; Respond 500 b]) \/
   (exists bytes mime prompt url b,
      trace (snd (serve env req disk)) =
        [StorageUpload bytes mime; Subscribe "fal-ai/nano-banana-pro/edit" prompt [url];
         Respond 500 b]) \/
   (exists bytes mime prompt url b f,
      req_file req = Some f /\
      trace (snd (serve env req disk)) =
        [StorageUpload bytes mime; Subscribe "fal-ai/nano-banana-pro/edit" prompt [url];
         Respond 200 b; Unlink (path f)]) \/
   (exists bytes mime prompt url b,
      trace (snd (serve env req disk)) =
        [StorageUpload bytes mime; Subscribe "fal-ai/nano-banana-pro/edit" prompt [url];
         Respond 200 b])) /\
  (fst (serve env req disk) = Returned () \/
   fst (serve env req disk) =
     Thrown {| message := "Cannot set headers after they are sent to the client" |}) /\
  (fst (serve env req disk) = Returned () <->
   forall bytes mime prompt url b,
     trace (snd (serve env req disk)) <>
       [StorageUpload bytes mime; Subscribe "fal-ai/nano-banana-pro/edit" prompt [url];
        Respond 200 b]) /\
  (forall f,
     req_file req = Some f ->
     while_generating env (while_uploading env disk) !! path f = disk !! path f ->
     fst (serve env req disk) = Returned ()).
Proof.
  rewrite serve_cases.
  destruct (req_body req) as [|lat lng].
  { split; [right; left; eexists; reflexivity|]. split; [left; reflexivity|].
    split; [split; [intros _; discriminate | reflexivity] | reflexivity]. }
  destruct (req_file req) as [f|].
  2:{ split; [left; eexists; reflexivity|]. split; [left; reflexivity|].
      split; [split; [intros _; discriminate | reflexivity] | reflexivity]. }
  destruct (disk !! path f) as [bytes|] eqn:Hread.
  2:{ split; [right; left; eexists; reflexivity|]. split; [left; reflexivity|].
      split; [split; [intros _; discriminate | reflexivity] | reflexivity]. }
  cbv zeta. destruct (storage_upload (fal env) bytes (mimetype f)) as [url|e].
  2:{ split; [right; right; left; do 3 eexists; reflexivity|]. split; [left; reflexivity|].
      split; [split; [intros _; discriminate | reflexivity] | reflexivity]. }
  destruct (parse env lat) as [latitude|e].
  2:{ split; [right; right; left; do 3 eexists; reflexivity|]. split; [left; reflexivity|].
      split; [split; [intros _; discriminate | reflexivity] | reflexivity]. }
  destruct (parse env lng) as [longitude|e].
  2:{ split; [right; right; left; do 3 eexists; reflexivity|]. split; [left; reflexivity|].
      split; [split; [intros _; discriminate | reflexivity] | reflexivity]. }
  destruct (subscribe (fal env) MODEL _ [url]) as [r|e].
  2:{ split; [right; right; right; left; do 5 eexists; reflexivity|].
      split; [left; reflexivity|].
      split; [split; [intros _; discriminate | reflexivity] | reflexivity]. }
  destruct (truthy (generatedImageUrl (data r))).
  2:{ split; [right; right; right; left; do 5 eexists; reflexivity|].
      split; [left; reflexivity|].
      split; [split; [intros _; discriminate | reflexivity] | reflexivity]. }
  destruct (while_generating env (while_uploading env disk) !! path f) as [kept|] eqn:Hkept.
  - split; [right; right; right; right; left; do 5 eexists; exists f; split; reflexivity|].
    split; [left; reflexivity|].
    split; [split; [intros _; discriminate | reflexivity] | reflexivity].
  - split; [right; right; right; right; right; do 5 eexists; reflexivity|].
    split; [right; reflexivity|].
    split; [split; [intros H; cbn [fst] in H; discriminate H
                   | intros H; exfalso; eapply H; reflexivity]|].
    intros f' [= <-] Hsame. congruence.
Qed.

(** The sixth shape, on a disk that is swept while the generation runs. *)
Example handler_throws_after_200 :
  serve (sweeping (services_returning (images_data "https://cdn.example/out.png")))
        (as_incoming sample_request) sample_disk =
    (Thrown {| message := "Cannot set headers after they are sent to the client" |},
     {| files := ∅;
        trace := [ StorageUpload [x89; x50; x4e] "image/png";
                   Subscribe "fal-ai/nano-banana-pro/edit"
                     "Create an image of 25°11′50″N, 55°16′28″E with this person there. Use ONLY the person from the uploaded image - ignore all background, objects, and scenery from the original photo. Use good lighting and natural pose that fits the location. The person should look natural and well-integrated into the environment."
                     ["https://storage.example/3f2a"];
                   Respond 200
                     (JObj (<["success" := JBool true]>
              (<["imageUrl" := JStr "https://cdn.example/out.png"]>
              (<["message" := JStr "Image generated successfully with fal.ai"]>
              (<["requestId" := JStr "req-1"]> ∅))))) ] |}).
Proof. rewrite serve_cases. vm_compute. reflexivity. Qed.

(** X2. What the status says.  The answer of the handler is 400 exactly
    when the body was parsed and no file came with the request, and 200
    exactly when the file was read, the upload returned, both fields could
    be converted, the generation call returned and its result held a usable
    URL; the body of the 200 is then
    [{ success: true, imageUrl, message, requestId }] with that URL and the
    [requestId] of the generation call. *)
Theorem status_meaning (env : environment) (req : incoming)
    (disk : gmap string (list byte)) (status : Z) (body : jsval) :
  In (Respond status body) (trace (snd (serve env req disk))) ->
  (status = 400 <->
     exists lat lng, req_body req = Fields lat lng /\ req_file req = None) /\
  (status = 200 <->
     exists lat lng f bytes url latitude longitude r,
       req_body req = Fields lat lng /\ req_file req = Some f /\
       disk !! path f = Some bytes /\
       storage_upload (fal env) bytes (mimetype f) = Returned url /\
       parse env lat = Returned latitude /\ parse env lng = Returned longitude /\
       subscribe (fal env) "fal-ai/nano-banana-pro/edit"
         ("Create an image of " +:+ convertToDMS latitude longitude +:+
           " with this person there. Use ONLY the person from the uploaded image - ignore all background, objects, and scenery from the original photo. Use good lighting and natural pose that fits the location. The person should look natural and well-integrated into the environment.")
         [url] = Returned r /\
       truthy (or_else (prop (first (prop (data r) "images")) "url")
                       (prop (prop (data r) "image") "url")) = true /\
       body =
         JObj (<["success" := JBool true]>
              (<["imageUrl" := (or_else (prop (first (prop (data r) "images")) "url")
                                    (prop (prop (data r) "image") "url"))]>
              (<["message" := JStr "Image generated successfully with fal.ai"]>
              (<["requestId" := JStr (requestId r)]> ∅))))).
Proof.
  rewrite serve_cases.
  destruct (req_body req) as [|lat lng] eqn:Hbody.
  { cbn [snd trace In]. intros [[= <- <-]|[]].
    split; [split; [discriminate | intros (? & ? & [=] & _)]|].
    split; [discriminate | intros (? & ? & ? & ? & ? & ? & ? & ? & [=] & _)]. }
  destruct (req_file req) as [f|] eqn:Hfile.
  2:{ cbn [snd trace In]. intros [[= <- <-]|[]].
      split; [split; [intros _; exists lat, lng; split; reflexivity | reflexivity]|].
      split; [discriminate | intros (? & ? & ? & ? & ? & ? & ? & ? & _ & [=] & _)]. }
  assert (H400 : status <> 400 ->
            (status = 400 <->
               exists lat' lng', Fields lat lng = Fields lat' lng' /\ Some f = None)).
  { intros Hne. split; [intros; contradiction | intros (? & ? & _ & [=])]. }
  destruct (disk !! path f) as [bytes|] eqn:Hread.
  2:{ cbn [snd trace In]. intros [[= <- <-]|[]]. split; [apply H400; discriminate|].
      split; [discriminate|].
      intros (? & ? & ? & ? & ? & ? & ? & ? & _ & Hf & Hb & _). congruence. }
  cbv zeta. destruct (storage_upload (fal env) bytes (mimetype f)) as [url|e] eqn:Hup.
  2:{ cbn [snd trace In]. intros [[=]|[[= <- <-]|[]]]. split; [apply H400; discriminate|].
      split; [discriminate|].
      intros (? & ? & ? & ? & ? & ? & ? & ? & _ & Hf & Hb & Hu & _). congruence. }
  destruct (parse env lat) as [latitude|e] eqn:Hlat.
  2:{ cbn [snd trace In]. intros [[=]|[[= <- <-]|[]]]. split; [apply H400; discriminate|].
      split; [discriminate|].
      intros (? & ? & ? & ? & ? & ? & ? & ? & Hbd & _ & _ & _ & Hl & _). congruence. }
  destruct (parse env lng) as [longitude|e] eqn:Hlng.
  2:{ cbn [snd trace In]. intros [[=]|[[= <- <-]|[]]]. split; [apply H400; discriminate|].
      split; [discriminate|].
      intros (? & ? & ? & ? & ? & ? & ? & ? & Hbd & _ & _ & _ & _ & Hl & _). congruence. }
  destruct (subscribe (fal env) MODEL _ [url]) as [r|e] eqn:Hsub.
  2:{ cbn [snd trace In]. intros [[=]|[[=]|[[= <- <-]|[]]]].
      split; [apply H400; discriminate|]. split; [discriminate|].
      intros (? & ? & ? & ? & ? & ? & ? & ? & Hbd & Hf & Hb & Hu & Hl1 & Hl2 & Hs & _).
      unfold MODEL, prompt_of in Hsub. congruence. }
  destruct (truthy (generatedImageUrl (data r))) eqn:Hurl.
  2:{ cbn [snd trace In]. intros [[=]|[[=]|[[= <- <-]|[]]]].
      split; [apply H400; discriminate|]. split; [discriminate|].
      intros (? & ? & ? & ? & ? & ? & ? & r' & Hbd & Hf & Hb & Hu & Hl1 & Hl2 & Hs & Ht & _).
      unfold MODEL, prompt_of in Hsub. unfold generatedImageUrl in Hurl. congruence. }
  assert (Hbody200 : In (Respond status body)
            [StorageUpload bytes (mimetype f);
             Subscribe MODEL (prompt_of (convertToDMS latitude longitude)) [url];
             Respond 200 (success_body (generatedImageUrl (data r)) (requestId r))] ->
          status = 200 /\
          body = success_body (generatedImageUrl (data r)) (requestId r)).
  { cbn [In]. intros [[=]|[[=]|[[= <- <-]|[]]]]. split; reflexivity. }
  assert (Hdone : status = 200 ->
            body = success_body (generatedImageUrl (data r)) (requestId r) ->
            (status = 400 <->
               exists lat' lng', Fields lat lng = Fields lat' lng' /\ Some f = None) /\
            (status = 200 <->
               exists lat' lng' f' bytes' url' latitude' longitude' r',
                 Fields lat lng = Fields lat' lng' /\ Some f = Some f' /\
                 disk !! path f' = Some bytes' /\
                 storage_upload (fal env) bytes' (mimetype f') = Returned url' /\
                 parse env lat' = Returned latitude' /\ parse env lng' = Returned longitude' /\
                 subscribe (fal env) "fal-ai/nano-banana-pro/edit"
                   ("Create an image of " +:+ convertToDMS latitude' longitude' +:+
           " with this person there. Use ONLY the person from the uploaded image - ignore all background, objects, and scenery from the original photo. Use good lighting and natural pose that fits the location. The person should look natural and well-integrated into the environment.")
                   [url'] = Returned r' /\
                 truthy (or_else (prop (first (prop (data r') "images")) "url")
                                 (prop (prop (data r') "image") "url")) = true /\
                 body =
                   JObj (<["success" := JBool true]>
              (<["imageUrl" := (or_else (prop (first (prop (data r') "images")) "url")
                                    (prop (prop (data r') "image") "url"))]>
              (<["message" := JStr "Image generated successfully with fal.ai"]>
              (<["requestId" := JStr (requestId r')]> ∅)))))).
  { intros -> ->. split; [apply H400; discriminate|]. split; [intros _|reflexivity].
    exists lat, lng, f, bytes, url, latitude, longitude, r.
    repeat split; assumption || reflexivity. }
  destruct (while_generating env (while_uploading env disk) !! path f);
    cbn [snd trace]; intros Hin.
  - assert (Hin' : In (Respond status body)
              [StorageUpload bytes (mimetype f);
               Subscribe MODEL (prompt_of (convertToDMS latitude longitude)) [url];
               Respond 200 (success_body (generatedImageUrl (data r)) (requestId r))]).
    { cbn [In] in *. destruct Hin as [H|[H|[H|[H|[]]]]]; auto. discriminate H. }
    destruct (Hbody200 Hin') as [Hs Hb]. exact (Hdone Hs Hb).
  - destruct (Hbody200 Hin) as [Hs Hb]. exact (Hdone Hs Hb).
Qed.

Lemma status_meaning_witness :
  In (Respond 200 (JObj (<["success" := JBool true]>
              (<["imageUrl" := JStr "https://cdn.example/out.png"]>
              (<["message" := JStr "Image generated successfully with fal.ai"]>
              (<["requestId" := JStr "req-1"]> ∅))))))
     (trace (snd (serve (quiet (services_returning (images_data "https://cdn.example/out.png")))
                        (as_incoming sample_request) sample_disk))) /\
  exists r,
    subscribe (services_returning (images_data "https://cdn.example/out.png"))
      "fal-ai/nano-banana-pro/edit"
      "Create an image of 25°11′50″N, 55°16′28″E with this person there. Use ONLY the person from the uploaded image - ignore all background, objects, and scenery from the original photo. Use good lighting and natural pose that fits the location. The person should look natural and well-integrated into the environment."
      ["https://storage.example/3f2a"] = Returned r /\
    requestId r = "req-1".
Proof.
  assert (Hin : In (Respond 200 (JObj (<["success" := JBool true]>
              (<["imageUrl" := JStr "https://cdn.example/out.png"]>
              (<["message" := JStr "Image generated successfully with fal.ai"]>
              (<["requestId" := JStr "req-1"]> ∅))))))
     (trace (snd (serve (quiet (services_returning (images_data "https://cdn.example/out.png")))
                        (as_incoming sample_request) sample_disk))))
    by (rewrite serve_cases; vm_compute; right; right; left; reflexivity).
  split; [exact Hin|].
  destruct (status_meaning _ _ _ _ _ Hin) as [_ [Hto _]].
  destruct (Hto eq_refl)
    as (lat & lng & f & bytes & url & latitude & longitude & r & _ & _ & _ & _ & _ & _ & _ & _ & _).
  eexists. split; reflexivity.
Defined.

End RoutePaths.

(** ** The component: deleting, reloading, retrying *)

Module PageFacts.
Import Num DataUrl Client Relay Page StringFacts DataUrlFacts ClientFacts.


(** X8. When the storage refuses the new photo (the quota), the component
    shows and posts the new photo, but the cache still holds the photo
    uploaded before: after a reload it is the old photo that is shown and
    posted. *)
Theorem refused_write_brings_back_old_photo (b : browser) (old new : File) (st : app) :
  plain_type (type old) = true ->
  localStorage st !! STORAGE_KEY = Some (readAsDataURL old) ->
  storage_accepts b (readAsDataURL new) = false ->
  imageFile (handleImageUpload b [new] st) = Some new /\
  imagePreview (handleImageUpload b [new] st) = Some (readAsDataURL new) /\
  localStorage (handleImageUpload b [new] st) = localStorage st /\
  imageFile (loadSavedImage b (mount (localStorage (handleImageUpload b [new] st))))
    = Some (rebuilt_file (content old)) /\
  imagePreview (loadSavedImage b (mount (localStorage (handleImageUpload b [new] st))))
    = Some (readAsDataURL old).
Proof.
  intros Ht Hls Hfull. unfold handleImageUpload. rewrite Hfull.
  cbn [setImagePreview setImageFile imageFile imagePreview localStorage].
  repeat apply conj; try reflexivity.
  - rewrite (load_cached b old _ Ht Hls). reflexivity.
  - rewrite (load_cached b old _ Ht Hls). reflexivity.
Qed.

Lemma refused_write_brings_back_old_photo_witness :
  storage_accepts (small_storage_browser 40) (readAsDataURL sample_png) = true /\
  storage_accepts (small_storage_browser 40) (readAsDataURL sample_jpeg) = false /\
  imageFile (handleImageUpload (small_storage_browser 40) [sample_jpeg]
               (handleImageUpload (small_storage_browser 40) [sample_png] (mount ∅)))
    = Some sample_jpeg /\
  imageFile (loadSavedImage (small_storage_browser 40)
               (mount (localStorage
                  (handleImageUpload (small_storage_browser 40) [sample_jpeg]
                     (handleImageUpload (small_storage_browser 40) [sample_png] (mount ∅))))))
    = Some (rebuilt_file (content sample_png)).
Proof.
  split; [vm_compute; reflexivity|]. split; [vm_compute; reflexivity|].
  destruct (refused_write_brings_back_old_photo (small_storage_browser 40)
              sample_png sample_jpeg
              (handleImageUpload (small_storage_browser 40) [sample_png] (mount ∅)))
    as (H1 & _ & _ & H2 & _);
    [reflexivity | vm_compute; reflexivity | vm_compute; reflexivity |].
  split; [exact H1 | exact H2].
Defined.

(** X9. Whatever the storage holds when the component mounts, afterwards
    the preview, the file and the cache agree: either there is a preview,
    which is the cached string, not empty, and the file holds the bytes
    fetched from it under the name [uploaded-image.jpg]; or there is neither
    preview nor file, and the cache holds nothing or the empty string, a
    value that could not be fetched having been removed.  No other key is
    touched, and mounting again over the resulting storage gives the same
    state. *)
Theorem mount_invariant (b : browser) (ls : gmap string string) :
  ((exists p blob,
      p <> "" /\ ls !! STORAGE_KEY = Some p /\ fetch_blob b p = Some blob /\
      imagePreview (loadSavedImage b (mount ls)) = Some p /\
      imageFile (loadSavedImage b (mount ls)) = Some (rebuilt_file blob) /\
      localStorage (loadSavedImage b (mount ls)) = ls) \/
   (imagePreview (loadSavedImage b (mount ls)) = None /\
    imageFile (loadSavedImage b (mount ls)) = None /\
    (localStorage (loadSavedImage b (mount ls)) !! STORAGE_KEY = None \/
     localStorage (loadSavedImage b (mount ls)) !! STORAGE_KEY = Some ""))) /\
  (forall k, k <> STORAGE_KEY ->
     localStorage (loadSavedImage b (mount ls)) !! k = ls !! k) /\
  loadSavedImage b (mount (localStorage (loadSavedImage b (mount ls))))
    = loadSavedImage b (mount ls).
Proof.
  assert (Hload : forall ls', loadSavedImage b (mount ls') =
            match ls' !! STORAGE_KEY with
            | Some saved =>
                if String.eqb saved "" then mount ls'
                else match fetch_blob b saved with
                     | Some blob =>
                         {| selectedLocation := None;
                            imageFile := Some (rebuilt_file blob);
                            imagePreview := Some saved; error := None;
                            localStorage := ls' |}
                     | None => mount (delete STORAGE_KEY ls')
                     end
            | None => mount ls'
            end).
  { intros ls'. unfold loadSavedImage. cbn [mount localStorage].
    destruct (ls' !! STORAGE_KEY) as [saved|]; [|reflexivity].
    destruct (String.eqb saved ""); [reflexivity|].
    destruct (fetch_blob b saved); reflexivity. }
  rewrite (Hload ls).
  destruct (ls !! STORAGE_KEY) as [saved|] eqn:Hls.
  2:{ cbn [mount imagePreview imageFile localStorage].
      split; [right; auto|]. split; [reflexivity|]. rewrite Hload, Hls. reflexivity. }
  destruct (String.eqb_spec saved "") as [->|Hne].
  { cbn [mount imagePreview imageFile localStorage].
    split; [right; auto|]. split; [reflexivity|]. rewrite Hload, Hls. reflexivity. }
  destruct (fetch_blob b saved) as [blob|] eqn:Hfetch.
  - cbn [imagePreview imageFile localStorage].
    split; [left; exists saved, blob; repeat split; try assumption; reflexivity|].
    split; [reflexivity|]. rewrite Hload, Hls.
    destruct (String.eqb_spec saved "") as [|_]; [contradiction|].
    rewrite Hfetch. reflexivity.
  - cbn [mount imagePreview imageFile localStorage].
    split; [right; repeat split; left; apply lookup_delete_eq|].
    split; [intros k Hk; apply lookup_delete_ne; congruence|].
    rewrite Hload, lookup_delete_eq. reflexivity.
Qed.

(** A call of [handleGenerate] in the render whose state is the live
    state. *)
Lemma handleGenerate_closure (b : browser) (st : app) :
  handleGenerate b st = handleGenerate_of b st st.
Proof. reflexivity. Qed.

Lemma setImageFile_twice (f g : option File) (st : app) :
  setImageFile f (setImageFile g st) = setImageFile f st.
Proof. reflexivity. Qed.

(** X10. The retry of [handleGenerate] never posts.  Called in a render
    with a location and a preview but no file, the function rebuilds the
    file and sets a timer that calls the function of the same render, which
    still sees no file: every run of the timer rebuilds the file again and
    sets the next timer, whatever the live state has become.  The form is
    posted only by a call from a later render, one that sees the file. *)
Theorem retry_never_posts (b : browser) (render : app) (lat lng : number)
    (p : string) (blob : list byte) :
  selectedLocation render = Some (lat, lng) ->
  imageFile render = None ->
  imagePreview render = Some p -> p <> "" ->
  fetch_blob b p = Some blob ->
  handleGenerate b render = (setImageFile (Some (rebuilt_file blob)) render, Retry) /\
  (forall n live,
     timer_retries b render n live = (setImageFile (Some (rebuilt_file blob)) live, Retry)) /\
  handleGenerate b (setImageFile (Some (rebuilt_file blob)) render) =
    (setError None (setImageFile (Some (rebuilt_file blob)) render),
     Post {| form_lat := toString lat; form_lng := toString lng;
             form_image := rebuilt_file blob |}).
Proof.
  intros Hloc Hfile Hprev Hne Hfetch.
  assert (Hone : forall live,
            handleGenerate_of b render live
              = (setImageFile (Some (rebuilt_file blob)) live, Retry)).
  { intros live. unfold handleGenerate_of. rewrite Hloc, Hfile, Hprev.
    destruct (String.eqb_spec p "") as [|_]; [contradiction|].
    rewrite Hfetch. reflexivity. }
  split; [rewrite handleGenerate_closure; apply Hone|]. split.
  - induction n as [|n IH]; intros live; cbn [timer_retries].
    + apply Hone.
    + rewrite Hone, IH. rewrite setImageFile_twice. reflexivity.
  - unfold handleGenerate. cbn [setImageFile selectedLocation imageFile].
    rewrite Hloc. reflexivity.
Qed.

Lemma retry_never_posts_witness :
  timer_retries sample_browser
    (selectLocation zero zero
       (setImagePreview (Some (readAsDataURL sample_png)) (mount ∅)))
    7
    (selectLocation zero zero
       (setImagePreview (Some (readAsDataURL sample_png)) (mount ∅)))
  = (setImageFile (Some (rebuilt_file (content sample_png)))
       (selectLocation zero zero
          (setImagePreview (Some (readAsDataURL sample_png)) (mount ∅))),
     Retry).
Proof.
  destruct (retry_never_posts sample_browser
              (selectLocation zero zero
                 (setImagePreview (Some (readAsDataURL sample_png)) (mount ∅)))
              zero zero (readAsDataURL sample_png) (content sample_png))
    as (_ & H & _);
    [reflexivity | reflexivity | reflexivity | discriminate | vm_compute; reflexivity |].
  exact (H 7%nat _).
Defined.



End PageFacts.

(** ** From the component to the relay and back *)

Module WireFacts.
Import Num Dms DataUrl Client Relay Page Wire StringFacts RelayFacts DataUrlFacts ClientFacts.

(** A truthy value stays truthy through JSON, unless it is an infinite
    number, which arrives as [null]. *)
Lemma json_truthy (v : jsval) :
  truthy v = true ->
  truthy (default JUndefined (json v)) = true \/ exists s, v = JNum (S754_infinity s).
Proof.
  destruct v as [| |[|]|[s|s| |s m e]|str|items|fields]; cbn; intros H;
    try discriminate; try (left; reflexivity); try (left; exact H).
  right. exists s. reflexivity.
Qed.

(** The [imageUrl] the component reads in the body of a 200. *)
Lemma imageUrl_of_success (url : jsval) (rid : string) :
  imageUrl_of (default JUndefined (json (success_body url rid)))
    = Some (default JUndefined (json url)).
Proof.
  unfold success_body. cbn [json default from_option id imageUrl_of prop].
  rewrite lookup_omap.
  rewrite lookup_insert_ne by discriminate. rewrite lookup_insert_eq.
  cbn. reflexivity.
Qed.

(** X12. What the user sees of a request.  When the relay answered 200,
    the generated image is the URL of the body as JSON carries it, except
    that a URL that is an infinite number arrives as [null] and gives
    "No URL returned".  In every other case, whatever went wrong in the
    relay and whatever message its body holds, the user sees
    "Failed to generate image. Please try again.".  The component is never
    left loading. *)
Theorem reply_shown (svc : services) (req : request)
    (disk : gmap string (list byte)) (pg : page) :
  loading (answer_shown svc req disk pg) = false /\
  ((exists url rid,
      In (Respond 200 (success_body url rid)) (trace (run svc req disk)) /\
      ((truthy (default JUndefined (json url)) = true /\
        answer_shown svc req disk pg =
          setLoading false (setGeneratedImage (Some (default JUndefined (json url))) pg)) \/
       ((exists s, url = JNum (S754_infinity s)) /\
        answer_shown svc req disk pg =
          setLoading false (failed "Failed to generate image. No URL returned." pg)))) \/
   ((exists status msg,
       In (Respond status (error_body msg)) (trace (run svc req disk)) /\
       (status = 400 \/ status = 500)) /\
    answer_shown svc req disk pg =
      setLoading false (failed "Failed to generate image. Please try again." pg))).
Proof.
  split; [reflexivity|]. unfold answer_shown. rewrite run_cases.
  destruct (file req) as [f|].
  2:{ right. split; [do 2 eexists; split; [left; reflexivity | left; reflexivity]|].
      reflexivity. }
  destruct (disk !! path f) as [bytes|].
  2:{ right. split; [do 2 eexists; split; [left; reflexivity | right; reflexivity]|].
      reflexivity. }
  cbv zeta. destruct (storage_upload svc bytes (mimetype f)) as [url|e].
  2:{ right. split; [do 2 eexists; split; [right; left; reflexivity | right; reflexivity]|].
      reflexivity. }
  destruct (subscribe svc MODEL (request_prompt req) [url]) as [r|e].
  2:{ right.
      split; [do 2 eexists; split; [right; right; left; reflexivity | right; reflexivity]|].
      reflexivity. }
  destruct (truthy (generatedImageUrl (data r))) eqn:Hurl.
  2:{ right.
      split; [do 2 eexists; split; [right; right; left; reflexivity | right; reflexivity]|].
      reflexivity. }
  left. exists (generatedImageUrl (data r)), (requestId r).
  split; [right; right; left; reflexivity|].
  cbn [trace List.filter is_response reply_of].
  unfold receive. cbn [axios_post Z.leb Z.ltb Z.compare Pos.compare Pos.compare_cont andb].
  rewrite imageUrl_of_success.
  destruct (json_truthy _ Hurl) as [Hj | [s Hs]].
  - left. split; [exact Hj|]. rewrite Hj. reflexivity.
  - right. split; [exists s; exact Hs|]. rewrite Hs. reflexivity.
Qed.




End WireFacts.

(** ** The component in use *)

Module SessionFacts.
Import Num DataUrl Client Relay Page Session StringFacts DataUrlFacts ClientFacts.

(** The function of a render without a file posts nothing. *)
Lemma no_file_no_post (b : browser) (render live : app) :
  imageFile render = None ->
  snd (handleGenerate_of b render live) = Retry \/
  snd (handleGenerate_of b render live) = Nothing.
Proof.
  intros Hfile. unfold handleGenerate_of. rewrite Hfile.
  destruct (selectedLocation render) as [[lat lng]|]; [|right; reflexivity].
  destruct (imagePreview render) as [p|]; [|right; reflexivity].
  destruct (String.eqb p ""); [right; reflexivity|].
  destruct (fetch_blob b p); [left | right]; reflexivity.
Qed.

(** A call that ends in a retry was made without a file. *)
Lemma retry_without_file (b : browser) (st st' : app) :
  handleGenerate b st = (st', Retry) -> imageFile st = None.
Proof.
  unfold handleGenerate.
  destruct (selectedLocation st) as [[lat lng]|]; [|discriminate].
  destruct (imageFile st) as [f|]; [discriminate | reflexivity].
Qed.

Lemma step_settled (b : browser) (i : input) (s s' : session) :
  settled s -> step b i s = Some s' ->
  settled s' /\
  (length (posted s') + in_flight s =
   length (posted s) + in_flight s' + arrivals [i])%nat.
Proof.
  intros [Hfl Htm] Hstep. destruct i as [g | n | r]; cbn [step] in Hstep.
  - injection Hstep as <-. unfold arrivals. cbn [List.filter length].
    destruct g as [lat lng | lat lng | | files | | |]; cbn [on_gesture].
    + split; [split; [exact Hfl | exact Htm] | cbn; lia].
    + split; [split; [exact Hfl | exact Htm] | cbn; lia].
    + split; [split; [exact Hfl | exact Htm] | cbn; lia].
    + destruct (popup_open (now s) && negb (has_result (now s)) && negb (loading (now s)));
        (split; [split; [exact Hfl | exact Htm] | cbn; lia]).
    + destruct (popup_open (now s) && negb (has_result (now s))
                && shown (imagePreview (core (now s))) && negb (loading (now s)));
        (split; [split; [exact Hfl | exact Htm] | cbn; lia]).
    + destruct (popup_open (now s) && negb (has_result (now s))
                && negb (generate_disabled (now s))) eqn:Hguard;
        [|split; [split; [exact Hfl | exact Htm] | cbn; lia]].
      apply andb_true_iff in Hguard as [_ Hen]. apply negb_true_iff in Hen.
      unfold generate_disabled in Hen. apply orb_false_iff in Hen as [_ Hload].
      rewrite Hload in Hfl. unfold press.
      destruct (handleGenerate b (core (now s))) as [st [| | data]] eqn:Hgen.
      * split; [split; [cbn; rewrite Hload; exact Hfl | exact Htm] | cbn; lia].
      * split; [split; [cbn; rewrite Hload; exact Hfl|] | cbn; lia].
        cbn [timers]. apply Forall_app. split; [exact Htm|].
        apply Forall_cons. split; [|apply Forall_nil_2].
        exact (retry_without_file b _ _ Hgen).
      * split; [split; [cbn; rewrite Hfl; reflexivity | exact Htm]|].
        cbn [posted in_flight]. rewrite length_app. cbn. lia.
    + destruct (popup_open (now s) && has_result (now s));
        (split; [split; [exact Hfl | exact Htm] | cbn; lia]).
  - injection Hstep as <-. unfold arrivals. cbn [List.filter length]. unfold on_tick.
    destruct (timers s !! n) as [render|] eqn:Hn;
      [|split; [split; [exact Hfl | exact Htm] | lia]].
    assert (Hfile : imageFile render = None).
    { rewrite Forall_lookup in Htm. exact (Htm n render Hn). }
    destruct (no_file_no_post b render (core (now s)) Hfile) as [Ha | Ha];
      destruct (handleGenerate_of b render (core (now s))) as [live a];
      cbn [snd] in Ha; subst a.
    + split; [split; [exact Hfl | exact Htm] | cbn; lia].
    + split; [split; [exact Hfl | cbn [timers]; apply Forall_delete; exact Htm] | cbn; lia].
  - unfold on_reply in Hstep. destruct (in_flight s) as [|k] eqn:Hk; [discriminate|].
    injection Hstep as <-. unfold arrivals. cbn [List.filter length posted in_flight].
    destruct (loading (now s)); [|discriminate]. injection Hfl as ->.
    split; [split; [reflexivity | exact Htm] | lia].
Qed.

Lemma play_settled (b : browser) (inputs : list input) :
  forall s s', settled s -> play b inputs s = Some s' ->
  settled s' /\
  (length (posted s') + in_flight s =
   length (posted s) + in_flight s' + arrivals inputs)%nat.
Proof.
  induction inputs as [|i rest IH]; intros s s' Hs Hplay; cbn [play] in Hplay.
  - injection Hplay as <-. split; [exact Hs | cbn; lia].
  - destruct (step b i s) as [s1|] eqn:Hstep; [|discriminate].
    destruct (step_settled b i s s1 Hs Hstep) as [Hs1 Hc1].
    destruct (IH s1 s' Hs1 Hplay) as [Hs' Hc'].
    split; [exact Hs'|].
    assert (Harr : arrivals (i :: rest) = (arrivals [i] + arrivals rest)%nat).
    { unfold arrivals. cbn [List.filter]. destruct i; cbn [length]; lia. }
    lia.
Qed.

(** X17. One request at a time.  Whatever the user does after the
    component has mounted (clicks on the map, search results, closing the
    popup, choosing and deleting photos, pressing the buttons), whenever
    the timers of the retry run and whenever the replies arrive, at most
    one request is in flight, the component shows as loading exactly while
    one is, and the forms posted are as many as the replies that have
    arrived, plus the one in flight. *)
Theorem one_request_at_a_time (b : browser) (ls : gmap string string)
    (inputs : list input) (s : session) :
  play b inputs (opened b ls) = Some s ->
  (in_flight s <= 1)%nat /\
  (loading (now s) = true <-> in_flight s = 1%nat) /\
  length (posted s) = (arrivals inputs + in_flight s)%nat.
Proof.
  intros Hplay.
  assert (H0 : settled (opened b ls)) by (split; [reflexivity | apply Forall_nil_2]).
  destruct (play_settled b inputs _ _ H0 Hplay) as [[Hfl _] Hc].
  cbn [opened posted in_flight length] in Hc.
  destruct (loading (now s)); rewrite Hfl; repeat split; try lia; try discriminate.
  all: intros; try reflexivity; try discriminate.
Qed.

Lemma one_request_at_a_time_witness :
  exists s,
    play sample_browser
      [ Gesture (ClickMap zero zero); Gesture (ChooseFiles [sample_png]);
        Gesture ClickGenerate; Gesture ClickGenerate; Gesture (ClickMap zero zero);
        Gesture ClickGenerate; Arrive NoAnswer; Gesture ClickGenerate ]
      (opened sample_browser ∅) = Some s /\
    length (posted s) = 2%nat /\ in_flight s = 1%nat.
Proof.
  eexists. split; [vm_compute; reflexivity|].
  match goal with |- length (posted ?s) = _ /\ _ =>
    assert (Hplay : play sample_browser
      [ Gesture (ClickMap zero zero); Gesture (ChooseFiles [sample_png]);
        Gesture ClickGenerate; Gesture ClickGenerate; Gesture (ClickMap zero zero);
        Gesture ClickGenerate; Arrive NoAnswer; Gesture ClickGenerate ]
      (opened sample_browser ∅) = Some s) by (vm_compute; reflexivity);
    destruct (one_request_at_a_time _ _ _ _ Hplay) as (_ & Hload & Hcount)
  end.
  split.
  - rewrite Hcount. reflexivity.
  - apply Hload. reflexivity.
Defined.






(** X19. A timer of the retry overrides a photo chosen later.  In a
    render with a preview but no file, pressing the button starts the
    retry; if the user then chooses another photo, the next run of the
    timer puts the file rebuilt from the old preview back, and the next
    press posts the old photo while the preview shows the new one. *)
Theorem stale_timer_overrides_new_photo (b : browser) (f g : File) (s : session)
    (lat lng : number) :
  plain_type (type f) = true ->
  timers s = [] ->
  selectedLocation (core (now s)) = Some (lat, lng) ->
  has_result (now s) = false -> loading (now s) = false ->
  imageFile (core (now s)) = None ->
  imagePreview (core (now s)) = Some (readAsDataURL f) ->
  exists s',
    play b [ Gesture ClickGenerate; Gesture (ChooseFiles [g]); Tick 0;
             Gesture ClickGenerate ] s = Some s' /\
    imagePreview (core (now s')) = Some (readAsDataURL g) /\
    posted s' = posted s ++
      [ {| form_lat := toString lat; form_lng := toString lng;
           form_image := rebuilt_file (content f) |} ].
Proof.
  intros Ht Htimers Hloc Hres Hload Hfile Hprev.
  destruct s as [[st gen ld] tm fl ps]. cbn [now core timers posted] in *.
  cbn [has_result generatedImage loading] in Hres, Hload. subst tm ld.
  assert (Hgen1 : handleGenerate b st =
            (setImageFile (Some (rebuilt_file (content f))) st, Retry)).
  { unfold handleGenerate. rewrite Hloc, Hfile, Hprev. unfold readAsDataURL at 1.
    rewrite data_url_not_empty, (fetch_data_url b f Ht). reflexivity. }
  assert (Htick : forall live, handleGenerate_of b st live =
            (setImageFile (Some (rebuilt_file (content f))) live, Retry)).
  { intros live. unfold handleGenerate_of. rewrite Hloc, Hfile, Hprev.
    unfold readAsDataURL at 1.
    rewrite data_url_not_empty, (fetch_data_url b f Ht). reflexivity. }
  assert (Hgen : match gen with Some v => truthy v | None => false end = false)
    by exact Hres.
  set (rebuilt := Some (rebuilt_file (content f))) in *.
  set (pg0 := {| core := st; generatedImage := gen; loading := false |}).
  set (s0 := {| now := pg0; timers := []; in_flight := fl; posted := ps |}).
  set (s1 := {| now := setCore (setImageFile rebuilt st) pg0; timers := [st];
                in_flight := fl; posted := ps |}).
  assert (E1 : on_gesture b ClickGenerate s0 = s1).
  { unfold on_gesture, popup_open, has_result, generate_disabled, has_file, press.
    cbn [s0 pg0 now core generatedImage loading timers in_flight posted].
    rewrite Hloc, Hfile, Hprev, Hgen, Hgen1. unfold readAsDataURL at 1. cbn [shown].
    rewrite data_url_not_empty. reflexivity. }
  set (live2 := handleImageUpload b [g] (setImageFile rebuilt st)).
  assert (Hlive2 : selectedLocation live2 = Some (lat, lng) /\
                   imagePreview live2 = Some (readAsDataURL g)).
  { unfold live2, handleImageUpload.
    destruct (storage_accepts b (readAsDataURL g)); split; cbn; assumption || reflexivity. }
  destruct Hlive2 as [Hloc2 Hprev2].
  set (s2 := {| now := {| core := live2; generatedImage := gen; loading := false |};
                timers := [st]; in_flight := fl; posted := ps |}).
  assert (E2 : on_gesture b (ChooseFiles [g]) s1 = s2).
  { unfold on_gesture, popup_open, has_result.
    cbn [s1 pg0 now core setCore setImageFile generatedImage loading selectedLocation].
    rewrite Hloc, Hgen. reflexivity. }
  set (s3 := {| now := {| core := setImageFile rebuilt live2; generatedImage := gen;
                          loading := false |};
                timers := [st]; in_flight := fl; posted := ps |}).
  assert (E3 : on_tick b 0 s2 = s3).
  { unfold on_tick. cbn [s2 timers now core lookup list_lookup]. rewrite Htick. reflexivity. }
  exists {| now := setLoading true
                     {| core := setError None (setImageFile rebuilt live2);
                        generatedImage := gen; loading := false |};
            timers := [st]; in_flight := S fl;
            posted := ps ++ [ {| form_lat := toString lat; form_lng := toString lng;
                                 form_image := rebuilt_file (content f) |} ] |}.
  split; [|split; [exact Hprev2 | reflexivity]].
  cbn [play step]. rewrite E1, E2, E3. f_equal.
  unfold on_gesture, popup_open, has_result, generate_disabled, has_file, press,
    handleGenerate.
  cbn [s3 now core generatedImage loading timers in_flight posted
       setImageFile selectedLocation imageFile rebuilt].
  rewrite Hloc2, Hgen. reflexivity.
Qed.

Lemma stale_timer_overrides_new_photo_witness :
  exists s',
    play sample_browser
      [ Gesture ClickGenerate; Gesture (ChooseFiles [sample_jpeg]); Tick 0;
        Gesture ClickGenerate ] reopened_session = Some s' /\
    imagePreview (core (now s')) = Some (readAsDataURL sample_jpeg) /\
    posted s' = [ {| form_lat := "0"; form_lng := "0";
                     form_image := rebuilt_file (content sample_png) |} ].
Proof.
  destruct (stale_timer_overrides_new_photo sample_browser sample_png sample_jpeg
              reopened_session zero zero)
    as (s' & Hplay & Hprev & Hposted);
    [reflexivity | reflexivity | reflexivity | reflexivity | reflexivity | reflexivity
     | reflexivity |].
  exists s'. split; [exact Hplay|]. split; [exact Hprev | exact Hposted].
Defined.

End SessionFacts.

(** ** [convertToDMS]: whole degrees and mirrored coordinates *)

Module DmsMoreFacts.
Import Num Dms Accuracy NumFacts StringFacts DmsFacts.

(** The hemisphere letter is the last thing of an axis. *)
Lemma axis_string_letter (c : dms) (h : string) :
  axis_string c h = axis_string c "" +:+ h.
Proof. unfold axis_string. rewrite !append_assoc. reflexivity. Qed.

Lemma whole_ok_all :
  forallb (fun i => whole_ok (Z.of_nat i - 180)) (seq 0 361) = true.
Proof. vm_compute. reflexivity. Qed.

Lemma whole_axis (d : Z) (pos neg : string) :
  -180 <= d <= 180 ->
  axis_string (dms_of (ofZ d)) (if ge (ofZ d) zero then pos else neg) =
    decimal (Z.abs d) +:+ "°0′0″" +:+ (if 0 <=? d then pos else neg).
Proof.
  intros Hd. pose proof whole_ok_all as H.
  rewrite forallb_forall in H. specialize (H (Z.to_nat (d + 180))).
  rewrite Z2Nat.id in H by lia. replace (d + 180 - 180) with d in H by lia.
  assert (Hin : In (Z.to_nat (d + 180)) (seq 0 361)) by (apply in_seq; lia).
  apply H in Hin. unfold whole_ok in Hin.
  apply andb_true_iff in Hin as [Hs Hg].
  apply String.eqb_eq in Hs. apply Bool.eqb_prop in Hg.
  rewrite axis_string_letter, Hs, Hg, append_assoc. reflexivity.
Qed.

(** X14. Whole degrees print without minutes and seconds: for integers
    [a] and [b] between -180 and 180, [convertToDMS(a, b)] is
    [|a|°0′0″] with [N] or [S], then [|b|°0′0″] with [E] or [W], the
    letters [N] and [E] going with zero. *)
Theorem whole_degrees (a b : Z) :
  -180 <= a <= 180 -> -180 <= b <= 180 ->
  convertToDMS (ofZ a) (ofZ b) =
    (decimal (Z.abs a) +:+ "°0′0″" +:+ (if 0 <=? a then "N" else "S")) +:+ ", " +:+
    (decimal (Z.abs b) +:+ "°0′0″" +:+ (if 0 <=? b then "E" else "W")).
Proof.
  intros Ha Hb. rewrite convertToDMS_axes.
  rewrite (whole_axis a "N" "S" Ha), (whole_axis b "E" "W" Hb). reflexivity.
Qed.

Lemma whole_degrees_witness :
  convertToDMS (ofZ (-34)) (ofZ 151) = "34°0′0″S, 151°0′0″E".
Proof.
  rewrite (whole_degrees (-34) 151); [reflexivity | lia | lia].
Defined.

Lemma dms_of_neg (v : number) : dms_of (neg v) = dms_of v.
Proof. destruct v as [s | s | | s m e]; reflexivity. Qed.

Lemma ge_neg (v : number) :
  nonzero v = true -> ge (neg v) zero = negb (ge v zero).
Proof.
  destruct v as [s | s | | s m e]; cbn; try discriminate; intros _;
    destruct s; reflexivity.
Qed.

(** X15. Mirrored coordinates print alike: for coordinates that are
    neither zero nor [NaN], negating both changes the two letters, [N] for
    [S] and [E] for [W], and nothing else. *)
Theorem convertToDMS_mirror (lat lng : number) :
  nonzero lat = true -> nonzero lng = true ->
  convertToDMS lat lng =
    axis_string (dms_of lat) (if ge lat zero then "N" else "S") +:+ ", " +:+
    axis_string (dms_of lng) (if ge lng zero then "E" else "W") /\
  convertToDMS (neg lat) (neg lng) =
    axis_string (dms_of lat) (if ge lat zero then "S" else "N") +:+ ", " +:+
    axis_string (dms_of lng) (if ge lng zero then "W" else "E").
Proof.
  intros Hlat Hlng. split; [apply convertToDMS_axes|].
  rewrite convertToDMS_axes, !dms_of_neg, (ge_neg lat Hlat), (ge_neg lng Hlng).
  destruct (ge lat zero), (ge lng zero); reflexivity.
Qed.

Lemma convertToDMS_mirror_witness :
  convertToDMS (ofDecimal 338688 (-4)) (ofDecimal 1512093 (-4)) = "33°52′8″N, 151°12′33″E" /\
  convertToDMS (neg (ofDecimal 338688 (-4))) (neg (ofDecimal 1512093 (-4)))
    = "33°52′8″S, 151°12′33″W".
Proof.
  destruct (convertToDMS_mirror (ofDecimal 338688 (-4)) (ofDecimal 1512093 (-4)))
    as [H1 H2]; [vm_compute; reflexivity | vm_compute; reflexivity |].
  split; [rewrite H1 | rewrite H2]; vm_compute; reflexivity.
Defined.

End DmsMoreFacts.

(** ** The accuracy of [convertToDMS] *)

Module AccuracyFacts.
Import Num Dms Accuracy NumFacts StringFacts DmsFacts.

(** The fractional part is computed exactly: in units of [2 ^ -1074] it is
    the number less its floor. *)
Lemma frac_value (m : positive) (e : Z) :
  bounded prec emax m e = true -> e < 0 ->
  scaled (sub (S754_finite false m e) (Math_floor (S754_finite false m e)))
    = Z.pos m * 2 ^ (e + 1074) - Z.pos m / 2 ^ (- e) * 2 ^ 1074.
Proof.
  intros Hb He. pose proof Hb as Hb'. apply bounded_spec in Hb' as [Hc Hmax].
  pose proof (digits2_pos_bounds m) as [Mlo Mhi].
  set (dm := Z.pos (digits2_pos m)) in *.
  set (k := - e). assert (Hk : 0 < k) by lia.
  assert (H2k : 0 < 2 ^ k) by (apply pow2_pos; lia).
  assert (HU : 2 ^ 1074 = 2 ^ k * 2 ^ (e + 1074)).
  { rewrite <- Z.pow_add_r by lia. f_equal. lia. }
  rewrite HU. set (W := 2 ^ (e + 1074)).
  pose proof (Z.div_mod (Z.pos m) (2 ^ k) ltac:(lia)) as Hdiv.
  unfold Math_floor. replace (0 <=? e) with false by (symmetry; apply Z.leb_gt; lia).
  cbn [cond_Zopp]. fold k. set (d := Z.pos m / 2 ^ k) in *.
  assert (Hd0 : 0 <= d) by (apply Z.div_pos; lia).
  destruct (Z.eqb_spec d 0) as [Hz|Hnz].
  - change (sub (S754_finite false m e) (S754_zero false)) with (S754_finite false m e).
    cbn [scaled cond_Zopp]. fold W. rewrite Hz. ring.
  - assert (Hd1 : 1 <= d) by lia.
    assert (Hmk : 2 ^ k <= Z.pos m).
    { destruct (Z_lt_le_dec (Z.pos m) (2 ^ k)) as [Hlt|]; [|assumption].
      assert (d = 0) by (subst d; apply Z.div_small; lia). lia. }
    assert (Hdm : dm = 53).
    { destruct (Z.eq_dec dm 53); [assumption|].
      assert (e = -1074) by lia.
      assert (2 ^ dm <= 2 ^ k) by (apply Z.pow_le_mono_r; lia). lia. }
    assert (Hk52 : k <= 52).
    { destruct (Z_lt_le_dec 52 k); [|lia].
      assert (2 ^ dm <= 2 ^ k) by (apply Z.pow_le_mono_r; lia). lia. }
    destruct d as [|pd|pd] eqn:Ed; try lia.
    assert (Hdig : Z.pos (digits2_pos pd) = 53 - k).
    { apply digits2_pos_unique. rewrite <- Ed. split.
      - apply Z.div_le_lower_bound; [lia|]. rewrite <- Z.pow_add_r by lia.
        replace (k + (53 - k - 1)) with (dm - 1) by lia. exact Mlo.
      - apply Z.div_lt_upper_bound; [lia|]. rewrite <- Z.pow_add_r by lia.
        replace (k + (53 - k)) with dm by lia. exact Mhi. }
    unfold ofZ, binary_normalize.
    destruct (binary_round_shl false pd 0) as (md & Hmd & Vmd & Bmd).
    { rewrite fexp_eq. lia. } { rewrite fexp_eq. lia. }
    rewrite fexp_eq in Hmd, Vmd, Bmd.
    replace (Z.max (Z.pos (digits2_pos pd) + 0 - 53) (-1074)) with e in * by lia.
    rewrite Hmd. replace (0 - e) with k in Vmd by lia.
    unfold sub, SFsub. rewrite Z.min_id. unfold shl_align. rewrite Z.sub_diag.
    cbn [fst cond_Zopp].
    assert (Hr : Z.pos m - Z.pos md = Z.pos m mod 2 ^ k).
    { rewrite Vmd. lia. }
    rewrite Hr. pose proof (Z.mod_pos_bound (Z.pos m) (2 ^ k) H2k) as Hmod.
    destruct (Z.pos m mod 2 ^ k) as [|pr|pr] eqn:Er; try lia.
    + cbn [binary_normalize scaled]. lia.
    + cbn [binary_normalize].
      pose proof (digits2_pos_bounds pr) as [Rlo Rhi].
      assert (Hdr : Z.pos (digits2_pos pr) <= k).
      { destruct (Z_lt_le_dec k (Z.pos (digits2_pos pr))); [|lia].
        assert (2 ^ k <= 2 ^ (Z.pos (digits2_pos pr) - 1)) by (apply Z.pow_le_mono_r; lia). lia. }
      destruct (binary_round_shl false pr e) as (mf & Hmf & Vmf & Bmf).
      { rewrite fexp_eq. lia. } { rewrite fexp_eq. lia. }
      rewrite fexp_eq in Hmf, Vmf, Bmf.
      set (ef := Z.max (Z.pos (digits2_pos pr) + e - 53) (-1074)) in *.
      rewrite Hmf. cbn [scaled cond_Zopp]. rewrite Vmf.
      rewrite <- Z.mul_assoc, <- Z.pow_add_r by lia.
      replace (e - ef + (ef + 1074)) with (e + 1074) by lia. fold W. lia.
Qed.

(** A fraction times sixty is off the exact product by at most
    [2 ^ -47]. *)
Lemma mul_sixty_value (x : number) :
  below 1 x ->
  Z.abs (scaled (mul x sixty) - 60 * scaled x) <= 2 ^ 1027.
Proof.
  assert (HP : 0 < 2 ^ 1027) by (apply pow2_pos; lia).
  intros [-> | (mf & ef & -> & Hb & Hef & Hlt)].
  { rewrite sixty_eq. unfold mul. cbn [SFmul xorb scaled]. lia. }
  rewrite Z.mul_1_l in Hlt.
  apply bounded_spec in Hb as [Hc Hmax].
  pose proof (digits2_pos_bounds mf) as [Flo Fhi].
  set (df := Z.pos (digits2_pos mf)) in *.
  rewrite sixty_eq. unfold mul, SFmul. cbn [xorb].
  set (M := (mf * 8444249301319680)%positive).
  set (E := ef + -47).
  assert (HM : Z.pos M = Z.pos mf * 8444249301319680)
    by (subst M; apply Pos2Z.inj_mul).
  pose proof (digits2_pos_bounds M) as [Mlo Mhi].
  pose proof (binary_round_aux_inexact false M E) as RA. cbv zeta in RA.
  rewrite fexp_eq in RA.
  set (dM := Z.pos (digits2_pos M)) in *.
  set (e' := Z.max (dM + E - 53) (-1074)) in *.
  set (K := 2 ^ (- ef)) in *.
  assert (HK : 0 < K) by (apply pow2_pos; lia).
  assert (HX : 2 ^ (- E) = 140737488355328 * K).
  { subst E K. replace (- (ef + -47)) with (47 + - ef) by lia.
    rewrite Z.pow_add_r by lia. reflexivity. }
  set (X := 2 ^ (- E)) in *.
  assert (HMlt : Z.pos M + 8444249301319680 <= 60 * X) by lia.
  assert (HdM : dM + E <= 6).
  { destruct (Z_lt_le_dec 6 (dM + E)); [|lia].
    assert (H64 : 2 ^ (6 + - E) <= 2 ^ (dM - 1)) by (apply Z.pow_le_mono_r; lia).
    rewrite Z.pow_add_r in H64 by lia. change (2 ^ 6) with 64 in H64.
    fold X in H64. lia. }
  assert (He' : e' <= -47) by lia.
  assert (Hn : 0 < e' - E).
  { destruct (Z.eq_dec ef (-1074)); [subst E; lia|].
    assert (df = 53) by lia.
    assert (4503599627370496 <= Z.pos mf)
      by (change 4503599627370496 with (2 ^ 52);
          replace 52 with (df - 1) by lia; exact Flo).
    assert (dM + E - 53 > E); [|lia].
    destruct (Z_lt_le_dec 100 dM); [lia|].
    assert (H100 : 2 ^ dM <= 2 ^ 100) by (apply Z.pow_le_mono_r; lia).
    change (2 ^ 100) with 1267650600228229401496703205376 in H100. lia. }
  destruct RA as (m1 & [Hlo Hhi] & _ & Hres); [exact Hn | lia |].
  set (n := e' - E) in *.
  set (N := 2 ^ n) in *.
  assert (HN : 0 < N) by (apply pow2_pos; lia).
  pose proof (Z.div_mod (Z.pos M) N ltac:(lia)) as Hdm.
  pose proof (Z.mod_pos_bound (Z.pos M) N HN) as Hmod.
  set (q := Z.pos M / N) in *. set (r := Z.pos M mod N) in *.
  (* in units of [2 ^ -1121]: the product is [M * T], the result [m1 * N * T] *)
  assert (HE : 0 <= E + 1121) by (subst E; lia).
  set (T := 2 ^ (E + 1121)).
  assert (HT : 0 < T) by (apply pow2_pos; lia).
  assert (Hx : Z.pos mf * 2 ^ (ef + 1074) = Z.pos mf * T).
  { subst T E. f_equal. f_equal. lia. }
  assert (He'T : 2 ^ (e' + 1121) = N * T).
  { subst N T n. rewrite <- (Z.pow_add_r 2 (e' - E) (E + 1121)) by lia. f_equal. lia. }
  assert (Hres' : 140737488355328 *
                    scaled (binary_round_aux prec emax false (Z.pos M) E loc_Exact)
                  = m1 * (N * T)).
  { destruct Hres as [[-> ->] | (m2 & e2 & -> & Hb2 & He2 & Hv)]; [cbn; ring|].
    cbn [scaled cond_Zopp]. rewrite <- He'T, <- Hv.
    assert (H1 : 0 <= e2 - e') by lia. assert (H2 : 0 <= e' + 1121) by lia.
    assert (H3 : 0 <= e2 + 1074) by lia.
    rewrite <- Z.mul_assoc, <- (Z.pow_add_r 2 (e2 - e') (e' + 1121) H1 H2).
    replace (e2 - e' + (e' + 1121)) with (47 + (e2 + 1074)) by (clear; lia).
    rewrite (Z.pow_add_r 2 47 (e2 + 1074) ltac:(clear; lia) H3).
    change (2 ^ 47) with 140737488355328. ring. }
  assert (Hbound : N * T <= 140737488355328 * 2 ^ 1027).
  { rewrite <- He'T. change 140737488355328 with (2 ^ 47).
    rewrite <- (Z.pow_add_r 2 47 1027) by lia. apply Z.pow_le_mono_r; lia. }
  cbn [scaled cond_Zopp].
  set (R := scaled (binary_round_aux prec emax false (Z.pos M) E loc_Exact)) in *.
  set (V := Z.pos mf * 2 ^ (ef + 1074)) in *.
  set (NT := N * T) in *.
  assert (HNT : 0 < NT) by (subst NT; apply Z.mul_pos_pos; assumption).
  assert (Hexact : 140737488355328 * (60 * V) = (N * q + r) * T).
  { rewrite <- Hdm, HM.
    subst V. rewrite Hx. ring. }
  assert (HqT : N * q * T = q * NT) by (subst NT; ring).
  assert (HrT : 0 <= r * T < NT).
  { subst NT. split; [apply Z.mul_nonneg_nonneg; lia|].
    apply Z.mul_lt_mono_pos_r; lia. }
  assert (Hm1 : m1 * NT = q * NT \/ m1 * NT = q * NT + NT).
  { destruct (Z.eq_dec m1 q) as [->|]; [left; reflexivity|].
    right. replace m1 with (q + 1) by lia. ring. }
  set (P2 := 2 ^ 1027) in *.
  replace ((N * q + r) * T) with (q * NT + r * T) in Hexact by (subst NT; ring).
  set (rT := r * T) in *. set (qNT := q * NT) in *. set (m1NT := m1 * NT) in *.
  clearbody R V NT rT qNT m1NT P2. clear - Hres' Hexact HrT Hm1 Hbound. lia.
Qed.

Lemma floor_value (B : Z) (x : number) :
  below B x ->
  exists d, 0 <= d < Z.max B 1 /\ Math_floor x = nat_number d /\
            below 1 (sub x (Math_floor x)) /\
            scaled (sub x (Math_floor x)) = scaled x - d * 2 ^ 1074.
Proof.
  intros [-> | (m & e & -> & Hb & He & Hlt)].
  - exists 0. split; [lia|]. split; [reflexivity|]. split; [left; reflexivity|].
    reflexivity.
  - assert (H2k : 0 < 2 ^ (- e)) by (apply pow2_pos; lia).
    exists (Z.pos m / 2 ^ (- e)). split; [|split; [|split]].
    + split; [apply Z.div_pos; lia|].
      apply Z.div_lt_upper_bound; [lia|].
      assert (B <= Z.max B 1) by lia.
      assert (B * 2 ^ (- e) <= Z.max B 1 * 2 ^ (- e))
        by (apply Z.mul_le_mono_nonneg_r; lia).
      lia.
    + unfold Math_floor, nat_number.
      replace (0 <=? e) with false by (symmetry; apply Z.leb_gt; lia).
      reflexivity.
    + apply frac_part; assumption.
    + rewrite (frac_value m e Hb He). reflexivity.
Qed.

Lemma round_value (B : Z) (x : number) :
  below B x ->
  exists s, 0 <= s <= Z.max B 0 /\ Math_round x = nat_number s /\
            Z.abs (2 * (s * 2 ^ 1074) - 2 * scaled x) <= 2 ^ 1074.
Proof.
  intros [-> | (m & e & -> & Hb & He & Hlt)].
  - exists 0. split; [lia|]. split; [reflexivity|].
    assert (0 < 2 ^ 1074) by (apply pow2_pos; lia). cbn [scaled]. lia.
  - pose proof Hb as Hb'. apply bounded_spec in Hb' as [Hc _].
    set (k := - e) in *.
    assert (H2k : 0 < 2 ^ k) by (apply pow2_pos; lia).
    assert (HQ : 2 ^ (k + 1) = 2 * 2 ^ k)
      by (rewrite Z.pow_add_r, Z.pow_1_r by lia; ring).
    set (s := (2 * Z.pos m + 2 ^ k) / 2 ^ (k + 1)).
    pose proof (Z.div_mod (2 * Z.pos m + 2 ^ k) (2 ^ (k + 1)) ltac:(lia)) as Hdiv.
    pose proof (Z.mod_pos_bound (2 * Z.pos m + 2 ^ k) (2 ^ (k + 1)) ltac:(lia)) as Hmod.
    fold s in Hdiv. rewrite HQ in Hdiv, Hmod.
    set (K := 2 ^ k) in *. set (r := (2 * Z.pos m + K) mod (2 * K)) in *.
    assert (Hs0 : 0 <= s) by (subst s; apply Z.div_pos; lia).
    exists s. split; [|split].
    + split; [exact Hs0|].
      assert (B <= Z.max B 0) by lia.
      assert (B * K <= Z.max B 0 * K) by (apply Z.mul_le_mono_nonneg_r; lia).
      assert (HsK : 2 * s * K <= 2 * Z.max B 0 * K + K) by lia.
      destruct (Z_le_gt_dec s (Z.max B 0)) as [|Hgt]; [assumption|].
      assert ((Z.max B 0 + 1) * K <= s * K) by (apply Z.mul_le_mono_nonneg_r; lia).
      lia.
    + unfold Math_round, nat_number.
      replace (0 <=? e) with false by (symmetry; apply Z.leb_gt; lia).
      cbn [cond_Zopp]. replace (- e + 1) with (k + 1) by lia. reflexivity.
    + cbn [scaled cond_Zopp].
      assert (HU : 2 ^ 1074 = K * 2 ^ (e + 1074)).
      { subst K k. rewrite <- Z.pow_add_r by lia. f_equal. lia. }
      rewrite HU. set (W := 2 ^ (e + 1074)).
      assert (HW : 0 < W) by (apply pow2_pos; lia).
      replace (2 * (s * (K * W)) - 2 * (Z.pos m * W))
        with ((2 * s * K - 2 * Z.pos m) * W) by ring.
      rewrite Z.abs_mul, (Z.abs_eq W) by lia.
      apply Z.mul_le_mono_nonneg_r; lia.
Qed.

Lemma scaled_abs (v : number) : scaled (Math_abs v) = Z.abs (scaled v).
Proof.
  destruct v as [s | s | | s m e]; try reflexivity.
  cbn [Math_abs SFabs scaled cond_Zopp].
  assert (0 < 2 ^ (e + 1074) \/ 2 ^ (e + 1074) = 0).
  { destruct (Z_le_gt_dec 0 (e + 1074)); [left; apply pow2_pos; lia|].
    right. apply Z.pow_neg_r. lia. }
  destruct s; cbn [cond_Zopp]; nia.
Qed.

(** The three components of an axis whose absolute value is below [B],
    and how far they are from it. *)
Lemma dms_of_value (B : Z) (v : number) :
  1 <= B -> below B (Math_abs v) ->
  exists d m s,
    0 <= d < B /\ 0 <= m <= 59 /\ 0 <= s <= 60 /\
    deg (dms_of v) = nat_number d /\
    min (dms_of v) = nat_number m /\
    sec (dms_of v) = nat_number s /\
    Z.abs (3600 * Z.abs (scaled v) - arcseconds d m s * 2 ^ 1074)
      <= 2 ^ 1073 + 61 * 2 ^ 1027.
Proof.
  intros HB Ha. rewrite <- scaled_abs. unfold dms_of. cbn [deg min sec].
  set (a := Math_abs v) in *.
  destruct (floor_value B a Ha) as (d & Hd & ED & F1 & V1).
  pose proof (mul_sixty _ F1) as P1. pose proof (mul_sixty_value _ F1) as W1.
  destruct (floor_value 60 _ P1) as (m & Hm & EM & F2 & V2).
  pose proof (mul_sixty _ F2) as P2. pose proof (mul_sixty_value _ F2) as W2.
  destruct (round_value 60 _ P2) as (s & Hs & ES & R).
  exists d, m, s. repeat split; try lia; try assumption.
  unfold arcseconds.
  assert (H74 : 2 ^ 1074 = 140737488355328 * 2 ^ 1027)
    by (change 140737488355328 with (2 ^ 47); rewrite <- Z.pow_add_r by lia; reflexivity).
  assert (H73 : 2 ^ 1073 = 70368744177664 * 2 ^ 1027)
    by (change 70368744177664 with (2 ^ 46); rewrite <- Z.pow_add_r by lia; reflexivity).
  rewrite H74 in *. rewrite H73.
  set (U := 2 ^ 1027) in *.
  set (f1 := scaled (sub a (Math_floor a))) in *.
  set (x1 := scaled (mul (sub a (Math_floor a)) sixty)) in *.
  set (f2 := scaled (sub (mul (sub a (Math_floor a)) sixty)
                         (Math_floor (mul (sub a (Math_floor a)) sixty)))) in *.
  set (x2 := scaled (mul (sub (mul (sub a (Math_floor a)) sixty)
                              (Math_floor (mul (sub a (Math_floor a)) sixty))) sixty)) in *.
  set (sa := scaled a) in *.
  clearbody U f1 x1 f2 x2 sa. clear - V1 W1 V2 W2 R. lia.
Qed.

(** X16. For a coordinate between -180 and 180 the degrees, minutes and
    seconds that [convertToDMS] prints are within half a second of arc, and
    [61 * 2 ^ -47] of a second more for the roundings of the arithmetic, of
    the absolute value of the coordinate. *)
Theorem convertToDMS_accuracy (v : number) :
  is_double v -> ge v (ofZ (-180)) = true -> ge (ofZ 180) v = true ->
  exists d m s,
    int_value (deg (dms_of v)) = Some d /\
    int_value (min (dms_of v)) = Some m /\
    int_value (sec (dms_of v)) = Some s /\
    (forall h, axis_string (dms_of v) h =
       decimal d +:+ "°" +:+ decimal m +:+ "′" +:+ decimal s +:+ "″" +:+ h) /\
    Z.abs (3600 * Z.abs (scaled v) - arcseconds d m s * 2 ^ 1074)
      <= 2 ^ 1073 + 61 * 2 ^ 1027.
Proof.
  intros Hv Hlo Hhi.
  pose proof (longitude_below v Hv Hlo Hhi) as Hb.
  destruct (dms_of_value 181 v ltac:(lia) Hb)
    as (d & m & s & Hd & Hm & Hs & Ed & Em & Es & Hacc).
  exists d, m, s.
  destruct (axis_string_small (dms_of v) "" d m s
              ltac:(lia) ltac:(lia) ltac:(lia) Ed Em Es) as (_ & Id & Im & Is).
  split; [exact Id|]. split; [exact Im|]. split; [exact Is|]. split; [|exact Hacc].
  intros h.
  destruct (axis_string_small (dms_of v) h d m s
              ltac:(lia) ltac:(lia) ltac:(lia) Ed Em Es) as (A & _).
  exact A.
Qed.

(** The claim at [55.2744], which prints as [55°16′28″]. *)
Lemma convertToDMS_accuracy_witness :
  exists d m s,
    axis_string (dms_of (ofDecimal 552744 (-4))) "E" =
      decimal d +:+ "°" +:+ decimal m +:+ "′" +:+ decimal s +:+ "″" +:+ "E" /\
    Z.abs (3600 * Z.abs (scaled (ofDecimal 552744 (-4))) - arcseconds d m s * 2 ^ 1074)
      <= 2 ^ 1073 + 61 * 2 ^ 1027.
Proof.
  destruct (convertToDMS_accuracy (ofDecimal 552744 (-4)))
    as (d & m & s & _ & _ & _ & Hstr & Hacc);
    [vm_compute; reflexivity | vm_compute; reflexivity | vm_compute; reflexivity |].
  exists d, m, s. split; [apply Hstr | exact Hacc].
Defined.

End AccuracyFacts.
